(** * AthenaQueryResultCollector: a shallow embedding of src/index.ts

    The collector drives a sequential pagination loop over an external
    pager (package athena-query-result-pager).  Three consumption modes
    are embedded here: [collectWith] (and [collect]), [stream] and
    [processBatches], together with the private [fetchPageWithRetry],
    the options as the constructor stores them, and [stream] as the
    generator its consumer drives with [next()].

    Asynchronous code is sequential in the source (every promise is
    awaited), so it is embedded as a state-and-exception monad over a
    world made of the pager's state, the state of the caller's callbacks
    and a chronological trace of the observable calls.  The
    [do ... while (nextToken)] loops run as long as the pager hands out
    tokens; they are embedded with a bound on the number of turns, and
    the statements say how many turns are enough. *)

From Stdlib Require Import String List ZArith Lia Bool Arith.
From ExtLib Require Import Structures.Monad Structures.MonadExc.
Import ListNotations.
Import MonadNotation.
Local Open Scope monad_scope.
Local Open Scope list_scope.
Local Open Scope nat_scope.

Set Implicit Arguments.

(** ** Data model *)

(** [PageResult<T>] of the pager package: the fields the tests build. *)
Module PageResult.
Record t (T : Type) : Type := mk {
  rows : list T;
  nextToken : option string;
  rowCount : nat
}.
Arguments mk {T} _ _ _.
End PageResult.

(** [CollectResult<T>], index.ts lines 21-30. *)
Module CollectResult.
Record t (T : Type) : Type := mk {
  rows : list T;
  totalRows : nat;
  pageCount : nat;
  truncated : bool
}.
Arguments mk {T} _ _ _ _.
End CollectResult.

(** The anonymous result type of [processBatches], index.ts line 160. *)
Module BatchResult.
Record t : Type := mk {
  totalRows : nat;
  pageCount : nat
}.
End BatchResult.

(** JavaScript truthiness of a [string | undefined]: [undefined] and the
    empty string are falsy.  This is the test of [while (nextToken)]. *)
Definition truthy (s : option string) : bool :=
  match s with
  | Some s => negb (String.eqb s EmptyString)
  | None => false
  end.

(** [Array.prototype.slice(start, end)] on integer arguments: a negative
    index counts from the end of the array. *)
Definition slice {A : Type} (l : list A) (start end_ : Z) : list A :=
  let len := Z.of_nat (length l) in
  let k := if (start <? 0)%Z then Z.max (len + start) 0 else Z.min start len in
  let final := if (end_ <? 0)%Z then Z.max (len + end_) 0 else Z.min end_ len in
  firstn (Z.to_nat (final - k)) (skipn (Z.to_nat k) l).

(** [maxRows !== undefined && n >= maxRows]: [n] rows reach the limit. *)
Definition reached (maxRows : option Z) (n : nat) : bool :=
  match maxRows with
  | Some maxRows => (Z.of_nat n >=? maxRows)%Z
  | None => false
  end.

(** The outcome of a call that may throw: [inl e] is a rejection. *)
Definition outcome (Err A : Type) : Type := (Err + A)%type.

(** The external pager, as the collector uses it: [reset()] and
    [fetchPageWith(queryExecutionId, rowParser, nextToken)], which
    answers with a page of parsed rows or rejects.  How it fetches and
    how it applies the row parser is its own business. *)
Class Pager (Err Raw T P : Type) : Type := {
  reset : P -> P;
  fetchPageWith :
      string -> (Raw -> T) -> option string -> P ->
      outcome Err (PageResult.t T) * P
}.

Section Model.

Context {Err Raw T P C : Type}.
Context {pagerOps : Pager Err Raw T P}.

(** Observable calls, in the order they happen. *)
Inductive event : Type :=
| EvReset
| EvFetch (queryExecutionId : string) (nextToken : option string)
          (result : outcome Err (PageResult.t T))
| EvSleep (ms : Z)
| EvOnPage (page : PageResult.t T) (totalCollected : nat)
           (result : outcome Err unit)
| EvBatch (rows : list T) (pageIndex : nat) (result : outcome Err (list T))
| EvYield (row : T).

(** The pager's state, the state owned by the caller's callbacks, and
    the trace so far. *)
Record world : Type := World {
  pager : P;
  user : C;
  trace : list event
}.

(** How a call ends.  [Threw None] is [throw undefined]. *)
Inductive result (A : Type) : Type :=
| Returned (a : A)
| Threw (v : option Err)
| OutOfFuel.
Arguments Returned {A} a.
Arguments Threw {A} v.
Arguments OutOfFuel {A}.

Definition M (A : Type) : Type := world -> result A * world.

#[export] Instance Monad_M : Monad M := {|
  ret := fun _ a w => (Returned a, w);
  bind := fun _ _ m k w =>
    match m w with
    | (Returned a, w') => k a w'
    | (Threw v, w') => (Threw v, w')
    | (OutOfFuel, w') => (OutOfFuel, w')
    end
|}.

#[export] Instance Exc_M : MonadExc (option Err) M := {|
  raise := fun _ v w => (Threw v, w);
  catch := fun _ m h w =>
    match m w with
    | (Threw v, w') => h v w'
    | r => r
    end
|}.

Definition outOfFuel {A : Type} : M A := fun w => (OutOfFuel, w).

Definition emit (e : event) : M unit :=
  fun w => (Returned tt, World (pager w) (user w) (trace w ++ [e])).

(** ** The collaborators as monadic calls *)

(** [this.pager.reset()] *)
Definition pager_reset : M unit :=
  fun w => (Returned tt, World (reset (pager w)) (user w) (trace w ++ [EvReset])).

(** [await this.pager.fetchPageWith(queryExecutionId, rowParser, nextToken)] *)
Definition pager_fetchPageWith (queryExecutionId : string) (rowParser : Raw -> T)
    (nextToken : option string) : M (PageResult.t T) :=
  fun w =>
    let (r, p') := fetchPageWith queryExecutionId rowParser nextToken (pager w) in
    let w' := World p' (user w) (trace w ++ [EvFetch queryExecutionId nextToken r]) in
    match r with
    | inl error => (Threw (Some error), w')
    | inr page => (Returned page, w')
    end.

(** [await this.sleep(ms)] *)
Definition sleep (ms : Z) : M unit := emit (EvSleep ms).

(** A callback of the caller: it may update the caller's state and
    may throw. *)
Definition callback (A : Type) : Type := A -> nat -> C -> outcome Err unit * C.

Definition call {A : Type} (ev : A -> nat -> outcome Err unit -> event)
    (f : callback A) (a : A) (n : nat) : M unit :=
  fun w =>
    let (r, c') := f a n (user w) in
    let w' := World (pager w) c' (trace w ++ [ev a n r]) in
    match r with
    | inl error => (Threw (Some error), w')
    | inr _ => (Returned tt, w')
    end.

(** [batchProcessor]: it is handed the array [page.rows] itself, not
    a copy, so besides updating the caller's state and throwing it
    may change that array; [inr rows] is a call that completed and
    left the array holding [rows]. *)
Definition processor : Type := list T -> nat -> C -> outcome Err (list T) * C.

(** [await batchProcessor(page.rows, pageCount)]; the answer is
    [page.rows] as the loop finds it afterwards. *)
Definition call_batchProcessor (batchProcessor : processor) (rows : list T)
    (pageIndex : nat) : M (list T) :=
  fun w =>
    let (r, c') := batchProcessor rows pageIndex (user w) in
    let w' := World (pager w) c' (trace w ++ [EvBatch rows pageIndex r]) in
    match r with
    | inl error => (Threw (Some error), w')
    | inr rows' => (Returned rows', w')
    end.

(** [CollectorOptions] as resolved by the constructor (index.ts lines
    7-16 and 43-49); the pager's own options are passed through to the
    pager and not read here. *)
Record CollectorOptions : Type := Options {
  maxRows : option Z;
  onPage : option (callback (PageResult.t T));
  retryCount : Z;
  retryDelayMs : Z
}.

(** [new AthenaQueryResultCollector(client)]: [options = {}]. *)
Definition defaultOptions : CollectorOptions :=
  Options None None 0%Z 1000%Z.

Variable options : CollectorOptions.

(** ** fetchPageWithRetry, index.ts lines 194-213

    [iterations] counts the remaining turns of
    [for (attempt = 0; attempt <= retryCount; attempt++)]. *)
Fixpoint fetchPageWithRetry_for (iterations : nat) (attempt : Z)
    (lastError : option Err)
    (queryExecutionId : string) (rowParser : Raw -> T)
    (nextToken : option string) : M (PageResult.t T) :=
  match iterations with
  | O => raise lastError
  | S iterations' =>
      catch
        (pager_fetchPageWith queryExecutionId rowParser nextToken)
        (fun error =>
           let lastError := error in
           (if (attempt <? retryCount options)%Z
            then sleep (retryDelayMs options)
            else ret tt) ;;
           fetchPageWithRetry_for iterations' (attempt + 1)%Z lastError
             queryExecutionId rowParser nextToken)
  end.

Definition fetchPageWithRetry (queryExecutionId : string) (rowParser : Raw -> T)
    (nextToken : option string) : M (PageResult.t T) :=
  fetchPageWithRetry_for (Z.to_nat (retryCount options + 1)) 0%Z None
    queryExecutionId rowParser nextToken.

(** [if (this.options.onPage) await this.options.onPage(page, n)] *)
Definition call_onPage (page : PageResult.t T) (n : nat) : M unit :=
  match onPage options with
  | Some f => call EvOnPage f page n
  | None => ret tt
  end.

(** ** collectWith, index.ts lines 67-114

    One unit of fuel is one turn of the [do ... while (nextToken)]
    loop; the loop variables are the arguments. *)
Definition collectWith_return (rows : list T) (pageCount : nat)
    (truncated : bool) : M (CollectResult.t T) :=
  ret (CollectResult.mk rows (length rows) pageCount truncated).

Fixpoint collectWith_loop (fuel : nat)
    (queryExecutionId : string) (rowParser : Raw -> T)
    (rows : list T) (nextToken : option string) (pageCount : nat)
    (truncated : bool) : M (CollectResult.t T) :=
  match fuel with
  | O => outOfFuel
  | S fuel' =>
      page <- fetchPageWithRetry queryExecutionId rowParser nextToken ;;
      let pageCount := S pageCount in
      let continue_ :=
        let rows := rows ++ PageResult.rows page in
        call_onPage page (length rows) ;;
        let nextToken := PageResult.nextToken page in
        if truthy nextToken
        then collectWith_loop fuel' queryExecutionId rowParser
               rows nextToken pageCount truncated
        else collectWith_return rows pageCount truncated in
      match maxRows options with
      | Some maxRows =>
          let remaining := (maxRows - Z.of_nat (length rows))%Z in
          if (Z.of_nat (length (PageResult.rows page)) >=? remaining)%Z
          then
            let rows := rows ++ slice (PageResult.rows page) 0 remaining in
            let truncated := true in
            collectWith_return rows pageCount truncated
          else continue_
      | None => continue_
      end
  end.

Definition collectWith (fuel : nat) (queryExecutionId : string)
    (rowParser : Raw -> T) : M (CollectResult.t T) :=
  pager_reset ;;
  collectWith_loop fuel queryExecutionId rowParser [] None 0 false.

(** ** stream, index.ts lines 121-148

    The generator is embedded as run to the end by its consumer: each
    [yield row] is an [EvYield row] of the trace, so the trace gives
    the yielded sequence and its interleaving with the fetches. *)
Inductive completion : Type :=
| Normal     (* the [for ... of] ran off the end of the page *)
| Return.    (* [return] was executed *)

Fixpoint stream_forOf (rows : list T) (count : nat) : M (completion * nat) :=
  match rows with
  | [] => ret (Normal, count)
  | row :: rows' =>
      if reached (maxRows options) count
      then ret (Return, count)
      else
        emit (EvYield row) ;;
        stream_forOf rows' (S count)
  end.

Fixpoint stream_loop (fuel : nat)
    (queryExecutionId : string) (rowParser : Raw -> T)
    (nextToken : option string) (count : nat) : M unit :=
  match fuel with
  | O => outOfFuel
  | S fuel' =>
      page <- fetchPageWithRetry queryExecutionId rowParser nextToken ;;
      r <- stream_forOf (PageResult.rows page) count ;;
      match r with
      | (Return, _) => ret tt
      | (Normal, count) =>
          let nextToken := PageResult.nextToken page in
          if truthy nextToken
          then stream_loop fuel' queryExecutionId rowParser nextToken count
          else ret tt
      end
  end.

Definition stream (fuel : nat) (queryExecutionId : string)
    (rowParser : Raw -> T) : M unit :=
  pager_reset ;;
  stream_loop fuel queryExecutionId rowParser None 0.

(** ** processBatches, index.ts lines 156-189

    [totalRows += page.rows.length] comes after the call of
    [batchProcessor], which was handed [page.rows]: the length added
    is that of the array as the call left it, here [rows]. *)
Fixpoint processBatches_loop (fuel : nat)
    (queryExecutionId : string) (rowParser : Raw -> T)
    (batchProcessor : processor)
    (nextToken : option string) (pageCount totalRows : nat)
    : M BatchResult.t :=
  match fuel with
  | O => outOfFuel
  | S fuel' =>
      page <- fetchPageWithRetry queryExecutionId rowParser nextToken ;;
      rows <- call_batchProcessor batchProcessor (PageResult.rows page) pageCount ;;
      let pageCount := S pageCount in
      let totalRows := totalRows + length rows in
      if reached (maxRows options) totalRows
      then ret (BatchResult.mk totalRows pageCount)
      else
        let nextToken := PageResult.nextToken page in
        if truthy nextToken
        then processBatches_loop fuel' queryExecutionId rowParser
               batchProcessor nextToken pageCount totalRows
        else ret (BatchResult.mk totalRows pageCount)
  end.

Definition processBatches (fuel : nat) (queryExecutionId : string)
    (rowParser : Raw -> T) (batchProcessor : processor)
    : M BatchResult.t :=
  pager_reset ;;
  processBatches_loop fuel queryExecutionId rowParser batchProcessor None 0 0.

End Model.

Arguments Returned {Err A} a.
Arguments Threw {Err A} v.
Arguments OutOfFuel {Err A}.
Arguments event : clear implicits.
Arguments world : clear implicits.
Arguments CollectorOptions : clear implicits.
Arguments callback : clear implicits.
Arguments processor : clear implicits.

(** [collect], index.ts lines 57-59: [collectWith] with the identity parser. *)
Definition collect {Err Raw P C : Type} {pagerOps : Pager Err Raw Raw P}
    (options : CollectorOptions Err Raw C) (fuel : nat)
    (queryExecutionId : string) : M (CollectResult.t Raw) :=
  collectWith (P := P) options fuel queryExecutionId (fun row => row).

(** ** A pager that replays recorded outcomes

    The collector only sees the pager through its two methods; a page
    sequence is served by a pager that answers the i-th call with the
    i-th recorded outcome, whatever arguments it is given.  This is the
    jest mock of test/collector.test.ts: [once] is the queue filled by
    [mockResolvedValueOnce] and [mockRejectedValueOnce], [fallback] the
    answer set by [mockResolvedValue] or [mockRejectedValue], and
    [reset] does nothing. *)
Module Script.
Record t (Err T : Type) : Type := mk {
  once : list (outcome Err (PageResult.t T));
  fallback : outcome Err (PageResult.t T)
}.
Arguments mk {Err T} _ _.

Definition fetch {Err Raw T : Type} (queryExecutionId : string)
    (rowParser : Raw -> T) (nextToken : option string) (s : t Err T)
    : outcome Err (PageResult.t T) * t Err T :=
  match once s with
  | [] => (fallback s, s)
  | r :: queue => (r, mk queue (fallback s))
  end.
End Script.

#[export] Instance scriptPager {Err Raw T : Type} : Pager Err Raw T (Script.t Err T) := {|
  reset := fun s => s;
  fetchPageWith := Script.fetch
|}.

(** ** Vocabulary of the statements *)

Section Vocabulary.

Context {Err T : Type}.

Definition page_size (p : PageResult.t T) : nat := length (PageResult.rows p).

(** The page carries a continuation token, as the loops test it. *)
Definition has_token (p : PageResult.t T) : bool :=
  truthy (PageResult.nextToken p).

(** Every row of the pages, in page order. *)
Definition all_rows (ps : list (PageResult.t T)) : list T :=
  flat_map (@PageResult.rows T) ps.

Definition total_rows (ps : list (PageResult.t T)) : nat := length (all_rows ps).

(** A page sequence: every page but the last carries a continuation
    token, the last one carries none. *)
Fixpoint page_sequence (ps : list (PageResult.t T)) : bool :=
  match ps with
  | [] => false
  | [p] => negb (has_token p)
  | p :: ps' => has_token p && page_sequence ps'
  end.

(** The first [maxRows] elements, or all of them without a limit. *)
Definition limit (maxRows : option Z) (l : list T) : list T :=
  match maxRows with
  | Some m => firstn (Z.to_nat m) l
  | None => l
  end.

(** How many of the next [len] rows may still be taken when [count]
    rows have been taken. *)
Definition allowance (maxRows : option Z) (count len : nat) : nat :=
  match maxRows with
  | Some m => Nat.min len (Z.to_nat (m - Z.of_nat count))
  | None => len
  end.

(** [n] rows do not exceed the limit. *)
Definition within (maxRows : option Z) (n : nat) : Prop :=
  match maxRows with
  | Some m => (Z.of_nat n <= m)%Z
  | None => True
  end.

(** The token the next fetch is given after the pages [ps]. *)
Definition token_after (nextToken : option string) (ps : list (PageResult.t T))
    : option string :=
  last (map (@PageResult.nextToken T) ps) nextToken.

(** Each page with the number of rows seen up to and including it. *)
Fixpoint running (count : nat) (ps : list (PageResult.t T))
    : list (PageResult.t T * nat) :=
  match ps with
  | [] => []
  | p :: ps' => (p, count + page_size p) :: running (count + page_size p) ps'
  end.

(** *** Projections of a trace *)

Definition is_fetch (e : event Err T) : bool :=
  match e with EvFetch _ _ _ => true | _ => false end.

Definition fetch_calls (tr : list (event Err T)) : nat :=
  length (filter is_fetch tr).

Definition fetched_pages (tr : list (event Err T)) : list (PageResult.t T) :=
  flat_map (fun e => match e with EvFetch _ _ (inr p) => [p] | _ => [] end) tr.

Definition sleeps (tr : list (event Err T)) : list Z :=
  flat_map (fun e => match e with EvSleep ms => [ms] | _ => [] end) tr.

Definition onPage_calls (tr : list (event Err T)) : list (PageResult.t T * nat) :=
  flat_map (fun e => match e with EvOnPage p n _ => [(p, n)] | _ => [] end) tr.

Definition batch_calls (tr : list (event Err T)) : list (list T * nat) :=
  flat_map (fun e => match e with EvBatch rs i _ => [(rs, i)] | _ => [] end) tr.

Definition yielded (tr : list (event Err T)) : list T :=
  flat_map (fun e => match e with EvYield r => [r] | _ => [] end) tr.

(** The rows a batch run has counted: what the arrays handed to
    [batchProcessor] held when its calls completed. *)
Definition counted (tr : list (event Err T)) : nat :=
  length (flat_map (fun e => match e with
                             | EvBatch _ _ (inr rows) => rows
                             | _ => []
                             end) tr).

(** A batch run that has counted [count] rows ends with the call of
    [batchProcessor] with which its count reaches the limit. *)
Fixpoint halts (maxRows : option Z) (count : nat) (tr : list (event Err T))
    : Prop :=
  match tr with
  | [] => True
  | EvBatch _ _ (inr rows) :: tr' =>
      if reached maxRows (count + length rows)
      then tr' = []
      else halts maxRows (count + length rows) tr'
  | _ :: tr' => halts maxRows count tr'
  end.

(** The fetch of a page without continuation token. *)
Definition ends_pagination (e : event Err T) : bool :=
  match e with
  | EvFetch _ _ (inr p) => negb (has_token p)
  | _ => false
  end.

(** The error a callback invocation raised, if it raised one. *)
Definition callback_threw (e : event Err T) : option Err :=
  match e with
  | EvOnPage _ _ (inl error) => Some error
  | EvBatch _ _ (inl error) => Some error
  | _ => None
  end.

(** A failed fetch attempt or the wait that follows it. *)
Definition quiet (e : event Err T) : bool :=
  match e with
  | EvFetch _ _ (inl _) => true
  | EvSleep _ => true
  | _ => false
  end.


(** An event that is neither a fetch nor a callback that raised. *)
Definition calm (e : event Err T) : bool :=
  negb (is_fetch e)
  && match callback_threw e with Some _ => false | None => true end.

(** The traces a pagination loop can leave behind, with how it ended.
    Every turn is a number of failed attempts, the fetch of a page,
    and what the mode does with the page; only a page that carries a
    token is followed by another turn. *)
Inductive run_shape {A : Type} : list (event Err T) -> @result Err A -> Prop :=
| shape_out_of_fuel :
    run_shape [] OutOfFuel
| shape_fetch_failed fails v :
    forallb quiet fails = true ->
    run_shape fails (Threw v)
| shape_last fails q tok page mid a :
    forallb quiet fails = true ->
    forallb calm mid = true ->
    run_shape (fails ++ EvFetch q tok (inr page) :: mid) (Returned a)
| shape_callback_threw fails q tok page ev error :
    forallb quiet fails = true ->
    callback_threw ev = Some error ->
    run_shape (fails ++ EvFetch q tok (inr page) :: [ev]) (Threw (Some error))
| shape_next fails q tok page mid rest r :
    forallb quiet fails = true ->
    forallb calm mid = true ->
    has_token page = true ->
    run_shape rest r ->
    run_shape (fails ++ EvFetch q tok (inr page) :: mid ++ rest) r.

End Vocabulary.

Section ExpectedTraces.

Context {Err T C : Type}.

Definition never_throws {A : Type} (f : callback Err C A) : Prop :=
  forall a n c, fst (f a n c) = inr tt.

Definition onPage_never_throws (options : CollectorOptions Err T C) : Prop :=
  forall f, onPage options = Some f -> never_throws f.

(** A [batchProcessor] that never throws. *)
Definition completes (batchProcessor : processor Err T C) : Prop :=
  forall rows pageIndex c, exists rows', fst (batchProcessor rows pageIndex c) = inr rows'.

(** A [batchProcessor] that may reorder or replace the rows it is
    handed, but leaves the array as long as it was. *)
Definition keeps_length (batchProcessor : processor Err T C) : Prop :=
  forall rows pageIndex c rows',
    fst (batchProcessor rows pageIndex c) = inr rows' -> length rows' = length rows.


(** The observation made for a page that was appended in full. *)
Definition onPage_events (options : CollectorOptions Err T C)
    (page : PageResult.t T) (totalCollected : nat) : list (event Err T) :=
  match onPage options with
  | Some _ => [EvOnPage page totalCollected (inr tt)]
  | None => []
  end.

Variable queryExecutionId : string.

(** Failed attempts that are retried: each is followed by the wait. *)
Definition retry_trace (nextToken : option string) (delay : Z) (errors : list Err)
    : list (event Err T) :=
  flat_map (fun e => [EvFetch queryExecutionId nextToken (inl e); EvSleep delay])
           errors.

(** Bulk collection of pages appended in full: each page is fetched
    with the token of the page before it and then observed with the
    number of rows collected so far. *)
Fixpoint collect_trace (options : CollectorOptions Err T C)
    (nextToken : option string) (count : nat) (ps : list (PageResult.t T))
    : list (event Err T) :=
  match ps with
  | [] => []
  | p :: ps' =>
      EvFetch queryExecutionId nextToken (inr p)
        :: onPage_events options p (count + page_size p)
        ++ collect_trace options (PageResult.nextToken p) (count + page_size p) ps'
  end.

(** Streaming of pages yielded in full. *)
Fixpoint stream_trace (nextToken : option string) (ps : list (PageResult.t T))
    : list (event Err T) :=
  match ps with
  | [] => []
  | p :: ps' =>
      EvFetch queryExecutionId nextToken (inr p)
        :: map (@EvYield Err T) (PageResult.rows p)
        ++ stream_trace (PageResult.nextToken p) ps'
  end.

(** Batch processing: each page is fetched and handed over whole,
    with its index, to a [batchProcessor] that leaves it alone. *)
Fixpoint batch_trace (nextToken : option string) (pageIndex : nat)
    (ps : list (PageResult.t T)) : list (event Err T) :=
  match ps with
  | [] => []
  | p :: ps' =>
      EvFetch queryExecutionId nextToken (inr p)
        :: EvBatch (PageResult.rows p) pageIndex (inr (PageResult.rows p))
        :: batch_trace (PageResult.nextToken p) (S pageIndex) ps'
  end.

End ExpectedTraces.

(** ** The scenarios of test/collector.test.ts

    Rows are integers, errors are their messages, and the caller's
    state is the list of numbers its callbacks were given. *)
Module Scenario.

Definition queryExecutionId : string := "query-id-123"%string.

Definition page (rows : list Z) (nextToken : option string) : PageResult.t Z :=
  PageResult.mk rows nextToken (length rows).

Definition exhausted : outcome string (PageResult.t Z) :=
  inl "no more answers"%string.

(** The mocked pager with its queue of answers, before the call. *)
Definition mock (answers : list (outcome string (PageResult.t Z)))
    : world string Z (Script.t string Z) (list nat) :=
  World (Script.mk answers exhausted) [] [].

(** An onPage callback that records the running total. *)
Definition progress : callback string (list nat) (PageResult.t Z) :=
  fun _ totalCollected seen => (inr tt, seen ++ [totalCollected]).

(** A batchProcessor that records the page index. *)
Definition store : processor string Z (list nat) :=
  fun rows pageIndex seen => (inr rows, seen ++ [pageIndex]).


(** Callbacks that raise. *)
Definition failing_onPage : callback string (list nat) (PageResult.t Z) :=
  fun _ _ seen => (inl "onPage failed"%string, seen).

Definition failing_store : processor string Z (list nat) :=
  fun _ _ seen => (inl "batch failed"%string, seen).

Definition options (maxRows : option Z) (retryCount : Z)
    : CollectorOptions string Z (list nat) :=
  Options maxRows (Some progress) retryCount 10%Z.

Definition identity (row : Z) : Z := row.

(** 'fetches multiple pages via nextToken and returns all rows' *)
Definition two_pages : list (PageResult.t Z) :=
  [page [1%Z] (Some "token1"%string); page [2%Z] None].

(** 'truncates when exceeding maxRows in collect' *)
Definition first_of_five : PageResult.t Z := page [1; 2; 3]%Z (Some "t"%string).
Definition last_of_five : PageResult.t Z := page [4; 5]%Z None.

(** 'stops yielding when maxRows is exceeded in stream' *)
Definition three_rows : PageResult.t Z := page [1; 2; 3]%Z None.

(** 'breaks the loop when maxRows is reached in processBatches' *)
Definition first_batch : PageResult.t Z := page [1; 2]%Z (Some "t"%string).
Definition second_batch : PageResult.t Z := page [3; 4]%Z None.

(** 'retries after fetchPageWith failure and succeeds' *)
Definition ok_page : PageResult.t Z := page [1%Z] None.

(** An empty result set. *)
Definition empty_page : PageResult.t Z := page [] None.

(** A limit of one row met by the only row of a page with a token,
    followed by an empty page with a token and by a last page. *)
Definition full_page : PageResult.t Z := page [10%Z] (Some "a"%string).
Definition hollow_page : PageResult.t Z := page [] (Some "b"%string).
Definition final_page : PageResult.t Z := page [7%Z] None.

(** The calls of the scenarios. *)
Definition collect_two_pages :=
  collect (options None 0) 5 queryExecutionId (mock (map inr two_pages)).

Definition collect_limit_four :=
  collect (options (Some 4%Z) 0) 5 queryExecutionId
    (mock (map inr [first_of_five; last_of_five])).

Definition collect_limit_zero :=
  collect (options (Some 0%Z) 0) 5 queryExecutionId (mock (map inr [three_rows])).

Definition collect_limit_two :=
  collectWith (options (Some 2%Z) 0) 5 queryExecutionId identity
    (mock (map inr [three_rows])).

Definition stream_limit_two :=
  stream (options (Some 2%Z) 0) 5 queryExecutionId identity
    (mock (map inr [three_rows])).

Definition batches_limit_three :=
  processBatches (options (Some 3%Z) 0) 5 queryExecutionId identity store
    (mock (map inr [first_batch; second_batch])).

Definition retry_once :=
  fetchPageWithRetry (options None 1) queryExecutionId identity None
    (mock [inl "network error"%string; inr ok_page]).

Definition retry_exhausted :=
  fetchPageWithRetry (options None 2) queryExecutionId identity None
    (mock [inl "first"%string; inl "second"%string; inl "third"%string;
           inr ok_page]).

Definition collect_empty :=
  collect (options (Some 0%Z) 0) 1 queryExecutionId (mock [inr empty_page]).

Definition stream_empty :=
  stream (options (Some 0%Z) 0) 1 queryExecutionId identity (mock [inr empty_page]).

Definition batches_empty :=
  processBatches (options (Some 0%Z) 0) 1 queryExecutionId identity store
    (mock [inr empty_page]).

Definition collect_failing_onPage :=
  collect (Options None (Some failing_onPage) 0 10%Z) 5 queryExecutionId
    (mock (map inr two_pages)).

Definition batches_failing_store :=
  processBatches (options None 0) 5 queryExecutionId identity failing_store
    (mock (map inr two_pages)).


Definition stream_past_limit :=
  stream (options (Some 1%Z) 0) 5 queryExecutionId identity
    (mock (map inr [full_page; hollow_page; final_page])).

Definition collect_past_limit :=
  collectWith (options (Some 1%Z) 0) 5 queryExecutionId identity
    (mock (map inr [full_page; hollow_page; final_page])).

(** A page whose token is the empty string, which is falsy. *)
Definition blank_token_page : PageResult.t Z := page [1%Z] (Some EmptyString).

Definition collect_blank_token :=
  collect (options None 0) 5 queryExecutionId
    (mock (map inr [blank_token_page; final_page])).

(** Options outside the documented domain: a negative limit and a
    negative number of retries. *)
Definition collect_negative_limit :=
  collect (options (Some (-1)%Z) 0) 5 queryExecutionId (mock (map inr [three_rows])).

Definition stream_negative_limit :=
  stream (options (Some (-1)%Z) 0) 5 queryExecutionId identity
    (mock (map inr [three_rows])).

Definition collect_negative_retries :=
  collect (options None (-1)) 5 queryExecutionId (mock (map inr [three_rows])).

End Scenario.

(** ** The constructor, index.ts lines 41-50

    The constructor hands [client] and [options] to the pager's own
    constructor and stores the options with the defaults filled in:

      this.options = { maxRows: options.maxRows, onPage: options.onPage,
                       retryCount: options.retryCount ?? 0,
                       retryDelayMs: options.retryDelayMs ?? 1000,
                       ...options };

    The spread comes last, so every property the argument owns
    replaces the one written before it. *)

(** A property of an options object: the key is missing, or the object
    owns it with a value that may be [undefined]. *)
Module Property.
Inductive t (A : Type) : Type :=
| Missing
| Own (value : option A).
Arguments Missing {A}.
Arguments Own {A} value.

(** [options.key] *)
Definition read {A : Type} (p : t A) : option A :=
  match p with
  | Missing => None
  | Own value => value
  end.
End Property.

(** [a ?? b] for an [a] that is [undefined] or a value. *)
Definition nullish {A : Type} (a : option A) (b : A) : A :=
  match a with
  | Some value => value
  | None => b
  end.

(** [{ key: written, ...options }]: what the object literal holds
    under [key] once [options] has been spread over it. *)
Definition spread {A : Type} (written : option A) (p : Property.t A) : option A :=
  match p with
  | Property.Missing => written
  | Property.Own value => value
  end.

(** The [options] argument of the constructor; the pager's own options
    are not read by the collector. *)
Module Supplied.
Record t (Err T C : Type) : Type := mk {
  maxRows : Property.t Z;
  onPage : Property.t (callback Err C (PageResult.t T));
  retryCount : Property.t Z;
  retryDelayMs : Property.t Z
}.
Arguments mk {Err T C} _ _ _ _.

(** [{}], the default of the parameter. *)
Definition empty {Err T C : Type} : t Err T C :=
  mk Property.Missing Property.Missing Property.Missing Property.Missing.
End Supplied.

(** [this.options] *)
Module Stored.
Record t (Err T C : Type) : Type := mk {
  maxRows : option Z;
  onPage : option (callback Err C (PageResult.t T));
  retryCount : option Z;
  retryDelayMs : option Z
}.
Arguments mk {Err T C} _ _ _ _.
End Stored.

(** A parameter with a default value, [options = {}]: the default is
    taken when the argument is left out (or [undefined]). *)
Definition default_parameter {A : Type} (argument : option A) (default : A) : A :=
  match argument with
  | Some value => value
  | None => default
  end.

(** The options the constructor stores.  [None] is a call without the
    [options] argument. *)
Definition constructor {Err T C : Type} (options : option (Supplied.t Err T C))
    : Stored.t Err T C :=
  let options := default_parameter options Supplied.empty in
  Stored.mk
    (spread (Property.read (Supplied.maxRows options)) (Supplied.maxRows options))
    (spread (Property.read (Supplied.onPage options)) (Supplied.onPage options))
    (spread (Some (nullish (Property.read (Supplied.retryCount options)) 0%Z))
            (Supplied.retryCount options))
    (spread (Some (nullish (Property.read (Supplied.retryDelayMs options)) 1000%Z))
            (Supplied.retryDelayMs options)).

(** The methods read [this.options.retryCount!] and
    [this.options.retryDelayMs!] as numbers: the stored options as the
    [CollectorOptions] of the methods, when both are numbers. *)
Definition resolved {Err T C : Type} (stored : Stored.t Err T C)
    : option (CollectorOptions Err T C) :=
  match Stored.retryCount stored, Stored.retryDelayMs stored with
  | Some retryCount, Some retryDelayMs =>
      Some (Options (Stored.maxRows stored) (Stored.onPage stored)
                    retryCount retryDelayMs)
  | _, _ => None
  end.

(** ** Journals: the trace of a pagination loop, attempt by attempt *)

Section Journals.
Context {Err T C : Type}.
Variable options : CollectorOptions Err T C.
Variable queryExecutionId : string.

(** The three loops. *)
Inductive mode : Type := Collecting | Streaming | Batching.

(** What a loop does with a fetched page: bulk collection observes
    it with the configured [onPage], streaming yields rows, batch
    processing calls [batchProcessor]. *)
Definition handling (m : mode) (e : event Err T) : Prop :=
  match e with
  | EvOnPage _ _ _ => m = Collecting /\ onPage options <> None
  | EvBatch _ _ _ => m = Batching
  | EvYield _ => m = Streaming
  | _ => False
  end.

(** The events a loop can leave behind: fetches of the query it was
    given, waits of [retryDelayMs], and its own handling of pages. *)
Definition permitted (m : mode) (e : event Err T) : Prop :=
  match e with
  | EvReset => False
  | EvFetch q _ _ => q = queryExecutionId
  | EvSleep ms => ms = retryDelayMs options
  | _ => handling m e
  end.

(** Every fetch is given the token of the page fetched last, the
    first one [nextToken]; a failed attempt leaves the token as it
    is. *)
Fixpoint chained (nextToken : option string) (tr : list (event Err T)) : Prop :=
  match tr with
  | [] => True
  | EvFetch _ tok (inr page) :: tr' =>
      tok = nextToken /\ chained (PageResult.nextToken page) tr'
  | EvFetch _ tok (inl _) :: tr' =>
      tok = nextToken /\ chained nextToken tr'
  | _ :: tr' => chained nextToken tr'
  end.

(** Counting from [count] rows, the limit is reached by none of the
    pages [ps] but, at most, the last one. *)
Definition stops_at_limit (count : nat) (ps : list (PageResult.t T)) : Prop :=
  forall pre p post,
    ps = pre ++ p :: post ->
    post <> [] ->
    reached (maxRows options) (count + total_rows (pre ++ [p])) = false.

(** Why a call threw [v], as its trace [delta] shows it: no attempt
    was made at all, or the last event is a callback that raised
    [v], or it is the last of [retryCount + 1] failed attempts at
    one page, which raised [v]. *)
Definition failure_cause (v : option Err) (delta : list (event Err T)) : Prop :=
  ((retryCount options < 0)%Z /\ v = None /\ delta = [])
  \/ exists before ev error,
       delta = before ++ [ev]
       /\ v = Some error
       /\ (callback_threw ev = Some error
           \/ exists tok errors before',
                ev = EvFetch queryExecutionId tok (inl error)
                /\ before
                   = before' ++ retry_trace queryExecutionId tok
                                  (retryDelayMs options) errors
                /\ Z.of_nat (length errors) = retryCount options).

(** The traces of a loop that starts with the token [tok], turn by
    turn.  A turn is the attempts at one page: failed ones, each
    followed by the wait, up to [retryCount] of them before the
    page arrives. *)
Inductive journal {A : Type} (m : mode)
    : option string -> list (event Err T) -> @result Err A -> Prop :=
| journal_out_of_fuel tok :
    journal m tok [] OutOfFuel
| journal_no_attempt tok :
    (retryCount options < 0)%Z ->
    journal m tok [] (Threw None)
| journal_gave_up tok errors error :
    Z.of_nat (length errors) = retryCount options ->
    journal m tok
      (retry_trace queryExecutionId tok (retryDelayMs options) errors
         ++ [EvFetch queryExecutionId tok (inl error)])
      (Threw (Some error))
| journal_last tok errors page mid a :
    (Z.of_nat (length errors) <= retryCount options)%Z ->
    Forall (handling m) mid ->
    journal m tok
      (retry_trace queryExecutionId tok (retryDelayMs options) errors
         ++ EvFetch queryExecutionId tok (inr page) :: mid)
      (Returned a)
| journal_callback_threw tok errors page ev error :
    (Z.of_nat (length errors) <= retryCount options)%Z ->
    handling m ev ->
    callback_threw ev = Some error ->
    journal m tok
      (retry_trace queryExecutionId tok (retryDelayMs options) errors
         ++ EvFetch queryExecutionId tok (inr page) :: [ev])
      (Threw (Some error))
| journal_next tok errors page mid rest r :
    (Z.of_nat (length errors) <= retryCount options)%Z ->
    Forall (handling m) mid ->
    journal m (PageResult.nextToken page) rest r ->
    journal m tok
      (retry_trace queryExecutionId tok (retryDelayMs options) errors
         ++ EvFetch queryExecutionId tok (inr page) :: mid ++ rest)
      r.

End Journals.

(** ** stream as its consumer drives it

    [stream] is an async generator.  Calling it runs nothing; its body
    runs while the consumer awaits [next()], from the start or from the
    [yield] it is suspended at, up to the next [yield], to a [return]
    or to the end of the body.  A rejection leaves the generator
    completed. *)

Section Generator.
Context {Err Raw T P C : Type}.
Context {pagerOps : Pager Err Raw T P}.
Variable options : CollectorOptions Err T C.
Variable queryExecutionId : string.
Variable rowParser : Raw -> T.

(** The generator object between two calls of [next()].  Suspended
    at [yield row], it holds the rows of [page] the [for ... of] has
    still to visit and [count], which is incremented on resumption. *)
Inductive generator : Type :=
| SuspendedStart
| SuspendedYield (rows : list T) (page : PageResult.t T) (count : nat)
| Completed.

(** The body from inside [for (const row of page.rows)], with [rows]
    still to visit, up to the next [yield] ([Some row]) or to the
    end ([None]).  One unit of fuel is one further page. *)
Fixpoint stream_resume (fuel : nat) (rows : list T) (page : PageResult.t T)
    (count : nat) {struct fuel} : M (option T * generator) :=
  match rows with
  | row :: rows' =>
      if reached (maxRows options) count
      then ret (None, Completed)
      else
        emit (EvYield row) ;;
        ret (Some row, SuspendedYield rows' page count)
  | [] =>
      let nextToken := PageResult.nextToken page in
      if truthy nextToken
      then
        match fuel with
        | O => outOfFuel
        | S fuel' =>
            page <- fetchPageWithRetry options queryExecutionId rowParser nextToken ;;
            stream_resume fuel' (PageResult.rows page) page count
        end
      else ret (None, Completed)
  end.

(** [await generator.next()] *)
Definition stream_next (fuel : nat) (g : generator) : M (option T * generator) :=
  match g with
  | SuspendedStart =>
      pager_reset ;;
      match fuel with
      | O => outOfFuel
      | S fuel' =>
          page <- fetchPageWithRetry options queryExecutionId rowParser None ;;
          stream_resume fuel' (PageResult.rows page) page 0
      end
  | SuspendedYield rows page count => stream_resume fuel rows page (S count)
  | Completed => ret (None, Completed)
  end.

(** [for await (const row of generator) { }]: the consumer that runs
    the generator to its end.  [calls] bounds the calls of [next()]. *)
Fixpoint for_await (calls fuel : nat) (g : generator) : M unit :=
  match calls with
  | O => outOfFuel
  | S calls' =>
      r <- stream_next fuel g ;;
      match r with
      | (Some _, g') => for_await calls' fuel g'
      | (None, _) => ret tt
      end
  end.

(** A consumer that takes up to [k] rows and stops. *)
Fixpoint take (k fuel : nat) (g : generator) : M (list T * generator) :=
  match k with
  | O => ret ([], g)
  | S k' =>
      r <- stream_next fuel g ;;
      match r with
      | (Some row, g') =>
          later <- take k' fuel g' ;;
          ret (row :: fst later, snd later)
      | (None, g') => ret ([], g')
      end
  end.

(** A turn of [stream_loop] from inside its [for ... of]. *)
Definition stream_rest (fuel : nat) (rows : list T) (page : PageResult.t T)
    (count : nat) : M unit :=
  r <- stream_forOf options rows count ;;
  match r with
  | (Return, _) => ret tt
  | (Normal, count) =>
      let nextToken := PageResult.nextToken page in
      if truthy nextToken
      then stream_loop options fuel queryExecutionId rowParser nextToken count
      else ret tt
  end.

End Generator.

Arguments generator : clear implicits.

(** ** Further runs of the mocked pager *)
Module Usage.

(** A throttled first attempt, then the five rows of the truncation
    test, fetched with one retry and a limit of exactly five rows. *)
Definition collect_exactly_five :=
  collect (Scenario.options (Some 5%Z) 1) 5 Scenario.queryExecutionId
    (Scenario.mock [inl "throttled"%string;
                    inr Scenario.first_of_five; inr Scenario.last_of_five]).

(** The three modes with a negative number of retries. *)
Definition stream_negative_retries :=
  stream (Scenario.options None (-1)) 5 Scenario.queryExecutionId Scenario.identity
    (Scenario.mock (map inr [Scenario.three_rows])).

Definition batches_negative_retries :=
  processBatches (Scenario.options None (-1)) 5 Scenario.queryExecutionId
    Scenario.identity Scenario.store (Scenario.mock (map inr [Scenario.three_rows])).

(** Batch processing under a negative limit. *)
Definition batches_negative_limit :=
  processBatches (Scenario.options (Some (-1)%Z) 0) 5 Scenario.queryExecutionId
    Scenario.identity Scenario.store (Scenario.mock (map inr [Scenario.three_rows])).

(** Bulk collection of the pages of the batch test, with its limit. *)
Definition collect_limit_three :=
  collectWith (Scenario.options (Some 3%Z) 0) 5 Scenario.queryExecutionId
    Scenario.identity
    (Scenario.mock (map inr [Scenario.first_batch; Scenario.second_batch])).

(** [new AthenaQueryResultCollector(client)] against a pager whose
    first answer is a failure. *)
Definition failing_first : world string Z (Script.t string Z) (list nat) :=
  Scenario.mock [inl "network error"%string; inr Scenario.ok_page].

Definition collect_by_default :=
  collectWith defaultOptions 1 Scenario.queryExecutionId Scenario.identity
    failing_first.

(** The consumer of the stream tests, [for await (const row of
    collector.stream(...))], on the pages that go past a limit of
    one row. *)
Definition drain_past_limit :=
  for_await (Scenario.options (Some 1%Z) 0) Scenario.queryExecutionId
    Scenario.identity 2 5 SuspendedStart
    (Scenario.mock
       (map inr [Scenario.full_page; Scenario.hollow_page; Scenario.final_page])).

(** A consumer that takes one row of a result set of two pages. *)
Definition take_one :=
  take (Scenario.options None 0) Scenario.queryExecutionId Scenario.identity
    1 5 SuspendedStart
    (Scenario.mock (map inr [Scenario.first_of_five; Scenario.last_of_five])).

End Usage.
Section PageLemmas.

Context {T : Type}.
Implicit Types (p : PageResult.t T) (ps : list (PageResult.t T)).

Lemma total_rows_cons p ps : total_rows (p :: ps) = page_size p + total_rows ps.
Proof. unfold total_rows, all_rows, page_size. cbn. apply length_app. Qed.

Lemma total_rows_app ps ps' : total_rows (ps ++ ps') = total_rows ps + total_rows ps'.
Proof.
  induction ps as [|p ps IH]; [reflexivity|].
  cbn [app]. rewrite !total_rows_cons, IH. lia.
Qed.

Lemma all_rows_app ps ps' : all_rows (ps ++ ps') = all_rows ps ++ all_rows ps'.
Proof. apply flat_map_app. Qed.

Lemma reached_mono maxRows a b :
  a <= b -> reached maxRows b = false -> reached maxRows a = false.
Proof.
  unfold reached. destruct maxRows as [m|]; [|reflexivity].
  intros Hab. destruct (Z.geb_spec (Z.of_nat b) m); [discriminate|].
  intros _. destruct (Z.geb_spec (Z.of_nat a) m); [lia|reflexivity].
Qed.

Lemma last_cons {A : Type} (l : list A) : forall a d, last (a :: l) d = last l a.
Proof.
  induction l as [|b l IH]; intros a d; [reflexivity|].
  change (last (a :: b :: l) d) with (last (b :: l) d).
  now rewrite (IH b d), (IH b a).
Qed.

Lemma token_after_cons tok p ps :
  token_after tok (p :: ps) = token_after (PageResult.nextToken p) ps.
Proof. unfold token_after. cbn [map]. apply last_cons. Qed.

Lemma page_sequence_split ps :
  page_sequence ps = true <->
  exists pre p, ps = pre ++ [p]
                /\ Forall (fun q => has_token q = true) pre
                /\ has_token p = false.
Proof.
  split.
  - induction ps as [|p ps IH]; [discriminate|].
    destruct ps as [|p' ps].
    + cbn. intros H. exists [], p. repeat split; [constructor|].
      now destruct (has_token p).
    + cbn [page_sequence]. intros H. apply andb_true_iff in H as [Hp H].
      destruct (IH H) as (pre & q & E & Hpre & Hq).
      exists (p :: pre), q. rewrite E. repeat split; [|exact Hq].
      constructor; assumption.
  - intros (pre & p & -> & Hpre & Hp).
    induction Hpre as [|q pre Hq Hpre IH]; cbn.
    + now rewrite Hp.
    + destruct (pre ++ [p]) eqn:E; [now destruct pre|].
      rewrite Hq. exact IH.
Qed.

Lemma token_after_app tok ps ps' :
  token_after tok (ps ++ ps') = token_after (token_after tok ps) ps'.
Proof.
  revert tok. induction ps as [|p ps IH]; intros tok; [reflexivity|].
  cbn [app]. rewrite !token_after_cons. apply IH.
Qed.

Lemma page_sequence_tokens pre p post :
  page_sequence (pre ++ p :: post) = true ->
  Forall (fun q => has_token q = true) pre.
Proof.
  induction pre as [|q pre IH]; [constructor|].
  cbn [app page_sequence]. destruct (pre ++ p :: post) eqn:E; [now destruct pre|].
  intros H. apply andb_true_iff in H as [Hq H]. constructor; auto.
Qed.

(** The first page with which the running count reaches the limit. *)
Lemma first_reaching maxRows ps : forall n,
  ps <> [] ->
  reached maxRows (n + total_rows ps) = true ->
  exists pre p post,
    ps = pre ++ p :: post
    /\ (pre <> [] -> reached maxRows (n + total_rows pre) = false)
    /\ reached maxRows (n + total_rows (pre ++ [p])) = true.
Proof.
  induction ps as [|p ps IH]; intros n Hne Hlim; [contradiction|].
  destruct (reached maxRows (n + page_size p)) eqn:Hp.
  - exists [], p, ps. repeat split; [contradiction|].
    cbn [app]. rewrite total_rows_cons. cbn. now rewrite Nat.add_0_r.
  - rewrite total_rows_cons, Nat.add_assoc in Hlim.
    destruct ps as [|p' ps].
    { cbn in Hlim. rewrite Nat.add_0_r in Hlim. congruence. }
    destruct (IH (n + page_size p) ltac:(discriminate) Hlim)
      as (pre & q & post & E & Hpre & Hq).
    exists (p :: pre), q, post. rewrite E. repeat split.
    + intros _. rewrite total_rows_cons, Nat.add_assoc.
      destruct pre as [|q' pre]; [|apply Hpre; discriminate].
      cbn. now rewrite Nat.add_0_r.
    + cbn [app]. rewrite total_rows_cons, Nat.add_assoc. exact Hq.
Qed.

Lemma slice_firstn {A : Type} (l : list A) (r : Z) :
  (0 <= r)%Z -> slice l 0 r = firstn (Z.to_nat r) l.
Proof.
  intros Hr. unfold slice.
  destruct (Z.ltb_spec r 0); [lia|]. cbn [Z.ltb Z.compare].
  rewrite (Z.min_l 0) by lia. cbn [Z.to_nat skipn]. rewrite Z.sub_0_r.
  destruct (Z.le_ge_cases r (Z.of_nat (length l))).
  - now rewrite Z.min_l.
  - rewrite Z.min_r, Nat2Z.id, firstn_all by assumption.
    symmetry. apply firstn_all2. lia.
Qed.

Lemma limit_all maxRows (l : list T) :
  reached maxRows (length l) = false -> limit maxRows l = l.
Proof.
  unfold reached, limit. destruct maxRows as [m|]; [|reflexivity].
  destruct (Z.geb_spec (Z.of_nat (length l)) m); [discriminate|].
  intros _. apply firstn_all2. lia.
Qed.

Lemma limit_allowance maxRows (l : list T) :
  limit maxRows l = firstn (allowance maxRows 0 (length l)) l.
Proof.
  unfold limit, allowance. destruct maxRows as [m|]; [|now rewrite firstn_all].
  cbn [Z.of_nat]. rewrite Z.sub_0_r.
  destruct (Nat.le_ge_cases (Z.to_nat m) (length l)).
  - now rewrite Nat.min_r.
  - rewrite Nat.min_l, firstn_all by assumption. now apply firstn_all2.
Qed.

Lemma empty_pages_rows ps :
  Forall (fun e => has_token e = true /\ page_size e = 0) ps ->
  all_rows ps = [] /\ Forall (fun e => has_token e = true) ps.
Proof.
  induction 1 as [|e ps [He Hz] _ [IH1 IH2]]; [split; constructor|].
  split; [|constructor; assumption].
  cbn [all_rows flat_map]. fold (all_rows ps). rewrite IH1.
  unfold page_size in Hz. apply length_zero_iff_nil in Hz. now rewrite Hz.
Qed.

End PageLemmas.

Section TraceLemmas.

Context {Err T C : Type}.
Variable qid : string.
Variable options : CollectorOptions Err T C.
Implicit Types (p : PageResult.t T) (ps : list (PageResult.t T)).

Lemma collect_trace_app ps ps' : forall tok n,
  collect_trace qid options tok n (ps ++ ps')
  = collect_trace qid options tok n ps
    ++ collect_trace qid options (token_after tok ps) (n + total_rows ps) ps'.
Proof.
  induction ps as [|p ps IH]; intros tok n.
  - cbn. now rewrite Nat.add_0_r.
  - cbn [app collect_trace]. rewrite IH, token_after_cons, total_rows_cons.
    rewrite <- !app_assoc, Nat.add_assoc. reflexivity.
Qed.

Implicit Types tr : list (event Err T).

Lemma fetch_calls_app tr tr' : fetch_calls (tr ++ tr') = fetch_calls tr + fetch_calls tr'.
Proof. unfold fetch_calls. now rewrite filter_app, length_app. Qed.

Lemma fetched_pages_app tr tr' :
  fetched_pages (tr ++ tr') = fetched_pages tr ++ fetched_pages tr'.
Proof. apply flat_map_app. Qed.

Lemma onPage_calls_app tr tr' :
  onPage_calls (tr ++ tr') = onPage_calls tr ++ onPage_calls tr'.
Proof. apply flat_map_app. Qed.

Lemma batch_calls_app tr tr' :
  batch_calls (tr ++ tr') = batch_calls tr ++ batch_calls tr'.
Proof. apply flat_map_app. Qed.

Lemma yielded_app tr tr' : yielded (tr ++ tr') = yielded tr ++ yielded tr'.
Proof. apply flat_map_app. Qed.

Lemma collect_trace_fetch_calls ps : forall tok n,
  fetch_calls (collect_trace qid options tok n ps) = length ps.
Proof.
  induction ps as [|p ps IH]; intros tok n; [reflexivity|].
  cbn [collect_trace]. change (?e :: ?l ++ ?l') with ([e] ++ l ++ l').
  rewrite !fetch_calls_app, IH. unfold onPage_events.
  destruct (onPage options); reflexivity.
Qed.

Lemma collect_trace_fetched_pages ps : forall tok n,
  fetched_pages (collect_trace qid options tok n ps) = ps.
Proof.
  induction ps as [|p ps IH]; intros tok n; [reflexivity|].
  cbn [collect_trace]. change (?e :: ?l ++ ?l') with ([e] ++ l ++ l').
  rewrite !fetched_pages_app, IH. unfold onPage_events.
  destruct (onPage options); reflexivity.
Qed.

Lemma collect_trace_onPage_calls ps : forall tok n,
  onPage_calls (collect_trace qid options tok n ps)
  = match onPage options with Some _ => running n ps | None => [] end.
Proof.
  induction ps as [|p ps IH]; intros tok n.
  - destruct (onPage options); reflexivity.
  - cbn [collect_trace]. change (?e :: ?l ++ ?l') with ([e] ++ l ++ l').
    rewrite !onPage_calls_app, IH. unfold onPage_events.
    destruct (onPage options); reflexivity.
Qed.

Lemma yielded_fetch q tok r tr : yielded (EvFetch q tok r :: tr) = yielded tr.
Proof. reflexivity. Qed.

Lemma yielded_map_EvYield (rows : list T) : yielded (map (@EvYield Err T) rows) = rows.
Proof. induction rows as [|r rows IH]; [reflexivity|]. cbn. now f_equal. Qed.

Lemma fetch_calls_map_EvYield (rows : list T) :
  fetch_calls (map (@EvYield Err T) rows) = 0.
Proof. induction rows as [|r rows IH]; [reflexivity|]. exact IH. Qed.

Lemma fetched_pages_map_EvYield (rows : list T) :
  fetched_pages (map (@EvYield Err T) rows) = [].
Proof. induction rows as [|r rows IH]; [reflexivity|]. exact IH. Qed.

Lemma stream_trace_app ps ps' : forall tok,
  stream_trace (Err := Err) qid tok (ps ++ ps')
  = stream_trace qid tok ps ++ stream_trace qid (token_after tok ps) ps'.
Proof.
  induction ps as [|p ps IH]; intros tok; [reflexivity|].
  cbn [app stream_trace]. rewrite IH, token_after_cons, <- !app_assoc. reflexivity.
Qed.

Lemma stream_trace_yielded ps : forall tok,
  yielded (stream_trace (Err := Err) qid tok ps) = all_rows ps.
Proof.
  induction ps as [|p ps IH]; intros tok; [reflexivity|].
  cbn [stream_trace]. change (?e :: ?l ++ ?l') with ([e] ++ l ++ l').
  rewrite !yielded_app, IH, yielded_map_EvYield. reflexivity.
Qed.

Lemma stream_trace_fetched_pages ps : forall tok,
  fetched_pages (stream_trace (Err := Err) qid tok ps) = ps.
Proof.
  induction ps as [|p ps IH]; intros tok; [reflexivity|].
  cbn [stream_trace]. change (?e :: ?l ++ ?l') with ([e] ++ l ++ l').
  rewrite !fetched_pages_app, IH, fetched_pages_map_EvYield. reflexivity.
Qed.

Lemma stream_trace_fetch_calls ps : forall tok,
  fetch_calls (stream_trace (Err := Err) qid tok ps) = length ps.
Proof.
  induction ps as [|p ps IH]; intros tok; [reflexivity|].
  cbn [stream_trace]. change (?e :: ?l ++ ?l') with ([e] ++ l ++ l').
  rewrite !fetch_calls_app, IH, fetch_calls_map_EvYield. reflexivity.
Qed.



Lemma batch_trace_fetch_calls ps : forall tok i,
  fetch_calls (batch_trace (Err := Err) qid tok i ps) = length ps.
Proof.
  induction ps as [|p ps IH]; intros tok i; [reflexivity|].
  cbn [batch_trace]. change (?e :: ?e' :: ?l) with ([e; e'] ++ l).
  rewrite fetch_calls_app, IH. reflexivity.
Qed.


Lemma fetched_pages_quiet tr : forallb quiet tr = true -> fetched_pages tr = [].
Proof.
  induction tr as [|e tr IH]; [reflexivity|]. cbn [forallb]. intros H.
  apply andb_true_iff in H as [He H].
  destruct e as [| ? ? [|] | | | |]; cbn in He |- *; try discriminate; auto.
Qed.

Lemma batch_calls_quiet tr : forallb quiet tr = true -> batch_calls tr = [].
Proof.
  induction tr as [|e tr IH]; [reflexivity|]. cbn [forallb]. intros H.
  apply andb_true_iff in H as [He H].
  destruct e as [| ? ? [|] | | | |]; cbn in He |- *; try discriminate; auto.
Qed.

Lemma fetched_pages_calm tr : forallb calm tr = true -> fetched_pages tr = [].
Proof.
  induction tr as [|e tr IH]; [reflexivity|]. cbn [forallb]. intros H.
  apply andb_true_iff in H as [He H].
  destruct e as [| ? ? [|] | | | |]; cbn in He |- *; try discriminate; auto.
Qed.

(** The pages fetched in one turn and the turns after it. *)
Lemma fetched_pages_turn (fails tail : list (event Err T)) q tok page :
  forallb quiet fails = true ->
  fetched_pages (fails ++ EvFetch q tok (inr page) :: tail)
  = page :: fetched_pages tail.
Proof.
  intros Hq. rewrite fetched_pages_app, (fetched_pages_quiet _ Hq). reflexivity.
Qed.

Lemma batch_calls_turn (fails tail : list (event Err T)) q tok page rows i r :
  forallb quiet fails = true ->
  batch_calls (fails ++ EvFetch q tok (inr page) :: EvBatch rows i r :: tail)
  = (rows, i) :: batch_calls tail.
Proof.
  intros Hq. rewrite batch_calls_app, (batch_calls_quiet _ Hq). reflexivity.
Qed.

End TraceLemmas.

(** Both sides are the same trace up to the bracketing of [++]. *)
Ltac trace_eq :=
  repeat (rewrite <- app_assoc || rewrite <- app_comm_cons); reflexivity.

Section AnyPager.

Context {Err Raw T P C : Type}.
Context {pagerOps : Pager Err Raw T P}.
Variable options : CollectorOptions Err T C.
Variable qid : string.
Variable f : Raw -> T.

Implicit Types w : world Err T P C.

Lemma bind_run {A B : Type} (m : M A) (k : A -> M B) w :
  bind m k w =
  match m w with
  | (Returned a, w') => k a w'
  | (Threw v, w') => (Threw v, w')
  | (OutOfFuel, w') => (OutOfFuel, w')
  end.
Proof. cbn. destruct (m w) as [[a|v|] w']; reflexivity. Qed.

(** One turn of the retry loop. *)
Lemma fetch_for_S tok n a last w :
  fetchPageWithRetry_for options (S n) a last qid f tok w
  = let (r, p') := fetchPageWith qid f tok (pager w) in
    let w1 := World p' (user w) (trace w ++ [EvFetch qid tok r]) in
    match r with
    | inr page => (Returned page, w1)
    | inl e =>
        fetchPageWithRetry_for options n (a + 1)%Z (Some e) qid f tok
          (World p' (user w)
             (trace w1 ++ if (a <? retryCount options)%Z
                          then [EvSleep (retryDelayMs options)] else []))
    end.
Proof.
  cbn. unfold pager_fetchPageWith.
  destruct (fetchPageWith qid f tok (pager w)) as [[e|page] p']; [|reflexivity].
  destruct (a <? retryCount options)%Z; cbn; rewrite ?app_nil_r; reflexivity.
Qed.

(** What the retried fetch leaves in the trace: failed attempts and
    waits, closed by the successful fetch if there is one. *)
Lemma fetch_for_trace tok n : forall a last w,
  let run := fetchPageWithRetry_for options n a last qid f tok w in
  exists fails,
    forallb quiet fails = true
    /\ user (snd run) = user w
    /\ match fst run with
       | Returned page =>
           trace (snd run) = trace w ++ fails ++ [EvFetch qid tok (inr page)]
       | Threw v => trace (snd run) = trace w ++ fails
       | OutOfFuel => False
       end
    /\ (1 <= n -> exists o l, trace (snd run) = trace w ++ EvFetch qid tok o :: l).
Proof.
  induction n as [|n IH]; intros a last w run; subst run.
  - exists []. cbn. rewrite app_nil_r. repeat split. lia.
  - rewrite fetch_for_S.
    destruct (fetchPageWith qid f tok (pager w)) as [[e|page] p']; cbv zeta.
    + set (pre := if (a <? retryCount options)%Z
                  then [EvSleep (retryDelayMs options)] else []).
      assert (Hpre : forallb (@quiet Err T) pre = true)
        by (unfold pre; destruct (a <? retryCount options)%Z; reflexivity).
      match goal with
      | |- context [fetchPageWithRetry_for options n ?a' ?l' qid f tok ?w'] =>
          destruct (IH a' l' w') as (fails & Hq & Hu & Ht & _);
          set (run := fetchPageWithRetry_for options n a' l' qid f tok w') in *
      end.
      cbn [trace user] in *.
      exists (EvFetch qid tok (inl e) :: pre ++ fails).
      split; [cbn; rewrite forallb_app, Hpre, Hq; reflexivity|].
      split; [exact Hu|].
      assert (Hext : match fst run with
                     | OutOfFuel => False
                     | _ => exists l, trace (snd run)
                                      = trace w ++ EvFetch qid tok (inl e) :: pre ++ l
                     end).
      { destruct (fst run); [| |exact Ht]; eexists; rewrite Ht; trace_eq. }
      split.
      * destruct (fst run); [| |exact Ht]; rewrite Ht; trace_eq.
      * intros _. destruct (fst run); [| |contradiction];
          destruct Hext as [l El]; eexists _, _; exact El.
    + exists []. cbn. repeat split. intros _. eexists _, _. reflexivity.
Qed.

Lemma fetch_trace tok w :
  let run := fetchPageWithRetry options qid f tok w in
  exists fails,
    forallb quiet fails = true
    /\ match fst run with
       | Returned page =>
           trace (snd run) = trace w ++ fails ++ [EvFetch qid tok (inr page)]
       | Threw v => trace (snd run) = trace w ++ fails
       | OutOfFuel => False
       end
    /\ ((0 <= retryCount options)%Z ->
        exists o l, trace (snd run) = trace w ++ EvFetch qid tok o :: l).
Proof.
  destruct (fetch_for_trace tok (Z.to_nat (retryCount options + 1)) 0%Z None w)
    as (fails & Hq & _ & Ht & Hfirst).
  exists fails. repeat split; try assumption.
  intros Hr. apply Hfirst. lia.
Qed.

(** A callback invocation either completes or raises; either way it
    leaves one event. *)
Lemma call_general {A : Type} (ev : A -> nat -> outcome Err unit -> event Err T)
    (g : callback Err C A) a n w :
  (forall r, is_fetch (ev a n r) = false) ->
  (forall e, callback_threw (ev a n (inl e)) = Some e) ->
  (forall u, callback_threw (ev a n (inr u)) = None) ->
  let run := call ev g a n w in
  exists r,
    trace (snd run) = trace w ++ [ev a n r]
    /\ ((fst run = Returned tt /\ calm (ev a n r) = true)
        \/ (exists error,
              fst run = Threw (Some error)
              /\ callback_threw (ev a n r) = Some error)).
Proof.
  intros Hf Hl Hr. unfold call. destruct (g a n (user w)) as [[error|u] c']; cbn.
  - exists (inl error). split; [reflexivity|]. right. eexists. split; [reflexivity|].
    apply Hl.
  - exists (inr u). split; [reflexivity|]. left. split; [reflexivity|].
    unfold calm. now rewrite Hf, Hr.
Qed.

Lemma call_onPage_general page n w :
  let run := call_onPage options page n w in
  (fst run = Returned tt
   /\ exists mid, trace (snd run) = trace w ++ mid /\ forallb calm mid = true)
  \/ (exists e0 error,
        fst run = Threw (Some error)
        /\ trace (snd run) = trace w ++ [e0]
        /\ callback_threw e0 = Some error).
Proof.
  unfold call_onPage. destruct (onPage options) as [g|].
  - destruct (call_general (@EvOnPage Err T) g page n w)
      as (r & Ht & [[E Hc]|(error & E & Hc)]); try reflexivity.
    + left. split; [exact E|]. eexists. split; [exact Ht|]. cbn [forallb].
      now rewrite Hc.
    + right. eexists _, _. eauto.
  - left. split; [reflexivity|]. exists []. cbn. now rewrite app_nil_r.
Qed.

(** The first event of a turn is a fetch. *)
Lemma turn_starts_with_fetch w w1 tok (fails : list (event Err T)) page :
  trace w1 = trace w ++ fails ++ [EvFetch qid tok (inr page)] ->
  (exists o l, trace w1 = trace w ++ EvFetch qid tok o :: l) ->
  forall tail,
    exists o l, fails ++ EvFetch qid tok (inr page) :: tail = EvFetch qid tok o :: l.
Proof.
  intros Ht (o & l & E) tail. rewrite Ht in E. apply app_inv_head in E.
  destruct fails as [|e0 fails'].
  - cbn. eauto.
  - cbn in E |- *. injection E as -> _. eauto.
Qed.

Lemma failed_turn_starts_with_fetch w w1 tok (fails : list (event Err T)) :
  trace w1 = trace w ++ fails ->
  (exists o l, trace w1 = trace w ++ EvFetch qid tok o :: l) ->
  exists o l, fails = EvFetch qid tok o :: l.
Proof. intros Ht (o & l & E). rewrite Ht in E. apply app_inv_head in E. eauto. Qed.

(** What is known of a run of the bulk-collection loop that starts
    with [pc] pages counted: its trace has the shape of a pagination
    run, a result counts one page per fetched page, and the run starts
    with a fetch. *)
Local Abbreviation collect_facts w rows tok pc tr0 fuel run :=
  (exists delta,
      trace (snd run) = trace w ++ delta
      /\ run_shape delta (fst run)
      /\ (forall res, fst run = Returned res ->
            fetched_pages delta <> []
            /\ CollectResult.pageCount res = pc + length (fetched_pages delta)
            /\ (maxRows options = None ->
                CollectResult.rows res = rows ++ all_rows (fetched_pages delta)
                /\ CollectResult.truncated res = tr0))
      /\ (1 <= fuel -> (0 <= retryCount options)%Z ->
          exists o l, delta = EvFetch qid tok o :: l)).

Lemma collectWith_loop_general fuel : forall rows tok pc tr0 w,
  collect_facts w rows tok pc tr0 fuel
    (collectWith_loop options fuel qid f rows tok pc tr0 w).
Proof.
  induction fuel as [|fuel IH]; intros rows tok pc tr0 w.
  - exists []. cbn. rewrite app_nil_r.
    split; [reflexivity|]. split; [constructor|]. split; [discriminate|lia].
  - cbn [collectWith_loop]. rewrite bind_run.
    destruct (fetch_trace tok w) as (fails & Hq & Ht & Hfirst).
    destruct (fetchPageWithRetry options qid f tok w) as [[page|v|] w1];
      cbn [fst snd] in *; [| |contradiction].
    2: { exists fails. split; [exact Ht|]. split; [now constructor|].
         split; [discriminate|]. intros _ Hr.
         eapply failed_turn_starts_with_fetch; [exact Ht|exact (Hfirst Hr)]. }
    assert (Hstart : forall tail,
               1 <= S fuel -> (0 <= retryCount options)%Z ->
               exists o l,
                 fails ++ EvFetch qid tok (inr page) :: tail = EvFetch qid tok o :: l).
    { intros tail _ Hr.
      eapply turn_starts_with_fetch; [exact Ht|exact (Hfirst Hr)]. }
    assert (Hdone : forall rows' t,
               maxRows options <> None ->
               collect_facts w rows tok pc tr0 (S fuel)
                 (collectWith_return (C := C) (P := P) rows' (S pc) t w1)).
    { intros rows' t Hlimit. cbn. exists (fails ++ [EvFetch qid tok (inr page)]).
      rewrite fetched_pages_turn by exact Hq.
      split; [rewrite Ht; trace_eq|]. split; [now apply shape_last|].
      split; [|apply Hstart].
      intros res [= <-]. split; [discriminate|]. split; [cbn; lia|].
      intros Hnone. contradiction. }
    assert (Hcont :
              collect_facts w rows tok pc tr0 (S fuel)
                ((call_onPage options page (length (rows ++ PageResult.rows page)) ;;
                  if truthy (PageResult.nextToken page)
                  then collectWith_loop options fuel qid f
                         (rows ++ PageResult.rows page)
                         (PageResult.nextToken page) (S pc) tr0
                  else collectWith_return (rows ++ PageResult.rows page) (S pc) tr0)
                   w1)).
    { rewrite bind_run.
      destruct (call_onPage_general page (length (rows ++ PageResult.rows page)) w1)
        as [[E (mid & Hmid & Hcalm)]|(e0 & error & E & Hmid & Hthrew)].
      - destruct (call_onPage options page _ w1) as [[[]|v|] w2]; cbn [fst snd] in *;
          try discriminate.
        destruct (truthy (PageResult.nextToken page)) eqn:Htok.
        + destruct (IH (rows ++ PageResult.rows page) (PageResult.nextToken page)
                      (S pc) tr0 w2) as (rest & Hrest & Hshape & Hcount & _).
          exists (fails ++ EvFetch qid tok (inr page) :: mid ++ rest).
          rewrite fetched_pages_turn, fetched_pages_app, (fetched_pages_calm mid Hcalm)
            by exact Hq.
          cbn [app all_rows flat_map]. fold (all_rows (fetched_pages rest)).
          split; [rewrite Hrest, Hmid, Ht; trace_eq|].
          split; [now apply shape_next|]. split; [|apply Hstart].
          intros res Hres. destruct (Hcount res Hres) as (_ & Hpc & Hrows).
          split; [discriminate|]. split; [rewrite Hpc; cbn [length]; lia|].
          intros Hnone. destruct (Hrows Hnone) as [-> ->].
          now rewrite app_assoc.
        + cbn [collectWith_return ret Monad_M fst snd].
          exists (fails ++ EvFetch qid tok (inr page) :: mid).
          rewrite fetched_pages_turn, (fetched_pages_calm mid Hcalm) by exact Hq.
          split; [rewrite Hmid, Ht; trace_eq|].
          split; [now apply shape_last|]. split; [|apply Hstart].
          intros res [= <-]. split; [discriminate|]. split; [cbn; lia|].
          intros _. cbn. now rewrite app_nil_r.
      - destruct (call_onPage options page _ w1) as [[[]|v|] w2]; cbn [fst snd] in *;
          try discriminate.
        injection E as ->.
        exists (fails ++ EvFetch qid tok (inr page) :: [e0]).
        split; [rewrite Hmid, Ht; trace_eq|].
        split; [now apply shape_callback_threw|]. split; [discriminate|apply Hstart]. }
    destruct (maxRows options) as [m|]; [|exact Hcont].
    destruct (_ >=? _)%Z; [apply Hdone; discriminate|exact Hcont].
Qed.

Lemma allowance_step maxRows count len :
  reached maxRows count = false ->
  allowance maxRows count (S len) = S (allowance maxRows (S count) len).
Proof.
  unfold reached, allowance. destruct maxRows as [m|]; [|reflexivity].
  destruct (Z.geb_spec (Z.of_nat count) m); [discriminate|]. intros _. lia.
Qed.

Lemma allowance_reached maxRows count len :
  reached maxRows count = true -> allowance maxRows count len = 0.
Proof.
  unfold reached, allowance. destruct maxRows as [m|]; [|discriminate].
  destruct (Z.geb_spec (Z.of_nat count) m); [|discriminate]. intros _. lia.
Qed.

(** The [for ... of] over the rows of a page yields the rows the limit
    still allows, and returns from the generator when it allows fewer
    than the page has. *)
Lemma stream_forOf_run rows : forall count (pg : P) (c : C) tr,
  stream_forOf options rows count (World pg c tr)
  = let k := allowance (maxRows options) count (length rows) in
    (Returned (if k <? length rows then Return else Normal, count + k),
     World pg c (tr ++ map (@EvYield Err T) (firstn k rows))).
Proof.
  induction rows as [|row rows IH]; intros count pg c tr.
  - cbn [stream_forOf length]. cbv zeta.
    replace (allowance (maxRows options) count 0) with 0
      by (unfold allowance; destruct (maxRows options); lia).
    cbn. now rewrite app_nil_r, Nat.add_0_r.
  - cbn [stream_forOf length]. destruct (reached (maxRows options) count) eqn:Hr.
    + cbv zeta. rewrite allowance_reached by assumption. cbn.
      now rewrite app_nil_r, Nat.add_0_r.
    + rewrite bind_run. cbn [emit]. rewrite IH. cbv zeta.
      rewrite allowance_step by assumption. cbn [firstn map Nat.ltb Nat.leb].
      rewrite <- app_assoc, Nat.add_succ_r. reflexivity.
Qed.

Lemma calm_yields (rows : list T) : forallb calm (map (@EvYield Err T) rows) = true.
Proof. induction rows as [|r rows IH]; [reflexivity|exact IH]. Qed.

(** The streaming loop: its trace has the shape of a pagination run
    and starts with a fetch. *)
Lemma stream_loop_general fuel : forall tok count w,
  let run := stream_loop options fuel qid f tok count w in
  exists delta,
    trace (snd run) = trace w ++ delta
    /\ run_shape delta (fst run)
    /\ (1 <= fuel -> (0 <= retryCount options)%Z ->
        exists o l, delta = EvFetch qid tok o :: l).
Proof.
  induction fuel as [|fuel IH]; intros tok count w run; subst run.
  - exists []. cbn. rewrite app_nil_r. repeat split; try constructor. lia.
  - cbn [stream_loop]. rewrite bind_run.
    destruct (fetch_trace tok w) as (fails & Hq & Ht & Hfirst).
    destruct (fetchPageWithRetry options qid f tok w) as [[page|v|] w1];
      cbn [fst snd] in *; [| |contradiction].
    2: { exists fails. repeat split; try assumption.
         - now constructor.
         - intros _ Hr. destruct (Hfirst Hr) as (o & l & E). rewrite Ht in E.
           apply app_inv_head in E. eauto. }
    assert (Hstart : (0 <= retryCount options)%Z -> forall tail,
               exists o l, fails ++ EvFetch qid tok (inr page) :: tail
                           = EvFetch qid tok o :: l).
    { intros Hr tail. destruct (Hfirst Hr) as (o & l & E). rewrite Ht in E.
      apply app_inv_head in E. destruct fails as [|e0 fails'].
      - cbn. eauto.
      - cbn in E |- *. injection E as -> _. eauto. }
    rewrite bind_run. destruct w1 as [pg c tr1]. rewrite stream_forOf_run.
    cbv zeta. cbn [trace] in Ht.
    set (mid := map (@EvYield Err T) _).
    assert (Hcalm : forallb calm mid = true) by apply calm_yields.
    destruct (_ <? _).
    + exists (fails ++ EvFetch qid tok (inr page) :: mid). cbn [fst snd trace].
      repeat split.
      * rewrite Ht. trace_eq.
      * now apply shape_last.
      * intros _ Hr. apply (Hstart Hr).
    + destruct (truthy (PageResult.nextToken page)) eqn:Htok.
      * match goal with
        | |- context [stream_loop options fuel qid f ?t ?n ?w'] =>
            destruct (IH t n w') as (rest & Hrest & Hshape & _)
        end.
        exists (fails ++ EvFetch qid tok (inr page) :: mid ++ rest).
        repeat split.
        -- rewrite Hrest. cbn [trace]. rewrite Ht. trace_eq.
        -- now apply shape_next.
        -- intros _ Hr. apply (Hstart Hr).
      * exists (fails ++ EvFetch qid tok (inr page) :: mid). cbn [fst snd trace].
        repeat split.
        -- rewrite Ht. trace_eq.
        -- now apply shape_last.
        -- intros _ Hr. apply (Hstart Hr).
Qed.

(** A call of [batchProcessor] either completes, leaving its array
    as it likes, or raises; either way it leaves one event. *)
Lemma call_batchProcessor_general (bp : processor Err T C) rows n w :
  let run := call_batchProcessor bp rows n w in
  exists r,
    trace (snd run) = trace w ++ [EvBatch rows n r]
    /\ ((exists rows', fst run = Returned rows' /\ r = inr rows')
        \/ (exists error, fst run = Threw (Some error) /\ r = inl error)).
Proof.
  cbv zeta. unfold call_batchProcessor.
  destruct (bp rows n (user w)) as [[error|rows'] c']; cbn [fst snd trace].
  - exists (inl error). split; [reflexivity|]. right. now exists error.
  - exists (inr rows'). split; [reflexivity|]. left. now exists rows'.
Qed.

Lemma call_batchProcessor_kept (bp : processor Err T C) rows n w rows' w' :
  keeps_length bp ->
  call_batchProcessor bp rows n w = (Returned rows', w') ->
  length rows' = length rows.
Proof.
  intros Hk. unfold call_batchProcessor.
  pose proof (Hk rows n (user w) rows') as Hlen.
  destruct (bp rows n (user w)) as [[e|l] c']; [discriminate|].
  intros [= -> _]. now apply Hlen.
Qed.

Lemma counted_app (tr tr' : list (event Err T)) :
  counted (tr ++ tr') = counted tr + counted tr'.
Proof. unfold counted. now rewrite flat_map_app, length_app. Qed.

Lemma counted_quiet (tr : list (event Err T)) :
  forallb quiet tr = true -> counted tr = 0.
Proof.
  induction tr as [|e tr IH]; [reflexivity|]. cbn [forallb]. intros H.
  apply andb_true_iff in H as [He H]. change (e :: tr) with ([e] ++ tr).
  rewrite counted_app, (IH H).
  destruct e as [| ? ? [|] | | | |]; cbn in He |- *; try discriminate; reflexivity.
Qed.

(** What one turn of the batch loop counts and the turns after it. *)
Lemma counted_turn (fails tail : list (event Err T)) q tok page rows i r :
  forallb quiet fails = true ->
  counted (fails ++ EvFetch q tok (inr page) :: EvBatch rows i r :: tail)
  = match r with inr rows' => length rows' | inl _ => 0 end + counted tail.
Proof.
  intros Hq. rewrite counted_app, (counted_quiet _ Hq).
  change (EvFetch q tok (inr page) :: EvBatch rows i r :: tail)
    with ([EvFetch q tok (inr page); EvBatch rows i r] ++ tail).
  rewrite counted_app. destruct r as [e|rows']; cbn; [reflexivity|].
  now rewrite app_nil_r.
Qed.

Lemma halts_turn (fails tail : list (event Err T)) q tok page rows i r maxRows count :
  forallb quiet fails = true ->
  match r with
  | inr rows' =>
      if reached maxRows (count + length rows')
      then tail = []
      else halts maxRows (count + length rows') tail
  | inl _ => halts maxRows count tail
  end ->
  halts maxRows count (fails ++ EvFetch q tok (inr page) :: EvBatch rows i r :: tail).
Proof.
  intros Hq H. induction fails as [|e fails IH].
  - cbn [app halts]. destruct r; exact H.
  - cbn [forallb] in Hq. apply andb_true_iff in Hq as [He Hq].
    destruct e as [| ? ? [|] | | | |]; cbn in He; try discriminate;
      cbn [app halts]; now apply IH.
Qed.

Lemma halts_quiet (fails : list (event Err T)) maxRows count :
  forallb quiet fails = true -> halts maxRows count fails.
Proof.
  induction fails as [|e fails IH]; [constructor|]. cbn [forallb]. intros Hq.
  apply andb_true_iff in Hq as [He Hq].
  destruct e as [| ? ? [|] | | | |]; cbn in He; try discriminate;
    cbn [halts]; now apply IH.
Qed.

(** What is known of a run of the batch loop that starts with [pc]
    pages and [total] rows counted: its trace has the shape of a
    pagination run; every fetched page was handed to the callback,
    whole and with its index; the run ends with the call with which
    its count reaches the limit; a result counts the fetched pages
    and the rows their arrays were left with, which are the rows of
    the pages when [batchProcessor] keeps the lengths, and it is
    returned with the limit reached or after a page without token;
    and the run starts with a fetch. *)
Local Abbreviation batch_facts bp w tok pc total fuel run :=
  (exists delta,
      trace (snd run) = trace w ++ delta
      /\ run_shape delta (fst run)
      /\ batch_calls delta
         = combine (map (@PageResult.rows T) (fetched_pages delta))
                   (seq pc (length (fetched_pages delta)))
      /\ halts (maxRows options) total delta
      /\ (forall res, fst run = Returned res ->
            fetched_pages delta <> []
            /\ BatchResult.pageCount res = pc + length (fetched_pages delta)
            /\ BatchResult.totalRows res = total + counted delta
            /\ (keeps_length bp ->
                counted delta = total_rows (fetched_pages delta))
            /\ (reached (maxRows options) (total + counted delta) = true
                \/ exists ps page,
                     fetched_pages delta = ps ++ [page]
                     /\ has_token page = false))
      /\ (1 <= fuel -> (0 <= retryCount options)%Z ->
          exists o l, delta = EvFetch qid tok o :: l)).

Lemma processBatches_loop_general bp fuel : forall tok pc total w,
  batch_facts bp w tok pc total fuel
    (processBatches_loop options fuel qid f bp tok pc total w).
Proof.
  induction fuel as [|fuel IH]; intros tok pc total w.
  - exists []. cbn. rewrite app_nil_r.
    split; [reflexivity|]. split; [constructor|]. split; [reflexivity|].
    split; [exact I|]. split; [discriminate|lia].
  - cbn [processBatches_loop]. rewrite bind_run.
    destruct (fetch_trace tok w) as (fails & Hq & Ht & Hfirst).
    destruct (fetchPageWithRetry options qid f tok w) as [[page|v|] w1];
      cbn [fst snd] in *; [| |contradiction].
    2: { exists fails.
         rewrite (fetched_pages_quiet fails Hq), (batch_calls_quiet fails Hq).
         split; [exact Ht|]. split; [now constructor|]. split; [reflexivity|].
         split; [now apply halts_quiet|].
         split; [discriminate|]. intros _ Hr.
         eapply failed_turn_starts_with_fetch; [exact Ht|exact (Hfirst Hr)]. }
    assert (Hstart : forall tail,
               1 <= S fuel -> (0 <= retryCount options)%Z ->
               exists o l,
                 fails ++ EvFetch qid tok (inr page) :: tail = EvFetch qid tok o :: l).
    { intros tail _ Hr.
      eapply turn_starts_with_fetch; [exact Ht|exact (Hfirst Hr)]. }
    rewrite bind_run.
    destruct (call_batchProcessor_general bp (PageResult.rows page) pc w1)
      as (r & Hmid & [(rows' & E & ->)|(error & E & ->)]);
      destruct (call_batchProcessor bp (PageResult.rows page) pc w1)
        as [[left|v|] w2] eqn:Ecall;
      cbn [fst snd] in *; try discriminate.
    + injection E as ->.
      assert (Hkept : keeps_length bp ->
                      length rows' = length (PageResult.rows page)).
      { intros Hk. unfold call_batchProcessor in Ecall.
        pose proof (Hk (PageResult.rows page) pc (user w1) rows') as Hlen.
        destruct (bp (PageResult.rows page) pc (user w1)) as [[e|l] c'];
          [discriminate|].
        injection Ecall as -> _. now apply Hlen. }
      assert (Hmidc : forallb calm
                        [@EvBatch Err T (PageResult.rows page) pc (inr rows')]
                      = true) by reflexivity.
      assert (Hlast : reached (maxRows options) (total + length rows') = true
                      \/ truthy (PageResult.nextToken page) = false ->
                      forall res : BatchResult.t,
                        res = BatchResult.mk (total + length rows') (S pc) ->
                        batch_facts bp w tok pc total (S fuel)
                          (@Returned Err _ res, w2)).
      { intros Hwhy res ->.
        exists (fails ++ EvFetch qid tok (inr page)
                  :: [EvBatch (PageResult.rows page) pc (inr rows')]).
        cbn [fst snd].
        rewrite fetched_pages_turn, batch_calls_turn, counted_turn by exact Hq.
        split; [rewrite Hmid, Ht; trace_eq|]. split; [now apply shape_last|].
        split; [reflexivity|].
        split; [apply halts_turn; [exact Hq|];
                now destruct (reached (maxRows options) (total + length rows'))|].
        split; [|apply Hstart].
        intros res [= <-]. split; [discriminate|]. split; [cbn; lia|].
        cbn [BatchResult.totalRows counted flat_map length]. split; [lia|].
        split; [intros Hk; rewrite total_rows_cons, (Hkept Hk);
                unfold page_size, total_rows; cbn; lia|].
        rewrite Nat.add_0_r.
        destruct Hwhy as [Hwhy|Hwhy]; [now left|].
        right. exists [], page. now split. }
      destruct (reached (maxRows options) (total + length rows')) eqn:Hreached;
        [apply Hlast; [now left|reflexivity]|].
      destruct (truthy (PageResult.nextToken page)) eqn:Htok;
        [|apply Hlast; [now right|reflexivity]].
      match goal with
      | |- context [processBatches_loop options fuel qid f bp ?t ?n ?m ?w'] =>
          destruct (IH t n m w')
            as (rest & Hrest & Hshape & Hcalls & Hhalts & Hcount & _)
      end.
      exists (fails ++ EvFetch qid tok (inr page)
                :: [EvBatch (PageResult.rows page) pc (inr rows')] ++ rest).
      cbn [app].
      rewrite fetched_pages_turn, batch_calls_turn, counted_turn by exact Hq.
      change (fetched_pages (EvBatch (PageResult.rows page) pc (inr rows') :: rest))
        with (fetched_pages rest).
      split; [rewrite Hrest, Hmid, Ht; trace_eq|].
      split; [now apply (shape_next _ _ _ _
                           [EvBatch (PageResult.rows page) pc (inr rows')])|].
      split; [rewrite Hcalls; reflexivity|].
      split; [apply halts_turn; [exact Hq|]; now rewrite Hreached|].
      split; [|apply Hstart].
      intros res Hres.
      destruct (Hcount res Hres) as (_ & Hpc & Htotal & Hk & Hend).
      split; [discriminate|]. split; [rewrite Hpc; cbn [length]; lia|].
      split; [rewrite Htotal; lia|].
      split; [intros Hkeeps;
              rewrite (Hk Hkeeps), total_rows_cons, (Hkept Hkeeps);
              unfold page_size; lia|].
      rewrite Nat.add_assoc.
      destruct Hend as [Hend|(ps & last & Hps & Hlast')]; [now left|].
      right. exists (page :: ps), last. rewrite Hps. now split.
    + injection E as ->.
      exists (fails ++ EvFetch qid tok (inr page)
                :: [EvBatch (PageResult.rows page) pc (inl error)]).
      rewrite fetched_pages_turn, batch_calls_turn by exact Hq.
      split; [rewrite Hmid, Ht; trace_eq|].
      split; [now apply shape_callback_threw|]. split; [reflexivity|].
      split; [apply halts_turn; [exact Hq|exact I]|].
      split; [discriminate|apply Hstart].
Qed.

End AnyPager.

Section Shapes.

Unset Implicit Arguments.

Context {Err T : Type}.
Implicit Types (e ev : event Err T) (tr : list (event Err T)).

(** An element with property [bad] lies behind a prefix without one. *)
Lemma split_past {A : Type} (bad : A -> bool) (pre : list A) :
  forall rest l1 x l2,
    forallb (fun y => negb (bad y)) pre = true ->
    pre ++ rest = l1 ++ x :: l2 ->
    bad x = true ->
    exists l1', l1 = pre ++ l1' /\ rest = l1' ++ x :: l2.
Proof.
  induction pre as [|y pre IH]; intros rest l1 x l2 Hpre E Hx.
  - exists l1. split; [reflexivity|exact E].
  - cbn in Hpre. apply andb_true_iff in Hpre as [Hy Hpre].
    destruct l1 as [|z l1]; cbn in E; injection E as -> E.
    + rewrite Hx in Hy. discriminate.
    + destruct (IH rest l1 x l2 Hpre E Hx) as (l1' & -> & ->).
      exists l1'. split; reflexivity.
Qed.

Lemma none_bad {A : Type} (bad : A -> bool) (l l1 : list A) x l2 :
  forallb (fun y => negb (bad y)) l = true ->
  l = l1 ++ x :: l2 ->
  bad x = false.
Proof.
  intros Hl ->. rewrite forallb_app in Hl. apply andb_true_iff in Hl as [_ Hl].
  cbn in Hl. apply andb_true_iff in Hl as [Hx _]. now apply negb_true_iff.
Qed.

Lemma forallb_impl {A : Type} (p q : A -> bool) (l : list A) :
  (forall x, p x = true -> q x = true) ->
  forallb p l = true -> forallb q l = true.
Proof.
  intros Hpq H. apply forallb_forall. intros x Hx. apply Hpq.
  revert x Hx. now apply forallb_forall.
Qed.

Lemma quiet_not_end e : quiet e = true -> negb (ends_pagination e) = true.
Proof. destruct e as [| ? ? [|] | | | |]; cbn; congruence. Qed.

Lemma calm_not_end e : calm e = true -> negb (ends_pagination e) = true.
Proof. destruct e as [| ? ? [|] | | | |]; cbn; congruence. Qed.

Lemma calm_not_fetch e : calm e = true -> is_fetch e = false.
Proof. destruct e as [| ? ? [|] | | | |]; cbn; congruence. Qed.



Lemma raised_not_fetch e error : callback_threw e = Some error -> is_fetch e = false.
Proof. destruct e; cbn; congruence. Qed.

(** In a pagination run nothing is fetched after a page without
    token, and the run does not go on to exhaust its fuel. *)
Lemma shape_end_is_last {A : Type} delta (r : @result Err A) :
  run_shape delta r ->
  forall l1 e l2,
    delta = l1 ++ e :: l2 ->
    ends_pagination e = true ->
    Forall (fun e' => is_fetch e' = false) l2 /\ r <> OutOfFuel.
Proof.
  induction 1 as [|fails v Hq|fails q tok page mid a Hq Hc
                 |fails q tok page ev error Hq Hev
                 |fails q tok page mid rest r Hq Hc Htok Hrest IH];
    intros l1 e l2 E He.
  - now destruct l1.
  - apply (forallb_impl _ _ _ quiet_not_end) in Hq.
    rewrite (none_bad _ _ _ _ _ Hq E) in He. discriminate.
  - apply (forallb_impl _ _ _ quiet_not_end) in Hq.
    destruct (split_past _ _ _ _ _ _ Hq E He) as (l1' & -> & E').
    destruct l1' as [|x l1']; cbn in E'; injection E' as <- E'.
    + subst l2. split; [|discriminate].
      apply Forall_forall. intros x Hx. apply calm_not_fetch.
      revert x Hx. now apply forallb_forall.
    + apply (forallb_impl _ _ _ calm_not_end) in Hc.
      rewrite (none_bad _ _ _ _ _ Hc E') in He. discriminate.
  - apply (forallb_impl _ _ _ quiet_not_end) in Hq.
    destruct (split_past _ _ _ _ _ _ Hq E He) as (l1' & -> & E').
    destruct l1' as [|x l1']; cbn in E'; injection E' as <- E'.
    + subst l2. split; [|discriminate].
      constructor; [|constructor]. eapply raised_not_fetch; eassumption.
    + destruct l1' as [|y l1']; cbn in E'; [|now destruct l1'].
      injection E' as -> _. destruct e; cbn in *; congruence.
  - assert (Hpre : forallb (fun y => negb (ends_pagination y))
                     (fails ++ EvFetch q tok (inr page) :: mid) = true).
    { rewrite forallb_app. cbn. rewrite Htok. cbn.
      rewrite (forallb_impl _ _ _ quiet_not_end Hq).
      now rewrite (forallb_impl _ _ _ calm_not_end Hc). }
    replace (fails ++ EvFetch q tok (inr page) :: mid ++ rest)
      with ((fails ++ EvFetch q tok (inr page) :: mid) ++ rest) in E by trace_eq.
    destruct (split_past _ _ _ _ _ _ Hpre E He) as (l1' & -> & E').
    exact (IH _ _ _ E' He).
Qed.


Set Implicit Arguments.

End Shapes.

Section Invariants.

Context {Err Raw T P C : Type}.
Context {pagerOps : Pager Err Raw T P}.
Variable options : CollectorOptions Err T C.
Variable qid : string.
Variable f : Raw -> T.

Implicit Types w : world Err T P C.

Lemma collectWith_general fuel w :
  let run := collectWith options fuel qid f w in
  exists delta,
    trace (snd run) = trace w ++ EvReset :: delta
    /\ run_shape delta (fst run)
    /\ (forall res, fst run = Returned res ->
          fetched_pages delta <> []
          /\ CollectResult.pageCount res = length (fetched_pages delta)
          /\ (maxRows options = None ->
              CollectResult.rows res = all_rows (fetched_pages delta)
              /\ CollectResult.truncated res = false))
    /\ (1 <= fuel -> (0 <= retryCount options)%Z ->
        exists o l, delta = EvFetch qid None o :: l).
Proof.
  unfold collectWith. rewrite bind_run. cbn [pager_reset].
  match goal with
  | |- context [collectWith_loop options fuel qid f ?r ?t ?n ?b ?w'] =>
      destruct (collectWith_loop_general options qid f fuel r t n b w')
        as (delta & Ht & Hs & Hc & Hf)
  end.
  exists delta. split; [rewrite Ht; cbn [trace]; trace_eq|].
  split; [exact Hs|]. split; [exact Hc|exact Hf].
Qed.

Lemma stream_general fuel w :
  let run := stream options fuel qid f w in
  exists delta,
    trace (snd run) = trace w ++ EvReset :: delta
    /\ run_shape delta (fst run)
    /\ (1 <= fuel -> (0 <= retryCount options)%Z ->
        exists o l, delta = EvFetch qid None o :: l).
Proof.
  unfold stream. rewrite bind_run. cbn [pager_reset].
  match goal with
  | |- context [stream_loop options fuel qid f ?t ?n ?w'] =>
      destruct (stream_loop_general options qid f fuel t n w')
        as (delta & Ht & Hs & Hf)
  end.
  exists delta. split; [rewrite Ht; cbn [trace]; trace_eq|].
  split; [exact Hs|exact Hf].
Qed.

Lemma processBatches_general bp fuel w :
  let run := processBatches options fuel qid f bp w in
  exists delta,
    trace (snd run) = trace w ++ EvReset :: delta
    /\ run_shape delta (fst run)
    /\ batch_calls delta
       = combine (map (@PageResult.rows T) (fetched_pages delta))
                 (seq 0 (length (fetched_pages delta)))
    /\ (forall res, fst run = Returned res ->
          fetched_pages delta <> []
          /\ BatchResult.pageCount res = length (fetched_pages delta)
          /\ BatchResult.totalRows res = counted delta
          /\ (keeps_length bp ->
              counted delta = total_rows (fetched_pages delta))
          /\ (reached (maxRows options) (counted delta) = true
              \/ exists ps page,
                   fetched_pages delta = ps ++ [page]
                   /\ has_token page = false))
    /\ (1 <= fuel -> (0 <= retryCount options)%Z ->
        exists o l, delta = EvFetch qid None o :: l)
    /\ halts (maxRows options) 0 delta.
Proof.
  unfold processBatches. rewrite bind_run. cbn [pager_reset].
  match goal with
  | |- context [processBatches_loop options fuel qid f bp ?t ?n ?m ?w'] =>
      destruct (processBatches_loop_general options qid f bp fuel t n m w')
        as (delta & Ht & Hs & Hb & Hh & Hc & Hf)
  end.
  exists delta. split; [rewrite Ht; cbn [trace]; trace_eq|].
  split; [exact Hs|]. split; [exact Hb|]. split; [exact Hc|].
  split; [exact Hf|exact Hh].
Qed.

(** A batch run that went on after a call of [batchProcessor] had
    not reached the limit with it. *)
Lemma halts_before (maxRows : option Z) (l1 : list (event Err T)) :
  forall count rows i rows' l2,
    halts maxRows count (l1 ++ EvBatch rows i (inr rows') :: l2) ->
    reached maxRows (count + counted l1 + length rows') = true ->
    l2 = [].
Proof.
  induction l1 as [|e l1 IH]; intros count rows i rows' l2.
  - cbn [app halts]. unfold counted. cbn. rewrite Nat.add_0_r.
    intros H Hr. now rewrite Hr in H.
  - change (e :: l1) with ([e] ++ l1) at 2. rewrite counted_app.
    destruct e as [| ? ? ? | | | rows0 i0 [e0|left0] |];
      cbn [app halts];
      try (change (counted [_]) with 0; cbn [Nat.add]; apply IH).
    change (counted [EvBatch rows0 i0 (inr left0)]) with (length (left0 ++ [])).
    rewrite app_nil_r.
    destruct (reached maxRows (count + length left0)).
    + intros H. now destruct l1.
    + intros H Hr. apply (IH _ _ _ _ _ H).
      rewrite <- Hr. f_equal. lia.
Qed.

(** [totalRows] is the length of [rows] in every result. *)
Lemma collectWith_loop_totalRows fuel : forall rows tok pc tr0 w res,
  fst (collectWith_loop options fuel qid f rows tok pc tr0 w) = Returned res ->
  CollectResult.totalRows res = length (CollectResult.rows res).
Proof.
  induction fuel as [|fuel IH]; intros rows tok pc tr0 w res; [discriminate|].
  cbn [collectWith_loop]. rewrite bind_run.
  destruct (fetchPageWithRetry options qid f tok w) as [[page|v|] w1];
    try discriminate.
  assert (Hcont :
            fst ((call_onPage options page (length (rows ++ PageResult.rows page)) ;;
                  if truthy (PageResult.nextToken page)
                  then collectWith_loop options fuel qid f
                         (rows ++ PageResult.rows page)
                         (PageResult.nextToken page) (S pc) tr0
                  else collectWith_return (rows ++ PageResult.rows page) (S pc) tr0)
                   w1) = Returned res ->
            CollectResult.totalRows res = length (CollectResult.rows res)).
  { rewrite bind_run.
    destruct (call_onPage options page _ w1) as [[[]|v|] w2]; try discriminate.
    destruct (truthy (PageResult.nextToken page)); [apply IH|].
    cbn. intros [= <-]. reflexivity. }
  destruct (maxRows options) as [m|]; [|exact Hcont].
  destruct (_ >=? _)%Z; [|exact Hcont].
  cbn. intros [= <-]. reflexivity.
Qed.

Lemma collectWith_totalRows fuel w res :
  fst (collectWith options fuel qid f w) = Returned res ->
  CollectResult.totalRows res = length (CollectResult.rows res).
Proof.
  unfold collectWith. rewrite bind_run. cbn [pager_reset].
  apply collectWith_loop_totalRows.
Qed.

(** The events of a run behind its starting [reset]. *)
Lemma behind_reset (tr delta l1 : list (event Err T)) e l2 (bad : event Err T -> bool) :
  bad EvReset = false ->
  bad e = true ->
  tr ++ EvReset :: delta = tr ++ l1 ++ e :: l2 ->
  exists l1', delta = l1' ++ e :: l2.
Proof.
  intros Hreset He E. apply app_inv_head in E.
  destruct l1 as [|x l1]; cbn in E; injection E as <- E.
  - congruence.
  - eauto.
Qed.

Lemma ended_by_shape {A : Type} (run : @result Err A * world Err T P C) w delta :
  trace (snd run) = trace w ++ EvReset :: delta ->
  run_shape delta (fst run) ->
  forall l1 e l2,
    trace (snd run) = trace w ++ l1 ++ e :: l2 ->
    ends_pagination e = true ->
    Forall (fun e' => is_fetch e' = false) l2 /\ fst run <> OutOfFuel.
Proof.
  intros Ht Hs l1 e l2 E He. rewrite Ht in E.
  destruct (behind_reset _ _ _ _ _ ends_pagination eq_refl He E) as [l1' E'].
  exact (shape_end_is_last _ _ Hs _ _ _ E' He).
Qed.


(** C8.  In all three modes, whatever the pager answers and whatever
    the row limit: once a page without continuation token has been
    fetched, nothing more is fetched, and the loop ends (the call does
    not go on to another turn). *)
Theorem no_fetch_after_last_page fuel bp w :
  let ended (A : Type) (run : @result Err A * world Err T P C) :=
    forall l1 e l2,
      trace (snd run) = trace w ++ l1 ++ e :: l2 ->
      ends_pagination e = true ->
      Forall (fun e' => is_fetch e' = false) l2 /\ fst run <> OutOfFuel in
  ended _ (collectWith options fuel qid f w)
  /\ ended _ (stream options fuel qid f w)
  /\ ended _ (processBatches options fuel qid f bp w).
Proof.
  cbv zeta. split; [|split].
  - destruct (collectWith_general fuel w) as (delta & Ht & Hs & _).
    eapply ended_by_shape; eassumption.
  - destruct (stream_general fuel w) as (delta & Ht & Hs & _).
    eapply ended_by_shape; eassumption.
  - destruct (processBatches_general bp fuel w) as (delta & Ht & Hs & _).
    eapply ended_by_shape; eassumption.
Qed.


(** C10.  Every call of collectWith (hence of collect, which is
    collectWith with the identity parser), of stream and of
    processBatches starts, after the reset, with a page fetch, even
    when the result set is empty.  A result of collectWith has
    pageCount >= 1.  processBatches hands every page it fetches to
    batchProcessor, so a result of it has pageCount >= 1 and
    batchProcessor was invoked, whatever maxRows is. *)
Theorem every_call_fetches fuel bp w :
  (0 <= retryCount options)%Z ->
  1 <= fuel ->
  let fetches_first (A : Type) (run : @result Err A * world Err T P C) :=
    exists o l, trace (snd run) = trace w ++ EvReset :: EvFetch qid None o :: l in
  (fetches_first _ (collectWith options fuel qid f w)
   /\ forall res, fst (collectWith options fuel qid f w) = Returned res ->
                  1 <= CollectResult.pageCount res)
  /\ fetches_first _ (stream options fuel qid f w)
  /\ (fetches_first _ (processBatches options fuel qid f bp w)
      /\ exists delta,
           trace (snd (processBatches options fuel qid f bp w)) = trace w ++ delta
           /\ length (batch_calls delta) = length (fetched_pages delta)
           /\ forall res,
                fst (processBatches options fuel qid f bp w) = Returned res ->
                1 <= BatchResult.pageCount res /\ batch_calls delta <> []).
Proof.
  intros Hr Hfuel. cbv zeta. split; [|split].
  - destruct (collectWith_general fuel w) as (delta & Ht & _ & Hc & Hf).
    destruct (Hf Hfuel Hr) as (o & l & ->). split; [eauto|].
    intros res Hres. destruct (Hc res Hres) as (Hne & -> & _).
    destruct (fetched_pages _); [contradiction|cbn; lia].
  - destruct (stream_general fuel w) as (delta & Ht & _ & Hf).
    destruct (Hf Hfuel Hr) as (o & l & ->). eauto.
  - destruct (processBatches_general bp fuel w) as (delta & Ht & _ & Hb & Hc & Hf & _).
    destruct (Hf Hfuel Hr) as (o & l & E). split; [rewrite Ht, E; eauto|].
    exists (EvReset :: delta). split; [exact Ht|].
    change (batch_calls (EvReset :: delta)) with (batch_calls delta).
    change (fetched_pages (EvReset :: delta)) with (fetched_pages delta).
    rewrite Hb. split.
    + now rewrite length_combine, length_map, length_seq, Nat.min_id.
    + intros res Hres. destruct (Hc res Hres) as (Hne & -> & _).
      destruct (fetched_pages delta); [contradiction|].
      split; [cbn; lia|discriminate].
Qed.

End Invariants.

Section PageSequences.
Context {Err Raw T C : Type}.
Variable options : CollectorOptions Err T C.
Variable qid : string.
Variable f : Raw -> T.
Hypothesis retry_nonneg : (0 <= retryCount options)%Z.

Abbreviation W := (world Err T (Script.t Err T) C).
Abbreviation serving ps rest d := (Script.mk (map inr ps ++ rest) d).

Lemma fetch_served (tok : option string) (p : PageResult.t T) q d (c : C) tr :
  fetchPageWithRetry options qid f tok (World (Script.mk (inr p :: q) d) c tr)
  = (Returned p,
     World (Script.mk q d) c (tr ++ [EvFetch qid tok (inr p)])).
Proof.
  unfold fetchPageWithRetry.
  replace (Z.to_nat (retryCount options + 1)) with (S (Z.to_nat (retryCount options))) by lia.
  reflexivity.
Qed.

Lemma truncation_test m (acc : list T) (page : PageResult.t T) :
  (Z.of_nat (length (PageResult.rows page)) >=? m - Z.of_nat (length acc))%Z
  = reached (Some m) (length acc + page_size page).
Proof.
  unfold reached, page_size.
  destruct (Z.geb_spec (Z.of_nat (length (PageResult.rows page))) (m - Z.of_nat (length acc)));
  destruct (Z.geb_spec (Z.of_nat (length acc + length (PageResult.rows page))) m); lia.
Qed.

Lemma onPage_run (Hcb : onPage_never_throws options) (page : PageResult.t T) n
    (pg : Script.t Err T) c tr :
  exists c',
    call_onPage options page n (World pg c tr)
    = (Returned tt, World pg c' (tr ++ onPage_events options page n)).
Proof.
  unfold onPage_events, call_onPage. unfold onPage_never_throws in Hcb.
  destruct (onPage options) as [f0|] eqn:E.
  - specialize (Hcb f0 eq_refl page n c). unfold call. cbn.
    destruct (f0 page n c) as [r c']. cbn in Hcb. subst r. eexists; reflexivity.
  - exists c. cbn. rewrite app_nil_r. reflexivity.
Qed.

(** A page that is appended in full and carries a token: the loop goes on. *)
Lemma collect_step_next (Hcb : onPage_never_throws options)
    fuel acc tok pc p q d c tr :
  reached (maxRows options) (length acc + page_size p) = false ->
  has_token p = true ->
  exists c',
    collectWith_loop options (S fuel) qid f acc tok pc false
      (World (Script.mk (inr p :: q) d) c tr)
    = collectWith_loop options fuel qid f (acc ++ PageResult.rows p)
        (PageResult.nextToken p) (S pc) false
        (World (Script.mk q d) c'
           (tr ++ EvFetch qid tok (inr p)
               :: onPage_events options p (length acc + page_size p))).
Proof.
  intros Hlim Htok.
  cbn [collectWith_loop]. rewrite bind_run, fetch_served.
  destruct (maxRows options) as [m|]; [rewrite truncation_test, Hlim|];
  (unfold page_size; rewrite <- length_app, bind_run;
  destruct (onPage_run Hcb p (length (acc ++ PageResult.rows p))
              (Script.mk q d) c (tr ++ [EvFetch qid tok (inr p)])) as [c' ->];
  exists c';
  change (truthy (PageResult.nextToken p)) with (has_token p);
  rewrite Htok, <- app_assoc; reflexivity).
Qed.

(** A page that is appended in full and carries no token ends the loop. *)
Lemma collect_step_last (Hcb : onPage_never_throws options)
    fuel acc tok pc p q d c tr :
  reached (maxRows options) (length acc + page_size p) = false ->
  has_token p = false ->
  exists c',
    collectWith_loop options (S fuel) qid f acc tok pc false
      (World (Script.mk (inr p :: q) d) c tr)
    = (Returned (CollectResult.mk (acc ++ PageResult.rows p)
                   (length (acc ++ PageResult.rows p)) (S pc) false),
       World (Script.mk q d) c'
         (tr ++ EvFetch qid tok (inr p)
             :: onPage_events options p (length acc + page_size p))).
Proof.
  intros Hlim Htok.
  cbn [collectWith_loop]. rewrite bind_run, fetch_served.
  destruct (maxRows options) as [m|]; [rewrite truncation_test, Hlim|];
  (unfold page_size; rewrite <- length_app, bind_run;
  destruct (onPage_run Hcb p (length (acc ++ PageResult.rows p))
              (Script.mk q d) c (tr ++ [EvFetch qid tok (inr p)])) as [c' ->];
  exists c';
  change (truthy (PageResult.nextToken p)) with (has_token p);
  rewrite Htok, <- app_assoc; reflexivity).
Qed.

(** The page with which the row count reaches the limit is sliced and
    ends the loop; the callback is not invoked. *)
Lemma collect_step_truncating fuel acc tok pc p q d c tr m :
  maxRows options = Some m ->
  reached (Some m) (length acc + page_size p) = true ->
  collectWith_loop options (S fuel) qid f acc tok pc false
    (World (Script.mk (inr p :: q) d) c tr)
  = (let rows := acc ++ slice (PageResult.rows p) 0 (m - Z.of_nat (length acc)) in
     Returned (CollectResult.mk rows (length rows) (S pc) true),
     World (Script.mk q d) c (tr ++ [EvFetch qid tok (inr p)])).
Proof.
  intros Hm Hlim.
  cbn [collectWith_loop]. rewrite bind_run, fetch_served.
  rewrite Hm, truncation_test, Hlim. reflexivity.
Qed.


(** Pages that carry a token and stay below the limit are all
    appended, and the loop is then at the page after them. *)
Lemma collect_prefix (Hcb : onPage_never_throws options) pre :
  forall fuel acc tok pc c tr rest d,
    Forall (fun p => has_token p = true) pre ->
    (pre <> [] -> reached (maxRows options) (length acc + total_rows pre) = false) ->
    exists c',
      collectWith_loop options (length pre + fuel) qid f acc tok pc false
        (World (serving pre rest d) c tr)
      = collectWith_loop options fuel qid f (acc ++ all_rows pre)
          (token_after tok pre) (pc + length pre) false
          (World (Script.mk rest d) c'
             (tr ++ collect_trace qid options tok (length acc) pre)).
Proof.
  induction pre as [|p pre IH]; intros fuel acc tok pc c tr rest d Htok Hlim.
  - exists c. cbn. rewrite !app_nil_r, Nat.add_0_r. reflexivity.
  - inversion Htok as [|? ? Hp Hpre]; subst.
    specialize (Hlim ltac:(discriminate)). rewrite total_rows_cons in Hlim.
    assert (Hp' : reached (maxRows options) (length acc + page_size p) = false)
      by (eapply reached_mono; [|exact Hlim]; lia).
    cbn [length Nat.add map app].
    destruct (collect_step_next Hcb (length pre + fuel) acc tok pc p (map inr pre ++ rest) d c tr Hp' Hp)
      as [c1 ->].
    destruct (IH fuel (acc ++ PageResult.rows p) (PageResult.nextToken p) (S pc) c1
                (tr ++ EvFetch qid tok (inr p)
                    :: onPage_events options p (length acc + page_size p))
                rest d Hpre) as [c2 ->].
    + intros _. rewrite length_app. fold (page_size p).
      rewrite <- Hlim. f_equal. lia.
    + exists c2. rewrite token_after_cons. cbn [collect_trace all_rows flat_map].
      rewrite length_app. fold (page_size p). fold (all_rows pre).
      rewrite <- !app_assoc. cbn [app].
      replace (S pc + length pre) with (pc + S (length pre)) by lia.
      reflexivity.
Qed.


Lemma reset_run (s : Script.t Err T) (c : C) tr :
  pager_reset (Raw := Raw) (World s c tr) = (Returned tt, World s c (tr ++ [EvReset])).
Proof. reflexivity. Qed.

(** The whole run when no page reaches the limit. *)
Lemma collect_run_natural (Hcb : onPage_never_throws options)
    pre p fuel rest d c tr :
  Forall (fun q => has_token q = true) pre ->
  has_token p = false ->
  reached (maxRows options) (total_rows (pre ++ [p])) = false ->
  exists c',
    collectWith options (length pre + S fuel) qid f
      (World (serving (pre ++ [p]) rest d) c tr)
    = (Returned (CollectResult.mk (all_rows (pre ++ [p]))
                   (length (all_rows (pre ++ [p])))
                   (S (length pre)) false),
       World (Script.mk rest d) c'
         (tr ++ EvReset :: collect_trace qid options None 0 (pre ++ [p]))).
Proof.
  intros Hpre Hp Hlim.
  unfold collectWith. rewrite bind_run, reset_run.
  rewrite map_app, <- app_assoc. rewrite total_rows_app in Hlim.
  destruct (collect_prefix Hcb (S fuel) [] None 0 c (tr ++ [EvReset])
              (map inr [p] ++ rest) d Hpre) as [c1 ->].
  { intros _. eapply reached_mono; [|exact Hlim]. cbn. lia. }
  cbn [map app length Nat.add].
  destruct (collect_step_last Hcb fuel (all_rows pre) (token_after None pre)
              (length pre) p rest d c1
              (tr ++ [EvReset] ++ collect_trace qid options None 0 pre))
    as [c2 E].
  { fold (total_rows pre).
    rewrite total_rows_cons in Hlim. cbn in Hlim. now rewrite Nat.add_0_r in Hlim. }
  { exact Hp. }
  rewrite <- app_assoc, E. exists c2.
  rewrite all_rows_app, collect_trace_app. cbn.
  rewrite !app_nil_r. fold (total_rows pre).
  rewrite <- !app_assoc. cbn.
  reflexivity.
Qed.


(** The whole run when the limit is reached with page [p]. *)
Lemma collect_run_truncated (Hcb : onPage_never_throws options)
    m pre p fuel rest d c tr :
  maxRows options = Some m ->
  Forall (fun q => has_token q = true) pre ->
  (pre <> [] -> reached (Some m) (total_rows pre) = false) ->
  reached (Some m) (total_rows (pre ++ [p])) = true ->
  exists c',
    collectWith options (length pre + S fuel) qid f
      (World (serving (pre ++ [p]) rest d) c tr)
    = (let rows := all_rows pre
                   ++ slice (PageResult.rows p) 0 (m - Z.of_nat (total_rows pre)) in
       Returned (CollectResult.mk rows (length rows) (S (length pre)) true),
       World (Script.mk rest d) c'
         (tr ++ EvReset :: collect_trace qid options None 0 pre
             ++ [EvFetch qid (token_after None pre) (inr p)])).
Proof.
  intros Hm Hpre Hbelow Hlim.
  unfold collectWith. rewrite bind_run, reset_run.
  rewrite map_app, <- app_assoc.
  destruct (collect_prefix Hcb (S fuel) [] None 0 c (tr ++ [EvReset])
              (map inr [p] ++ rest) d Hpre) as [c1 ->].
  { rewrite Hm. exact Hbelow. }
  exists c1. cbn [map app length Nat.add].
  rewrite (collect_step_truncating fuel _ _ _ p rest d c1 _ Hm).
  - rewrite <- !app_assoc. reflexivity.
  - rewrite total_rows_app, total_rows_cons in Hlim. cbn in Hlim.
    now rewrite Nat.add_0_r in Hlim.
Qed.


Lemma fuel_split n fuel : n < fuel -> exists k, fuel = n + S k.
Proof. intros H. exists (fuel - S n). lia. Qed.

(** C1.  Without a row limit, collectWith returns the rows of every
    fetched page, concatenated in fetch order; pageCount is the number
    of page fetches performed; truncated is false.  On a page sequence
    every page is fetched, by one fetch call each. *)
Theorem collectWith_without_limit :
  maxRows options = None ->
  (forall fuel (w : world Err T (Script.t Err T) C) res,
      let run := collectWith options fuel qid f w in
      fst run = Returned res ->
      exists delta,
        trace (snd run) = trace w ++ EvReset :: delta
        /\ CollectResult.rows res = all_rows (fetched_pages delta)
        /\ CollectResult.totalRows res = length (CollectResult.rows res)
        /\ CollectResult.pageCount res = length (fetched_pages delta)
        /\ CollectResult.truncated res = false)
  /\ (onPage_never_throws options ->
      forall ps rest d c fuel,
        page_sequence ps = true ->
        length ps <= fuel ->
        let run := collectWith options fuel qid f (World (serving ps rest d) c []) in
        fst run = Returned (CollectResult.mk (all_rows ps) (length (all_rows ps))
                              (length ps) false)
        /\ fetched_pages (trace (snd run)) = ps
        /\ fetch_calls (trace (snd run)) = length ps
        /\ pager (snd run) = Script.mk rest d).
Proof.
  intros Hm. split.
  - intros fuel w res run Hres. subst run.
    destruct (collectWith_general options qid f fuel w) as (delta & Ht & _ & Hc & _).
    destruct (Hc res Hres) as (_ & Hpc & Hrows). destruct (Hrows Hm) as [Hr Htr].
    exists delta. repeat split; try assumption.
    eapply collectWith_totalRows. exact Hres.
  - intros Hcb ps rest d c fuel Hps Hfuel.
    apply page_sequence_split in Hps as (pre & p & -> & Hpre & Hp).
    rewrite length_app in Hfuel. cbn in Hfuel.
    destruct (fuel_split (n := length pre) (fuel := fuel) ltac:(lia)) as [k ->].
    destruct (collect_run_natural Hcb p k rest d c [] Hpre Hp) as [c' E].
    { rewrite Hm. reflexivity. }
    cbv zeta. rewrite E. cbn [fst snd trace pager app].
    change (EvReset :: ?l) with ([@EvReset Err T] ++ l).
    rewrite fetched_pages_app, fetch_calls_app.
    rewrite collect_trace_fetched_pages, collect_trace_fetch_calls.
    rewrite length_app. cbn. replace (length pre + 1) with (S (length pre)) by lia.
    auto.
Qed.

Lemma serving_split (pre : list (PageResult.t T)) p post
    (rest : list (outcome Err (PageResult.t T))) :
  map inr (pre ++ p :: post) ++ rest = map inr (pre ++ [p]) ++ (map inr post ++ rest).
Proof. rewrite !map_app, <- !app_assoc. reflexivity. Qed.

Lemma reached_false_lt m n : reached (Some m) n = false -> (Z.of_nat n < m)%Z.
Proof. unfold reached. destruct (Z.geb_spec (Z.of_nat n) m); [discriminate|lia]. Qed.

Lemma reached_true_ge m n : reached (Some m) n = true -> (m <= Z.of_nat n)%Z.
Proof. unfold reached. destruct (Z.geb_spec (Z.of_nat n) m); [lia|discriminate]. Qed.

Lemma firstn_limit_page (A : Type) (a b c : list A) n :
  length a <= n -> n <= length a + length b ->
  firstn n (a ++ b ++ c) = a ++ firstn (n - length a) b.
Proof.
  intros Ha Hb. rewrite firstn_app, (firstn_all2 a) by lia.
  rewrite firstn_app. replace (n - length a - length b) with 0 by lia.
  cbn. now rewrite app_nil_r.
Qed.

(** On a page sequence the collected rows are the first maxRows rows
    of the result set. *)
Lemma collect_rows_limit (Hcb : onPage_never_throws options) ps rest d c tr fuel :
  (forall m, maxRows options = Some m -> (0 <= m)%Z) ->
  page_sequence ps = true ->
  length ps <= fuel ->
  exists res w',
    collectWith options fuel qid f (World (serving ps rest d) c tr) = (Returned res, w')
    /\ CollectResult.rows res = limit (maxRows options) (all_rows ps)
    /\ CollectResult.totalRows res = length (CollectResult.rows res)
    /\ 1 <= CollectResult.pageCount res <= length ps
    /\ CollectResult.truncated res = reached (maxRows options) (total_rows ps).
Proof.
  intros Hpos Hps Hfuel.
  destruct (reached (maxRows options) (total_rows ps)) eqn:Hlim.
  - destruct (maxRows options) as [m|] eqn:Hm; [|discriminate].
    specialize (Hpos m eq_refl).
    destruct (first_reaching (Some m) (ps := ps) 0) as (pre & p & post & E & Hbelow & Hp).
    { now destruct ps. }
    { exact Hlim. }
    subst ps. cbn [Nat.add] in Hbelow, Hp.
    pose proof (page_sequence_tokens _ _ _ Hps) as Hpre.
    rewrite length_app in Hfuel. cbn in Hfuel.
    destruct (fuel_split (n := length pre) (fuel := fuel) ltac:(lia)) as [k ->].
    rewrite serving_split.
    destruct (collect_run_truncated Hcb p k (map inr post ++ rest) d c tr Hm Hpre Hbelow Hp)
      as [c' E].
    rewrite E. eexists _, _. split; [reflexivity|]. cbn.
    assert (Hle : (Z.of_nat (total_rows pre) <= m)%Z).
    { destruct pre as [|q pre]; [cbn; lia|].
      apply Z.lt_le_incl, reached_false_lt, Hbelow. discriminate. }
    apply reached_true_ge in Hp. rewrite total_rows_app, total_rows_cons in Hp.
    cbn in Hp. rewrite slice_firstn by lia.
    repeat split; try lia; try (rewrite length_app; cbn; lia).
    rewrite all_rows_app. cbn [all_rows flat_map]. fold (all_rows post).
    rewrite firstn_limit_page.
    + f_equal. f_equal. unfold total_rows. lia.
    + fold (total_rows pre). lia.
    + fold (total_rows pre) (page_size p). lia.
  - apply page_sequence_split in Hps as (pre & p & -> & Hpre & Hp).
    rewrite length_app in Hfuel. cbn in Hfuel.
    destruct (fuel_split (n := length pre) (fuel := fuel) ltac:(lia)) as [k ->].
    destruct (collect_run_natural Hcb p k rest d c tr Hpre Hp Hlim) as [c' E].
    rewrite E. eexists _, _. split; [reflexivity|]. cbn.
    repeat split; try lia; try (rewrite length_app; cbn; lia).
    symmetry. apply limit_all. exact Hlim.
Qed.

(** C2.  With maxRows = m: when the rows of a fetched page are at
    least remaining = m - (rows collected so far), exactly the first
    remaining rows of that page are appended, truncated is true, the
    page is counted and nothing more is fetched; with remaining zero
    no row is appended, and the page is still counted and the result
    still truncated; the number of rows returned is min(m, rows
    available). *)
Theorem collectWith_truncation m :
  maxRows options = Some m ->
  (0 <= m)%Z ->
  onPage_never_throws options ->
  (forall pre p rest d c fuel,
      Forall (fun q => has_token q = true) pre ->
      (pre <> [] -> (Z.of_nat (total_rows pre) < m)%Z) ->
      (Z.of_nat (page_size p) >= m - Z.of_nat (total_rows pre))%Z ->
      length pre < fuel ->
      let remaining := Z.to_nat (m - Z.of_nat (total_rows pre)) in
      let run := collectWith options fuel qid f
                   (World (serving (pre ++ [p]) rest d) c []) in
      fst run = Returned (CollectResult.mk
                            (all_rows pre ++ firstn remaining (PageResult.rows p))
                            (total_rows pre + remaining)
                            (S (length pre)) true)
      /\ fetched_pages (trace (snd run)) = pre ++ [p]
      /\ fetch_calls (trace (snd run)) = S (length pre)
      /\ pager (snd run) = Script.mk rest d)
  /\ (m = 0%Z ->
      forall p rest d c fuel,
        0 < fuel ->
        let run := collectWith options fuel qid f
                     (World (serving [p] rest d) c []) in
        fst run = Returned (CollectResult.mk [] 0 1 true)
        /\ fetch_calls (trace (snd run)) = 1)
  /\ (forall ps rest d c fuel,
        page_sequence ps = true ->
        length ps <= fuel ->
        exists res,
          fst (collectWith options fuel qid f (World (serving ps rest d) c []))
          = Returned res
          /\ Z.of_nat (length (CollectResult.rows res))
             = Z.min m (Z.of_nat (total_rows ps))).
Proof.
  intros Hm Hpos Hcb.
  assert (Hrun : forall pre p rest d c fuel,
      Forall (fun q => has_token q = true) pre ->
      (pre <> [] -> (Z.of_nat (total_rows pre) < m)%Z) ->
      (Z.of_nat (page_size p) >= m - Z.of_nat (total_rows pre))%Z ->
      length pre < fuel ->
      let remaining := Z.to_nat (m - Z.of_nat (total_rows pre)) in
      let run := collectWith options fuel qid f
                   (World (serving (pre ++ [p]) rest d) c []) in
      fst run = Returned (CollectResult.mk
                            (all_rows pre ++ firstn remaining (PageResult.rows p))
                            (total_rows pre + remaining)
                            (S (length pre)) true)
      /\ fetched_pages (trace (snd run)) = pre ++ [p]
      /\ fetch_calls (trace (snd run)) = S (length pre)
      /\ pager (snd run) = Script.mk rest d).
  { intros pre p rest d c fuel Hpre Hbelow Hp Hfuel.
    destruct (fuel_split Hfuel) as [k ->].
    assert (Hle : (Z.of_nat (total_rows pre) <= m)%Z).
    { destruct pre as [|q pre]; [cbn; lia|].
      apply Z.lt_le_incl, Hbelow. discriminate. }
    destruct (collect_run_truncated Hcb p k rest d c [] Hm Hpre) as [c' E].
    { intros Hne. specialize (Hbelow Hne). unfold reached.
      destruct (Z.geb_spec (Z.of_nat (total_rows pre)) m); [lia|reflexivity]. }
    { rewrite total_rows_app, total_rows_cons. cbn. unfold reached.
      destruct (Z.geb_spec (Z.of_nat (total_rows pre + (page_size p + 0))) m);
        [reflexivity|lia]. }
    cbv zeta. rewrite E. cbn [fst snd trace pager app].
    rewrite slice_firstn by lia.
    change (EvReset :: ?l) with ([@EvReset Err T] ++ l).
    rewrite !fetched_pages_app, !fetch_calls_app.
    rewrite collect_trace_fetched_pages, collect_trace_fetch_calls.
    repeat split; [|cbn; lia].
    rewrite length_app, length_firstn. unfold total_rows, page_size in *.
    do 2 f_equal. lia. }
  split; [exact Hrun|]. split.
  - intros -> p rest d c fuel Hfuel.
    destruct (Hrun [] p rest d c fuel) as (E & _ & Hcalls & _);
      [constructor|contradiction|cbn; lia|exact Hfuel|].
    cbv zeta in *. cbn [app] in *. rewrite E. split; [reflexivity|exact Hcalls].
  - intros ps rest d c fuel Hps Hfuel.
    destruct (collect_rows_limit Hcb ps rest d c [] (fuel := fuel))
      as (res & w' & E & Hrows & _); try assumption.
    { intros m' Hm'. congruence. }
    exists res. rewrite E. split; [reflexivity|].
    rewrite Hrows, Hm. cbn [limit]. rewrite length_firstn.
    fold (total_rows ps). lia.
Qed.


(** C6.  With an observation callback configured, every page that is
    appended in full is followed, before the next fetch, by exactly
    one invocation of the callback with that page and the number of
    rows collected so far; the page on which truncation occurs is not
    observed. *)
Theorem onPage_observation cb :
  onPage options = Some cb ->
  never_throws cb ->
  (forall ps rest d c fuel,
      page_sequence ps = true ->
      reached (maxRows options) (total_rows ps) = false ->
      length ps <= fuel ->
      let run := collectWith options fuel qid f (World (serving ps rest d) c []) in
      trace (snd run) = EvReset :: collect_trace qid options None 0 ps
      /\ onPage_calls (trace (snd run)) = running 0 ps)
  /\ (forall m pre p rest d c fuel,
        maxRows options = Some m ->
        Forall (fun q => has_token q = true) pre ->
        (pre <> [] -> (Z.of_nat (total_rows pre) < m)%Z) ->
        (Z.of_nat (page_size p) >= m - Z.of_nat (total_rows pre))%Z ->
        length pre < fuel ->
        let run := collectWith options fuel qid f
                     (World (serving (pre ++ [p]) rest d) c []) in
        trace (snd run)
        = EvReset :: collect_trace qid options None 0 pre
            ++ [EvFetch qid (token_after None pre) (inr p)]
        /\ onPage_calls (trace (snd run)) = running 0 pre).
Proof.
  intros Hcb0 Hnt.
  assert (Hcb : onPage_never_throws options).
  { intros cb' E. rewrite Hcb0 in E. now injection E as <-. }
  split.
  - intros ps rest d c fuel Hps Hlim Hfuel.
    apply page_sequence_split in Hps as (pre & p & -> & Hpre & Hp).
    rewrite length_app in Hfuel. cbn in Hfuel.
    destruct (fuel_split (n := length pre) (fuel := fuel) ltac:(lia)) as [k ->].
    destruct (collect_run_natural Hcb p k rest d c [] Hpre Hp Hlim) as [c' E].
    cbv zeta. rewrite E. cbn [fst snd trace pager app].
    split; [reflexivity|].
    change (EvReset :: ?l) with ([@EvReset Err T] ++ l).
    rewrite onPage_calls_app, collect_trace_onPage_calls, Hcb0. reflexivity.
  - intros m pre p rest d c fuel Hm Hpre Hbelow Hp Hfuel.
    destruct (fuel_split Hfuel) as [k ->].
    destruct (collect_run_truncated Hcb p k rest d c [] Hm Hpre) as [c' E].
    { intros Hne. specialize (Hbelow Hne). unfold reached.
      destruct (Z.geb_spec (Z.of_nat (total_rows pre)) m); [lia|reflexivity]. }
    { rewrite total_rows_app, total_rows_cons. cbn. unfold reached.
      destruct (Z.geb_spec (Z.of_nat (total_rows pre + (page_size p + 0))) m);
        [reflexivity|lia]. }
    cbv zeta. rewrite E. cbn [fst snd trace pager app].
    split; [reflexivity|].
    change (EvReset :: ?l) with ([@EvReset Err T] ++ l).
    rewrite !onPage_calls_app, collect_trace_onPage_calls, Hcb0.
    cbn. now rewrite app_nil_r.
Qed.

(** *** Streaming *)



Lemma within_allowance maxRows count len :
  within maxRows (count + len) -> allowance maxRows count len = len.
Proof. unfold within, allowance. destruct maxRows as [m|]; [lia|reflexivity]. Qed.

Lemma within_mono maxRows a b : a <= b -> within maxRows b -> within maxRows a.
Proof. unfold within. destruct maxRows as [m|]; [lia|trivial]. Qed.

(** One turn of the streaming loop on a served page. *)
Lemma stream_step fuel tok count p q d (c : C) tr :
  stream_loop options (S fuel) qid f tok count (World (Script.mk (inr p :: q) d) c tr)
  = let k := allowance (maxRows options) count (page_size p) in
    let w' := World (Script.mk q d) c
                (tr ++ EvFetch qid tok (inr p)
                    :: map (@EvYield Err T) (firstn k (PageResult.rows p))) in
    if k <? page_size p then (Returned tt, w')
    else if has_token p
         then stream_loop options fuel qid f (PageResult.nextToken p) (count + k) w'
         else (Returned tt, w').
Proof.
  cbn [stream_loop]. rewrite bind_run, fetch_served, bind_run, stream_forOf_run.
  cbv zeta. fold (page_size p). rewrite <- app_assoc. cbn [app].
  destruct (_ <? _); [reflexivity|].
  unfold has_token. destruct (truthy _); reflexivity.
Qed.

(** Pages that carry a token and fit under the limit are yielded in
    full, and the loop is then at the page after them. *)
Lemma stream_prefix pre : forall fuel tok count c tr rest d,
  Forall (fun p => has_token p = true) pre ->
  within (maxRows options) (count + total_rows pre) ->
  stream_loop options (length pre + fuel) qid f tok count
    (World (serving pre rest d) c tr)
  = stream_loop options fuel qid f (token_after tok pre) (count + total_rows pre)
      (World (Script.mk rest d) c (tr ++ stream_trace qid tok pre)).
Proof.
  induction pre as [|p pre IH]; intros fuel tok count c tr rest d Htok Hlim.
  - cbn. now rewrite app_nil_r, Nat.add_0_r.
  - inversion Htok as [|? ? Hp Hpre]; subst.
    rewrite total_rows_cons in Hlim.
    cbn [length Nat.add map app]. rewrite stream_step. cbv zeta.
    rewrite within_allowance by (eapply within_mono; [|exact Hlim]; lia).
    rewrite Nat.ltb_irrefl, Hp, IH by (try assumption; now rewrite <- Nat.add_assoc).
    rewrite token_after_cons, total_rows_cons, Nat.add_assoc.
    cbn [stream_trace]. unfold page_size. rewrite firstn_all, <- !app_assoc.
    reflexivity.
Qed.

(** On a page sequence the stream yields the first maxRows rows of the
    result set and ends. *)
Lemma stream_yields_limit ps : forall fuel tok count c tr rest d,
  page_sequence ps = true ->
  length ps <= fuel ->
  exists w' delta,
    stream_loop options fuel qid f tok count (World (serving ps rest d) c tr)
    = (Returned tt, w')
    /\ trace w' = tr ++ delta
    /\ yielded delta
       = firstn (allowance (maxRows options) count (total_rows ps)) (all_rows ps).
Proof.
  induction ps as [|p ps IH]; intros fuel tok count c tr rest d Hps Hfuel;
    [discriminate|].
  destruct fuel as [|fuel]; [cbn in Hfuel; lia|].
  cbn [map app]. rewrite stream_step. cbv zeta.
  set (k := allowance (maxRows options) count (page_size p)).
  assert (Hk : k <= page_size p)
    by (unfold k, allowance; destruct (maxRows options); lia).
  rewrite total_rows_cons.
  change (all_rows (p :: ps)) with (PageResult.rows p ++ all_rows ps).
  destruct (Nat.ltb_spec k (page_size p)) as [Hlt|Hge].
  - eexists _, _. split; [reflexivity|]. split; [reflexivity|].
    rewrite yielded_fetch, yielded_map_EvYield.
    replace (allowance (maxRows options) count (page_size p + total_rows ps)) with k
      by (unfold k, allowance in *; destruct (maxRows options); lia).
    rewrite firstn_app. replace (k - length (PageResult.rows p)) with 0
      by (unfold page_size in *; lia).
    cbn. now rewrite app_nil_r.
  - assert (k = page_size p) as Ek by lia.
    destruct ps as [|p' ps].
    + cbn in Hps. apply negb_true_iff in Hps. rewrite Hps.
      eexists _, _. split; [reflexivity|]. split; [reflexivity|].
      rewrite yielded_fetch, yielded_map_EvYield.
      cbn [total_rows all_rows flat_map length]. rewrite Nat.add_0_r, app_nil_r.
      reflexivity.
    + cbn [page_sequence] in Hps. apply andb_true_iff in Hps as [Hp Hps].
      rewrite Hp. cbn [length] in Hfuel.
      destruct (IH fuel (PageResult.nextToken p) (count + k) c
                  (tr ++ EvFetch qid tok (inr p)
                      :: map (@EvYield Err T) (firstn k (PageResult.rows p)))
                  rest d Hps ltac:(cbn [length]; lia)) as (w' & delta & E & Htr & Hy).
      exists w', ((EvFetch qid tok (inr p)
                   :: map (@EvYield Err T) (firstn k (PageResult.rows p))) ++ delta).
      split; [exact E|]. split; [now rewrite Htr, <- app_assoc|].
      rewrite yielded_app, yielded_fetch, yielded_map_EvYield, Hy.
      rewrite Ek. unfold page_size at 1. rewrite firstn_all.
      replace (allowance (maxRows options) count (page_size p + total_rows (p' :: ps)))
        with (length (PageResult.rows p)
              + allowance (maxRows options) (count + page_size p) (total_rows (p' :: ps)))
        by (unfold k, allowance, page_size in *; destruct (maxRows options); lia).
      now rewrite firstn_app_2.
Qed.


Lemma stream_run fuel (s : Script.t Err T) (c : C) tr :
  stream options fuel qid f (World s c tr)
  = stream_loop options fuel qid f None 0 (World s c (tr ++ [EvReset])).
Proof. reflexivity. Qed.

(** C4.  On every page sequence and for every limit configuration the
    stream yields exactly the rows collectWith returns, in the same
    order, and never more than maxRows of them. *)
Theorem stream_yields_collected_rows ps rest d c fuel :
  (forall m, maxRows options = Some m -> (0 <= m)%Z) ->
  onPage_never_throws options ->
  page_sequence ps = true ->
  length ps <= fuel ->
  let w := World (serving ps rest d) c [] in
  exists res,
    fst (collectWith options fuel qid f w) = Returned res
    /\ fst (stream options fuel qid f w) = Returned tt
    /\ yielded (trace (snd (stream options fuel qid f w))) = CollectResult.rows res
    /\ (forall m, maxRows options = Some m ->
          (Z.of_nat (length (yielded (trace (snd (stream options fuel qid f w)))))
           <= m)%Z).
Proof.
  intros Hpos Hcb Hps Hfuel w. subst w.
  destruct (collect_rows_limit Hcb ps rest d c [] Hpos Hps Hfuel)
    as (res & w1 & E1 & Hrows & _).
  destruct (stream_yields_limit ps None 0 c [EvReset] rest d Hps Hfuel)
    as (w2 & delta & E2 & Htr & Hy).
  exists res. rewrite E1, stream_run. cbn [app]. rewrite E2. cbn [fst snd].
  rewrite Htr. change (EvReset :: delta) with ([@EvReset Err T] ++ delta).
  rewrite yielded_app, Hy, Hrows. cbn [yielded flat_map app].
  repeat split.
  - now rewrite limit_allowance.
  - intros m Hm. specialize (Hpos m Hm). rewrite Hm, length_firstn.
    unfold allowance. fold (total_rows ps). lia.
Qed.

(** C9, as the code has it.  When maxRows is reached exactly by the
    last row of a page that carries a continuation token, the stream
    goes on fetching: every following page that is empty and carries a
    token, and then one page more, which has a row or carries no
    token.  It ends there without yielding a row of these extra pages.
    collectWith stops at the page that reached the limit. *)
Theorem stream_extra_fetches m pre p empties q rest d c fuel :
  maxRows options = Some m ->
  Forall (fun x => has_token x = true) (pre ++ [p]) ->
  0 < page_size p ->
  Z.of_nat (total_rows (pre ++ [p])) = m ->
  Forall (fun e => has_token e = true /\ page_size e = 0) empties ->
  0 < page_size q \/ has_token q = false ->
  length pre + length empties + 2 <= fuel ->
  let w := World (serving (pre ++ [p] ++ empties ++ [q]) rest d) c [] in
  let run := stream options fuel qid f w in
  fst run = Returned tt
  /\ yielded (trace (snd run)) = all_rows (pre ++ [p])
  /\ fetched_pages (trace (snd run)) = (pre ++ [p]) ++ empties ++ [q]
  /\ fetch_calls (trace (snd run)) = length (pre ++ [p]) + (length empties + 1)
  /\ pager (snd run) = Script.mk rest d
  /\ (onPage_never_throws options ->
      fetch_calls (trace (snd (collectWith options fuel qid f w)))
      = length (pre ++ [p])).
Proof.
  intros Hm Htok Hp Htotal Hempty Hq Hfuel w run. subst run w.
  destruct (empty_pages_rows Hempty) as [Hrows Hetok].
  assert (Hzero : total_rows empties = 0) by (unfold total_rows; now rewrite Hrows).
  set (served := (pre ++ [p]) ++ empties).
  assert (Hserved : Forall (fun x => has_token x = true) served)
    by (apply Forall_app; split; assumption).
  assert (Htot : total_rows served = total_rows (pre ++ [p]))
    by (unfold served; rewrite total_rows_app; lia).
  assert (Hlen : length served = length pre + 1 + length empties)
    by (unfold served; rewrite !length_app; reflexivity).
  destruct (fuel_split (n := length served) (fuel := fuel) ltac:(lia)) as [k Ek].
  split; [|split; [|split; [|split; [|split]]]].
  6: {
    intros Hcb.
    replace (pre ++ [p] ++ empties ++ [q]) with ((pre ++ [p]) ++ (empties ++ [q]))
      by now rewrite <- !app_assoc.
    rewrite map_app, <- app_assoc.
    destruct (fuel_split (n := length pre) (fuel := fuel) ltac:(lia)) as [k' ->].
    destruct (collect_run_truncated Hcb p k' (map inr (empties ++ [q]) ++ rest) d c []
                Hm (proj1 (proj1 (Forall_app _ _ _) Htok))) as [c' E].
    { intros _. rewrite total_rows_app, total_rows_cons in Htotal. cbn in Htotal.
      unfold reached. destruct (Z.geb_spec (Z.of_nat (total_rows pre)) m);
        [lia|reflexivity]. }
    { unfold reached. destruct (Z.geb_spec (Z.of_nat (total_rows (pre ++ [p]))) m);
        [reflexivity|lia]. }
    rewrite E. cbn [snd trace app].
    change (EvReset :: ?l) with ([@EvReset Err T] ++ l).
    rewrite !fetch_calls_app, collect_trace_fetch_calls, length_app. reflexivity. }
  all: replace (pre ++ [p] ++ empties ++ [q]) with (served ++ [q])
      by (unfold served; now rewrite <- !app_assoc).
  all: rewrite stream_run, map_app, <- app_assoc, Ek.
  all: rewrite stream_prefix by (try assumption; cbn [Nat.add]; rewrite Htot, Hm; cbn; lia).
  all: cbn [map app]; rewrite stream_step; cbv zeta.
  all: cbn [Nat.add]; rewrite Htot.
  all: replace (allowance (maxRows options) (total_rows (pre ++ [p])) (page_size q)) with 0
      by (rewrite Hm; unfold allowance; lia).
  all: assert (Hstop : (if 0 <? page_size q then true else negb (has_token q)) = true)
      by (destruct Hq as [Hq|Hq];
          [apply Nat.ltb_lt in Hq; now rewrite Hq
          |rewrite Hq; now destruct (0 <? page_size q)]).
  all: destruct (0 <? page_size q); [|apply negb_true_iff in Hstop; rewrite Hstop].
  all: cbn [fst snd trace pager firstn map app]; try reflexivity.
  all: change (EvReset :: ?l) with ([@EvReset Err T] ++ l).
  all: rewrite ?yielded_app, ?fetched_pages_app, ?fetch_calls_app.
  all: rewrite ?stream_trace_yielded, ?stream_trace_fetched_pages, ?stream_trace_fetch_calls.
  all: cbn [yielded fetched_pages fetch_calls flat_map filter is_fetch app length].
  all: rewrite ?app_nil_r; unfold served; rewrite ?all_rows_app, ?Hrows, ?app_nil_r.
  all: rewrite ?length_app; cbn [length]; try reflexivity; try lia.
  all: now rewrite <- !app_assoc.
Qed.


(** *** Batch processing *)









(** *** Retries *)

Lemma retry_attempt_fails n a last tok e q d (c : C) tr :
  fetchPageWithRetry_for options (S n) a last qid f tok
    (World (Script.mk (inl e :: q) d) c tr)
  = fetchPageWithRetry_for options n (a + 1)%Z (Some e) qid f tok
      (World (Script.mk q d) c
         (tr ++ EvFetch qid tok (inl e)
             :: (if (a <? retryCount options)%Z
                 then [EvSleep (retryDelayMs options)] else []))).
Proof.
  cbn. destruct (a <? retryCount options)%Z; cbn.
  - now rewrite <- app_assoc.
  - reflexivity.
Qed.

Lemma retry_attempt_succeeds n a last tok p q d (c : C) tr :
  fetchPageWithRetry_for options (S n) a last qid f tok
    (World (Script.mk (inr p :: q) d) c tr)
  = (Returned p, World (Script.mk q d) c (tr ++ [EvFetch qid tok (inr p)])).
Proof. reflexivity. Qed.

Lemma retry_success tok page rest d (c : C) errs : forall n a last tr,
  Z.of_nat n = (retryCount options + 1 - a)%Z ->
  length errs < n ->
  fetchPageWithRetry_for options n a last qid f tok
    (World (Script.mk (map inl errs ++ inr page :: rest) d) c tr)
  = (Returned page,
     World (Script.mk rest d) c
       (tr ++ retry_trace qid tok (retryDelayMs options) errs
           ++ [EvFetch qid tok (inr page)])).
Proof.
  induction errs as [|e errs IH]; intros n a last tr Hn Hlen;
    (destruct n as [|n]; [cbn in Hlen; lia|]).
  - cbn [map app]. now rewrite retry_attempt_succeeds.
  - cbn [map app length] in *. rewrite retry_attempt_fails.
    destruct (Z.ltb_spec a (retryCount options)); [|lia].
    rewrite IH by lia. cbn [retry_trace flat_map app].
    now rewrite <- !app_assoc.
Qed.

Lemma retry_exhausted tok page rest d (c : C) errs : forall n a last tr,
  Z.of_nat n = (retryCount options + 1 - a)%Z ->
  1 <= n <= length errs ->
  exists e,
    nth_error errs (n - 1) = Some e
    /\ fetchPageWithRetry_for options n a last qid f tok
         (World (Script.mk (map inl errs ++ inr page :: rest) d) c tr)
       = (Threw (Some e),
          World (Script.mk (map inl (skipn n errs) ++ inr page :: rest) d) c
            (tr ++ retry_trace qid tok (retryDelayMs options) (firstn (n - 1) errs)
                ++ [EvFetch qid tok (inl e)])).
Proof.
  induction errs as [|e errs IH]; intros n a last tr Hn Hlen;
    [cbn in Hlen; lia|].
  destruct n as [|n]; [lia|].
  cbn [map app length] in *. rewrite retry_attempt_fails.
  destruct n as [|n].
  - exists e. split; [reflexivity|].
    destruct (Z.ltb_spec a (retryCount options)); [lia|]. reflexivity.
  - destruct (IH (S n) (a + 1)%Z (Some e)
                (tr ++ EvFetch qid tok (inl e)
                    :: (if (a <? retryCount options)%Z
                        then [EvSleep (retryDelayMs options)] else [])))
      as (e' & Hnth & E); [lia|lia|].
    exists e'. cbn [Nat.sub] in *. rewrite Nat.sub_0_r in *.
    split; [exact Hnth|]. rewrite E.
    destruct (Z.ltb_spec a (retryCount options)); [|lia].
    cbn [skipn firstn retry_trace flat_map app]. now rewrite <- !app_assoc.
Qed.

Lemma retry_trace_fetch_calls tok delay (errs : list Err) :
  fetch_calls (retry_trace (T := T) qid tok delay errs) = length errs.
Proof.
  induction errs as [|e errs IH]; [reflexivity|].
  cbn [retry_trace flat_map]. rewrite fetch_calls_app. fold (retry_trace (T := T) qid tok delay errs).
  rewrite IH. reflexivity.
Qed.

Lemma retry_trace_sleeps tok delay (errs : list Err) :
  sleeps (retry_trace (T := T) qid tok delay errs) = repeat delay (length errs).
Proof.
  induction errs as [|e errs IH]; [reflexivity|].
  cbn [retry_trace flat_map length repeat]. cbn. f_equal. exact IH.
Qed.

(** C3.  Against a fetch that fails k times and then succeeds: with
    retryCount >= k the page is returned after exactly k+1 fetch
    calls; with retryCount < k the call throws the error of its last
    attempt, as it was raised, after exactly retryCount+1 fetch
    calls. *)
Theorem fetchPageWithRetry_attempts tok errs page rest d c :
  let k := length errs in
  let r := retryCount options in
  let run := fetchPageWithRetry options qid f tok
               (World (Script.mk (map inl errs ++ inr page :: rest) d) c []) in
  ((Z.of_nat k <= r)%Z ->
     fst run = Returned page
     /\ trace (snd run)
        = retry_trace qid tok (retryDelayMs options) errs
            ++ [EvFetch qid tok (inr page)]
     /\ fetch_calls (trace (snd run)) = k + 1
     /\ pager (snd run) = Script.mk rest d)
  /\ ((r < Z.of_nat k)%Z ->
      exists e,
        nth_error errs (Z.to_nat r) = Some e
        /\ fst run = Threw (Some e)
        /\ trace (snd run)
           = retry_trace qid tok (retryDelayMs options) (firstn (Z.to_nat r) errs)
               ++ [EvFetch qid tok (inl e)]
        /\ fetch_calls (trace (snd run)) = Z.to_nat r + 1
        /\ fetched_pages (trace (snd run)) = []).
Proof.
  cbv zeta. unfold fetchPageWithRetry. split.
  - intros Hk. rewrite retry_success by lia. cbn [fst snd trace pager app].
    repeat split. rewrite fetch_calls_app, retry_trace_fetch_calls. reflexivity.
  - intros Hk.
    destruct (retry_exhausted tok page rest d c errs
                (n := Z.to_nat (retryCount options + 1)) 0%Z None [])
      as (e & Hnth & E); [lia|lia|].
    replace (Z.to_nat (retryCount options + 1) - 1) with (Z.to_nat (retryCount options))
      in * by lia.
    exists e. rewrite E. cbn [fst snd trace app].
    repeat split; [exact Hnth| |].
    + rewrite fetch_calls_app, retry_trace_fetch_calls, length_firstn.
      cbn. lia.
    + rewrite fetched_pages_app. cbn. rewrite app_nil_r.
      generalize (firstn (Z.to_nat (retryCount options)) errs) as l.
      induction l as [|x l IHl]; [reflexivity|exact IHl].
Qed.

End PageSequences.

(** ** The scenarios, checked against the theorems *)

Lemma scenario_onPage_never_throws maxRows retryCount :
  onPage_never_throws (Scenario.options maxRows retryCount).
Proof. intros g E. injection E as <-. intros a n c. reflexivity. Qed.

Lemma scenario_progress_never_throws : never_throws Scenario.progress.
Proof. intros a n c. reflexivity. Qed.

Lemma scenario_store_completes : completes Scenario.store.
Proof. intros rows n c. now exists rows. Qed.

Lemma scenario_store_keeps_length : keeps_length Scenario.store.
Proof. intros rows n c rows' E. cbn in E. now injection E as <-. Qed.

(** Two pages, no limit: all rows, two pages, not truncated. *)
Lemma collectWith_without_limit_witness :
  fst Scenario.collect_two_pages = Returned (CollectResult.mk [1; 2]%Z 2 2 false)
  /\ fetched_pages (trace (snd Scenario.collect_two_pages)) = Scenario.two_pages
  /\ fetch_calls (trace (snd Scenario.collect_two_pages)) = 2
  /\ pager (snd Scenario.collect_two_pages) = Script.mk [] Scenario.exhausted.
Proof.
  destruct (@collectWith_without_limit string Z Z (list nat)
              (Scenario.options None 0) Scenario.queryExecutionId Scenario.identity
              ltac:(cbn; lia) eq_refl) as [_ Hrun].
  exact (Hrun (@scenario_onPage_never_throws None 0%Z)
           Scenario.two_pages [] Scenario.exhausted [] 5 eq_refl ltac:(cbn; lia)).
Defined.

(** Five rows on two pages, maxRows = 4: the second page is cut after
    one row.  One page, maxRows = 0: nothing is kept of it. *)
Lemma collectWith_truncation_witness :
  fst Scenario.collect_limit_four
  = Returned (CollectResult.mk [1; 2; 3; 4]%Z 4 2 true)
  /\ fetch_calls (trace (snd Scenario.collect_limit_four)) = 2
  /\ fst Scenario.collect_limit_zero = Returned (CollectResult.mk [] 0 1 true)
  /\ exists res,
       fst Scenario.collect_limit_four = Returned res
       /\ Z.of_nat (length (CollectResult.rows res)) = Z.min 4 5.
Proof.
  destruct (@collectWith_truncation string Z Z (list nat)
              (Scenario.options (Some 4%Z) 0) Scenario.queryExecutionId
              Scenario.identity ltac:(cbn; lia) 4%Z eq_refl ltac:(lia)
              (@scenario_onPage_never_throws (Some 4%Z) 0%Z))
    as (Hrun & _ & Hmin).
  destruct (@collectWith_truncation string Z Z (list nat)
              (Scenario.options (Some 0%Z) 0) Scenario.queryExecutionId
              Scenario.identity ltac:(cbn; lia) 0%Z eq_refl ltac:(lia)
              (@scenario_onPage_never_throws (Some 0%Z) 0%Z))
    as (_ & Hzero & _).
  destruct (Hrun [Scenario.first_of_five] Scenario.last_of_five [] Scenario.exhausted
              [] 5 ltac:(repeat constructor) ltac:(intros _; cbn; lia)
              ltac:(cbn; lia) ltac:(cbn; lia)) as (H1 & _ & H3 & _).
  destruct (Hzero eq_refl Scenario.three_rows [] Scenario.exhausted [] 5
              ltac:(lia)) as (Hnothing & _).
  split; [exact H1|]. split; [exact H3|]. split; [exact Hnothing|].
  exact (Hmin [Scenario.first_of_five; Scenario.last_of_five] [] Scenario.exhausted
           [] 5 eq_refl ltac:(cbn; lia)).
Defined.

(** One failure with retryCount = 1: two fetch calls and the page.
    Three failures with retryCount = 2: three fetch calls and the third
    error. *)
Lemma fetchPageWithRetry_attempts_witness :
  (fst Scenario.retry_once = Returned Scenario.ok_page
   /\ fetch_calls (trace (snd Scenario.retry_once)) = 2)
  /\ (exists e,
        nth_error ["first"; "second"; "third"]%string 2 = Some e
        /\ fst Scenario.retry_exhausted = Threw (Some e)
        /\ fetch_calls (trace (snd Scenario.retry_exhausted)) = 3).
Proof.
  split.
  - destruct (@fetchPageWithRetry_attempts string Z Z (list nat)
                (Scenario.options None 1) Scenario.queryExecutionId Scenario.identity
                ltac:(cbn; lia) None ["network error"%string] Scenario.ok_page []
                Scenario.exhausted []) as [Hok _].
    destruct (Hok ltac:(cbn; lia)) as (H1 & _ & H3 & _).
    split; [exact H1|exact H3].
  - destruct (@fetchPageWithRetry_attempts string Z Z (list nat)
                (Scenario.options None 2) Scenario.queryExecutionId Scenario.identity
                ltac:(cbn; lia) None ["first"; "second"; "third"]%string
                Scenario.ok_page [] Scenario.exhausted []) as [_ Hfail].
    destruct (Hfail ltac:(cbn; lia)) as (e & Hnth & H1 & _ & H3 & _).
    exists e. split; [exact Hnth|]. split; [exact H1|exact H3].
Defined.

(** One page of three rows, maxRows = 2: the stream yields the two rows
    collectWith returns. *)
Lemma stream_yields_collected_rows_witness :
  exists res,
    fst Scenario.collect_limit_two = Returned res
    /\ fst Scenario.stream_limit_two = Returned tt
    /\ yielded (trace (snd Scenario.stream_limit_two)) = CollectResult.rows res
    /\ (forall m, maxRows (Scenario.options (Some 2%Z) 0) = Some m ->
          (Z.of_nat (length (yielded (trace (snd Scenario.stream_limit_two)))) <= m)%Z).
Proof.
  exact (@stream_yields_collected_rows string Z Z (list nat)
           (Scenario.options (Some 2%Z) 0) Scenario.queryExecutionId Scenario.identity
           ltac:(cbn; lia) [Scenario.three_rows] [] Scenario.exhausted [] 5
           ltac:(intros m E; injection E as <-; lia)
           (@scenario_onPage_never_throws (Some 2%Z) 0%Z) eq_refl ltac:(cbn; lia)).
Defined.



(** Two pages with a callback: it is given each page with the running
    total.  With maxRows = 4 the page that is cut is not observed. *)
Lemma onPage_observation_witness :
  onPage_calls (trace (snd Scenario.collect_two_pages))
  = [(Scenario.page [1%Z] (Some "token1"%string), 1); (Scenario.page [2%Z] None, 2)]
  /\ onPage_calls (trace (snd Scenario.collect_limit_four))
     = [(Scenario.first_of_five, 3)].
Proof.
  destruct (@onPage_observation string Z Z (list nat)
              (Scenario.options None 0) Scenario.queryExecutionId Scenario.identity
              ltac:(cbn; lia) Scenario.progress eq_refl
              scenario_progress_never_throws) as [Hnatural _].
  destruct (@onPage_observation string Z Z (list nat)
              (Scenario.options (Some 4%Z) 0) Scenario.queryExecutionId
              Scenario.identity ltac:(cbn; lia) Scenario.progress eq_refl
              scenario_progress_never_throws) as [_ Htruncated].
  split.
  - exact (proj2 (Hnatural Scenario.two_pages [] Scenario.exhausted [] 5
                    eq_refl eq_refl ltac:(cbn; lia))).
  - exact (proj2 (Htruncated 4%Z [Scenario.first_of_five] Scenario.last_of_five []
                    Scenario.exhausted [] 5 eq_refl ltac:(repeat constructor)
                    ltac:(intros _; cbn; lia) ltac:(cbn; lia) ltac:(cbn; lia))).
Defined.

(** C9 as it was stated fails: with maxRows = 1, a page of one row with
    a token, an empty page with a token and a last page, the stream
    yields the row of the first page only and performs three fetches,
    two more than the one page whose rows it yields. *)
Lemma stream_one_extra_fetch_counterexample :
  page_sequence [Scenario.full_page; Scenario.hollow_page; Scenario.final_page] = true
  /\ has_token Scenario.full_page = true
  /\ Z.of_nat (total_rows [Scenario.full_page]) = 1%Z
  /\ yielded (trace (snd Scenario.stream_past_limit)) = all_rows [Scenario.full_page]
  /\ fetch_calls (trace (snd Scenario.stream_past_limit))
     <> length [Scenario.full_page] + 1.
Proof. repeat split. vm_compute. discriminate. Qed.

(** The same scenario, as the code has it: three fetches by the stream,
    one by collectWith. *)
Lemma stream_extra_fetches_witness :
  fst Scenario.stream_past_limit = Returned tt
  /\ yielded (trace (snd Scenario.stream_past_limit)) = [10%Z]
  /\ fetch_calls (trace (snd Scenario.stream_past_limit)) = 3
  /\ fetch_calls (trace (snd Scenario.collect_past_limit)) = 1.
Proof.
  destruct (@stream_extra_fetches string Z Z (list nat)
              (Scenario.options (Some 1%Z) 0) Scenario.queryExecutionId
              Scenario.identity ltac:(cbn; lia) 1%Z [] Scenario.full_page
              [Scenario.hollow_page] Scenario.final_page [] Scenario.exhausted [] 5
              eq_refl ltac:(repeat constructor) ltac:(cbn; lia) eq_refl
              ltac:(repeat constructor) ltac:(left; cbn; lia) ltac:(cbn; lia))
    as (H1 & H2 & _ & H4 & _ & H6).
  split; [exact H1|]. split; [exact H2|]. split; [exact H4|].
  exact (H6 (@scenario_onPage_never_throws (Some 1%Z) 0%Z)).
Defined.

(** An empty result set with maxRows = 0: one fetch in every mode, one
    page counted, one batch delivered. *)
Lemma every_call_fetches_witness :
  (exists o l, trace (snd Scenario.collect_empty)
               = [] ++ EvReset :: EvFetch Scenario.queryExecutionId None o :: l)
  /\ fst Scenario.collect_empty = Returned (CollectResult.mk [] 0 1 true)
  /\ 1 <= 1
  /\ (exists o l, trace (snd Scenario.stream_empty)
                  = [] ++ EvReset :: EvFetch Scenario.queryExecutionId None o :: l)
  /\ fst Scenario.batches_empty = Returned (BatchResult.mk 0 1)
  /\ batch_calls (trace (snd Scenario.batches_empty)) = [([], 0)].
Proof.
  destruct (@every_call_fetches string Z Z (Script.t string Z) (list nat) _
              (Scenario.options (Some 0%Z) 0) Scenario.queryExecutionId
              Scenario.identity 1 Scenario.store (Scenario.mock [inr Scenario.empty_page])
              ltac:(cbn; lia) ltac:(lia))
    as ((Hc & Hcount) & Hs & (Hb & Hbatch)).
  split; [exact Hc|]. split; [reflexivity|].
  split; [exact (Hcount _ eq_refl)|]. split; [exact Hs|].
  split; reflexivity.
Defined.

(** *** Runs in which a callback raises or the last page is reached *)

Example collect_failing_onPage_run :
  fst Scenario.collect_failing_onPage = Threw (Some "onPage failed"%string)
  /\ fetch_calls (trace (snd Scenario.collect_failing_onPage)) = 1
  /\ onPage_calls (trace (snd Scenario.collect_failing_onPage))
     = [(Scenario.page [1%Z] (Some "token1"%string), 1)].
Proof. repeat split. Qed.

Example batches_failing_store_run :
  fst Scenario.batches_failing_store = Threw (Some "batch failed"%string)
  /\ fetch_calls (trace (snd Scenario.batches_failing_store)) = 1
  /\ batch_calls (trace (snd Scenario.batches_failing_store)) = [([1%Z], 0)].
Proof. repeat split. Qed.

(** *** The edges of the configuration domain

    A token that is the empty string ends the pagination like a missing
    one.  The statements above take maxRows and retryCount in their
    documented domain, the non-negative integers; outside it the code
    behaves as follows: [slice(0, -1)] drops the last row of the page
    where the stream yields nothing, and with retryCount = -1 the retry
    loop makes no attempt and throws [undefined]. *)

Example blank_token_ends_pagination :
  fst Scenario.collect_blank_token = Returned (CollectResult.mk [1%Z] 1 1 false)
  /\ fetch_calls (trace (snd Scenario.collect_blank_token)) = 1.
Proof. split; reflexivity. Qed.

Example negative_limit_outside_domain :
  fst Scenario.collect_negative_limit
  = Returned (CollectResult.mk [1; 2]%Z 2 1 true)
  /\ yielded (trace (snd Scenario.stream_negative_limit)) = [].
Proof. split; reflexivity. Qed.

Example negative_retries_outside_domain :
  fst Scenario.collect_negative_retries = Threw None
  /\ fetch_calls (trace (snd Scenario.collect_negative_retries)) = 0.
Proof. split; reflexivity. Qed.


(** ** The retried fetch against any pager *)

Section Attempts.
Context {Err Raw T P C : Type}.
Context {pagerOps : Pager Err Raw T P}.
Variable options : CollectorOptions Err T C.
Variable qid : string.
Variable f : Raw -> T.

Implicit Types w : world Err T P C.

(** The retry loop from its attempt [a] on, with [n] attempts left:
    failed attempts, each followed by the wait, and then either the
    page or the last failed attempt, which is not followed by a
    wait. *)
Lemma fetch_for_exact tok n : forall a last w,
  Z.of_nat n = (retryCount options + 1 - a)%Z ->
  let run := fetchPageWithRetry_for options n a last qid f tok w in
  user (snd run) = user w
  /\ match fst run with
     | Returned page =>
         exists errors,
           length errors < n
           /\ trace (snd run)
              = trace w ++ retry_trace qid tok (retryDelayMs options) errors
                        ++ [EvFetch qid tok (inr page)]
     | Threw v =>
         match n with
         | O => v = last /\ snd run = w
         | S n' =>
             exists errors error,
               length errors = n'
               /\ v = Some error
               /\ trace (snd run)
                  = trace w ++ retry_trace qid tok (retryDelayMs options) errors
                            ++ [EvFetch qid tok (inl error)]
         end
     | OutOfFuel => False
     end.
Proof.
  induction n as [|n IH]; intros a last w Hn run; subst run.
  - cbn. repeat split.
  - rewrite fetch_for_S.
    destruct (fetchPageWith qid f tok (pager w)) as [[e|page] p']; cbv zeta.
    + destruct n as [|n].
      * destruct (Z.ltb_spec a (retryCount options)); [lia|].
        cbn. split; [reflexivity|]. exists [], e. rewrite app_nil_r.
        repeat split.
      * destruct (Z.ltb_spec a (retryCount options)); [|lia].
        match goal with
        | |- context [fetchPageWithRetry_for options (S n) ?a' ?l' qid f tok ?w'] =>
            destruct (IH a' l' w' ltac:(lia)) as [Hu Ht];
            destruct (fetchPageWithRetry_for options (S n) a' l' qid f tok w')
              as [[page|v|] w1]
        end; cbn [fst snd trace user] in *.
        -- split; [exact Hu|]. destruct Ht as (errors & Hlen & Ht).
           exists (e :: errors). split; [cbn; lia|].
           rewrite Ht. cbn [retry_trace flat_map app]. trace_eq.
        -- split; [exact Hu|]. destruct Ht as (errors & error & Hlen & Hv & Ht).
           exists (e :: errors), error. split; [cbn; lia|]. split; [exact Hv|].
           rewrite Ht. cbn [retry_trace flat_map app]. trace_eq.
        -- contradiction.
    + cbn [fst snd user trace]. split; [reflexivity|]. exists [].
      split; [cbn [length]; lia|reflexivity].
Qed.

(** [fetchPageWithRetry], whatever the pager answers. *)
Lemma fetch_exact tok w :
  let run := fetchPageWithRetry options qid f tok w in
  user (snd run) = user w
  /\ match fst run with
     | Returned page =>
         exists errors,
           (Z.of_nat (length errors) <= retryCount options)%Z
           /\ trace (snd run)
              = trace w ++ retry_trace qid tok (retryDelayMs options) errors
                        ++ [EvFetch qid tok (inr page)]
     | Threw v =>
         ((retryCount options < 0)%Z /\ v = None /\ snd run = w)
         \/ exists errors error,
              Z.of_nat (length errors) = retryCount options
              /\ v = Some error
              /\ trace (snd run)
                 = trace w ++ retry_trace qid tok (retryDelayMs options) errors
                           ++ [EvFetch qid tok (inl error)]
     | OutOfFuel => False
     end.
Proof.
  cbv zeta. unfold fetchPageWithRetry.
  destruct (Z.lt_ge_cases (retryCount options) 0) as [Hneg|Hpos].
  - replace (Z.to_nat (retryCount options + 1)) with 0 by lia.
    cbn. split; [reflexivity|]. left. repeat split. exact Hneg.
  - destruct (fetch_for_exact tok (Z.to_nat (retryCount options + 1)) 0%Z None w
                ltac:(lia)) as [Hu Ht].
    split; [exact Hu|].
    destruct (fst (fetchPageWithRetry_for _ _ _ _ _ _ _ _)) as [page|v|];
      [| |exact Ht].
    + destruct Ht as (errors & Hlen & Ht). exists errors. split; [lia|exact Ht].
    + destruct (Z.to_nat (retryCount options + 1)) as [|n'] eqn:En; [lia|].
      destruct Ht as (errors & error & Hlen & Hv & Ht).
      right. exists errors, error. split; [lia|]. split; [exact Hv|exact Ht].
Qed.

End Attempts.

(** ** What a journal shows *)

Section JournalLemmas.
Context {Err T C : Type}.
Variable options : CollectorOptions Err T C.
Variable qid : string.

Implicit Types (tr mid rest : list (event Err T)) (errors : list Err).

Abbreviation retries tok errors :=
  (retry_trace (T := T) qid tok (retryDelayMs options) errors).

Lemma quiet_retries tok errors : forallb quiet (retries tok errors) = true.
Proof. induction errors as [|e errors IH]; [reflexivity|exact IH]. Qed.

Lemma yielded_retries tok errors : yielded (retries tok errors) = [].
Proof. induction errors as [|e errors IH]; [reflexivity|exact IH]. Qed.

Lemma fetch_calls_retries tok errors : fetch_calls (retries tok errors) = length errors.
Proof. apply retry_trace_fetch_calls. Qed.

Lemma length_sleeps_retries tok errors :
  length (sleeps (retries tok errors)) = length errors.
Proof. rewrite retry_trace_sleeps. apply repeat_length. Qed.

Lemma sleeps_app tr tr' : sleeps (tr ++ tr') = sleeps tr ++ sleeps tr'.
Proof. apply flat_map_app. Qed.

Lemma permitted_retries m tok errors :
  Forall (permitted options qid m) (retries tok errors).
Proof.
  induction errors as [|e errors IH]; [constructor|].
  cbn [retry_trace flat_map app]. repeat constructor. exact IH.
Qed.

Lemma chained_retries tok errors tr :
  chained tok tr -> chained tok (retries tok errors ++ tr).
Proof.
  intros H. induction errors as [|e errors IH]; [exact H|].
  cbn. split; [reflexivity|exact IH].
Qed.

Lemma handling_permitted m e : handling options m e -> permitted options qid m e.
Proof. destruct e; cbn; tauto. Qed.

Lemma handling_facts m mid :
  Forall (handling options m) mid ->
  Forall (permitted options qid m) mid
  /\ fetch_calls mid = 0
  /\ fetched_pages mid = []
  /\ sleeps mid = []
  /\ forall tok rest, chained tok rest -> chained tok (mid ++ rest).
Proof.
  induction 1 as [|e mid He _ (IH1 & IH2 & IH3 & IH4 & IH5)].
  - repeat split; auto.
  - split; [constructor; [now apply handling_permitted|exact IH1]|].
    destruct e; cbn in He; try contradiction; repeat split; auto;
      intros tok rest Hc; cbn; now apply IH5.
Qed.

Lemma handling_not_fetched m e : handling options m e -> fetched_pages [e] = [].
Proof. destruct e; cbn; try contradiction; reflexivity. Qed.

Lemma chained_handling m mid tok rest :
  Forall (handling options m) mid -> chained tok rest -> chained tok (mid ++ rest).
Proof. intros Hmid. now apply (handling_facts Hmid). Qed.

(** Successful handling of a page by the streaming loop. *)
Lemma handling_yields (rows : list T) :
  Forall (handling options Streaming) (map (@EvYield Err T) rows).
Proof. induction rows; constructor; [reflexivity|assumption]. Qed.

Lemma attempts_fetched_pages tok errors page tr :
  fetched_pages (retries tok errors ++ EvFetch qid tok (inr page) :: tr)
  = page :: fetched_pages tr.
Proof. apply fetched_pages_turn, quiet_retries. Qed.

(** The events of a journal are those permitted to its mode. *)
Lemma journal_permitted {A : Type} m tok delta (r : @result Err A) :
  journal options qid m tok delta r -> Forall (permitted options qid m) delta.
Proof.
  induction 1 as [tok|tok Hneg|tok errors error Hlen|tok errors page mid a Hlen Hmid
                 |tok errors page ev error Hlen Hev Hthrew
                 |tok errors page mid rest r Hlen Hmid Hrest IH];
    try constructor.
  - apply Forall_app. split; [apply permitted_retries|]. now repeat constructor.
  - apply Forall_app. split; [apply permitted_retries|].
    constructor; [reflexivity|]. now apply handling_facts.
  - apply Forall_app. split; [apply permitted_retries|].
    constructor; [reflexivity|]. constructor; [|constructor].
    now apply handling_permitted.
  - apply Forall_app. split; [apply permitted_retries|].
    constructor; [reflexivity|]. apply Forall_app. split; [|exact IH].
    now apply handling_facts.
Qed.

(** Its fetches are chained by their tokens. *)
Lemma journal_chained {A : Type} m tok delta (r : @result Err A) :
  journal options qid m tok delta r -> chained tok delta.
Proof.
  induction 1 as [tok|tok Hneg|tok errors error Hlen|tok errors page mid a Hlen Hmid
                 |tok errors page ev error Hlen Hev Hthrew
                 |tok errors page mid rest r Hlen Hmid Hrest IH];
    try exact I; apply chained_retries; cbn [chained]; try (split; [reflexivity|]).
  - exact I.
  - rewrite <- (app_nil_r mid). eapply chained_handling; [exact Hmid|exact I].
  - destruct ev; cbn in Hev; try contradiction; exact I.
  - eapply chained_handling; [exact Hmid|exact IH].
Qed.

Lemma stops_at_limit_none count : stops_at_limit (T := T) options count [].
Proof. intros pre p post E. now destruct pre. Qed.

Lemma failed_fetched_pages tok errors error :
  fetched_pages (retries tok errors ++ [EvFetch qid tok (inl error)]) = [].
Proof.
  rewrite fetched_pages_app, (fetched_pages_quiet _ (quiet_retries tok errors)).
  reflexivity.
Qed.

Lemma stops_at_limit_last count (page : PageResult.t T) :
  stops_at_limit options count [page].
Proof.
  intros pre p post E Hpost. destruct pre as [|q pre]; cbn in E.
  - injection E as _ <-. contradiction.
  - injection E as _ E. now destruct pre.
Qed.

Lemma stops_at_limit_next count (page : PageResult.t T) ps :
  reached (maxRows options) (count + page_size page) = false ->
  stops_at_limit options (count + page_size page) ps ->
  stops_at_limit options count (page :: ps).
Proof.
  intros Hpage Hps pre p post E Hpost. destruct pre as [|q pre]; cbn in E.
  - injection E as <- _. cbn [app]. rewrite total_rows_cons. cbn.
    now rewrite Nat.add_0_r.
  - injection E as <- E. cbn [app]. rewrite total_rows_cons, Nat.add_assoc.
    now apply (Hps pre p post).
Qed.

Lemma turn_counts tok errors o tail :
  fetch_calls (retries tok errors ++ EvFetch qid tok o :: tail)
  = length errors + S (fetch_calls tail)
  /\ length (sleeps (retries tok errors ++ EvFetch qid tok o :: tail))
     = length errors + length (sleeps tail)
  /\ fetched_pages (retries tok errors ++ EvFetch qid tok o :: tail)
     = match o with inr page => [page] | inl _ => [] end ++ fetched_pages tail.
Proof.
  rewrite fetch_calls_app, sleeps_app, fetched_pages_app, length_app.
  rewrite fetch_calls_retries, length_sleeps_retries.
  rewrite (fetched_pages_quiet _ (quiet_retries tok errors)).
  repeat split.
Qed.

(** Attempts, waits and pages of a journal: a failed attempt is
    followed by a wait unless the call gives up on it, and no page
    takes more than [retryCount + 1] attempts. *)
Lemma journal_counts {A : Type} m tok delta (r : @result Err A) :
  journal options qid m tok delta r ->
  let attempts := fetch_calls delta in
  let waits := length (sleeps delta) in
  let pages := length (fetched_pages delta) in
  waits + pages <= attempts <= waits + pages + 1
  /\ attempts <= (Z.to_nat (retryCount options) + 1) * S pages
  /\ (forall a, r = Returned a -> attempts = waits + pages).
Proof.
  cbv zeta.
  induction 1 as [tok|tok Hneg|tok errors error Hlen|tok errors page mid a Hlen Hmid
                 |tok errors page ev error Hlen Hev Hthrew
                 |tok errors page mid rest r Hlen Hmid Hrest IH].
  - cbn. repeat split; try lia; discriminate.
  - cbn. repeat split; try lia; discriminate.
  - destruct (turn_counts tok errors (inl error) []) as (-> & -> & ->).
    cbn. repeat split; try nia; discriminate.
  - destruct (turn_counts tok errors (inr page) mid) as (-> & -> & ->).
    destruct (handling_facts Hmid) as (_ & -> & -> & -> & _).
    cbn. repeat split; nia.
  - destruct (turn_counts tok errors (inr page) [ev]) as (-> & -> & ->).
    destruct (handling_facts (m := m) (mid := [ev])) as (_ & -> & -> & -> & _);
      [constructor; [exact Hev|constructor]|].
    cbn. repeat split; try nia; discriminate.
  - destruct (turn_counts tok errors (inr page) (mid ++ rest)) as (-> & -> & ->).
    rewrite fetch_calls_app, sleeps_app, fetched_pages_app, length_app.
    destruct (handling_facts Hmid) as (_ & -> & -> & -> & _).
    destruct IH as (IH1 & IH2 & IH3). cbn [app length Nat.add].
    split; [lia|]. split; [nia|]. intros a ->. specialize (IH3 a eq_refl). lia.
Qed.

Lemma failure_cause_later v before rest :
  (0 <= retryCount options)%Z ->
  failure_cause options qid v rest ->
  failure_cause options qid v (before ++ rest).
Proof.
  intros Hr [(Hneg & _)|(l & ev & error & -> & -> & Hev)]; [lia|].
  right. exists (before ++ l), ev, error. split; [now rewrite app_assoc|].
  split; [reflexivity|]. destruct Hev as [Hev|(tok & errors & l' & -> & -> & Hlen)].
  - now left.
  - right. exists tok, errors, (before ++ l'). repeat split; try assumption.
    now rewrite app_assoc.
Qed.

(** A journal that ends in a throw shows why. *)
Lemma journal_failure {A : Type} m tok delta (r : @result Err A) :
  journal options qid m tok delta r ->
  forall v, r = Threw v -> failure_cause options qid v delta.
Proof.
  induction 1 as [tok|tok Hneg|tok errors error Hlen|tok errors page mid a Hlen Hmid
                 |tok errors page ev error Hlen Hev Hthrew
                 |tok errors page mid rest r Hlen Hmid Hrest IH];
    intros v Hv; try discriminate.
  - injection Hv as <-. now left.
  - injection Hv as <-. right. eexists _, _, error.
    split; [reflexivity|]. split; [reflexivity|]. right.
    exists tok, errors, []. repeat split. exact Hlen.
  - injection Hv as <-. right.
    exists (retries tok errors ++ [EvFetch qid tok (inr page)]), ev, error.
    split; [now rewrite <- app_assoc|]. split; [reflexivity|now left].
  - change (EvFetch qid tok (inr page) :: mid ++ rest)
      with (([EvFetch qid tok (inr page)] ++ mid) ++ rest).
    rewrite app_assoc. apply failure_cause_later; [lia|]. now apply IH.
Qed.

End JournalLemmas.

(** ** The journals of the three loops, against any pager *)

Section LoopJournals.
Context {Err Raw T P C : Type}.
Context {pagerOps : Pager Err Raw T P}.
Variable options : CollectorOptions Err T C.
Variable qid : string.
Variable f : Raw -> T.

Implicit Types w : world Err T P C.

Abbreviation retries tok errors :=
  (retry_trace (T := T) qid tok (retryDelayMs options) errors).

Lemma call_onPage_handled page n w :
  let run := call_onPage options page n w in
  (fst run = Returned tt
   /\ exists mid,
        trace (snd run) = trace w ++ mid
        /\ Forall (handling options Collecting) mid)
  \/ (exists ev error,
        fst run = Threw (Some error)
        /\ trace (snd run) = trace w ++ [ev]
        /\ handling options Collecting ev
        /\ callback_threw ev = Some error).
Proof.
  cbv zeta. unfold call_onPage. destruct (onPage options) as [g|] eqn:Hg.
  - assert (Hh : forall r, handling options Collecting (EvOnPage page n r)).
    { intros r. cbn. rewrite Hg. split; [reflexivity|discriminate]. }
    unfold call. destruct (g page n (user w)) as [[error|[]] c']; cbn [fst snd trace].
    + right. exists (EvOnPage page n (inl error)), error.
      split; [reflexivity|]. split; [reflexivity|]. split; [apply Hh|reflexivity].
    + left. split; [reflexivity|]. exists [EvOnPage page n (inr tt)].
      split; [reflexivity|]. constructor; [apply Hh|constructor].
  - left. split; [reflexivity|]. exists []. cbn. rewrite app_nil_r.
    split; [reflexivity|constructor].
Qed.

Lemma reached_from m (rows : list T) (page : PageResult.t T) :
  (Z.of_nat (length (PageResult.rows page)) >= m - Z.of_nat (length rows))%Z ->
  reached (Some m) (length rows + total_rows [page]) = true.
Proof.
  intros H. unfold reached. rewrite total_rows_cons. unfold page_size, total_rows.
  cbn. destruct (Z.geb_spec (Z.of_nat (length rows + (length (PageResult.rows page) + 0))) m);
    [reflexivity|lia].
Qed.

Lemma not_reached_from m (rows : list T) (page : PageResult.t T) :
  (Z.of_nat (length (PageResult.rows page)) < m - Z.of_nat (length rows))%Z ->
  reached (Some m) (length rows + total_rows [page]) = false.
Proof.
  intros H. unfold reached. rewrite total_rows_cons. unfold page_size, total_rows.
  cbn. destruct (Z.geb_spec (Z.of_nat (length rows + (length (PageResult.rows page) + 0))) m);
    [lia|reflexivity].
Qed.

(** What is known of a run of the bulk-collection loop that starts
    with [rows] collected: its journal, and under a limit not yet
    exceeded, the rows and the flag of a result. *)
Local Abbreviation collecting w rows tok tr0 run :=
  (exists delta,
      trace (snd run) = trace w ++ delta
      /\ journal options qid Collecting tok delta (fst run)
      /\ stops_at_limit options (length rows) (fetched_pages delta)
      /\ (forall m res,
            maxRows options = Some m ->
            Z.le (Z.of_nat (length rows)) m ->
            fst run = Returned res ->
            CollectResult.rows res
            = rows ++ firstn (Z.to_nat (Z.sub m (Z.of_nat (length rows))))
                        (all_rows (fetched_pages delta))
            /\ CollectResult.truncated res
               = orb tr0 (reached (Some m)
                            (length rows + total_rows (fetched_pages delta))))).

Lemma collectWith_loop_journal fuel : forall rows tok pc tr0 w,
  collecting w rows tok tr0 (collectWith_loop options fuel qid f rows tok pc tr0 w).
Proof.
  induction fuel as [|fuel IH]; intros rows tok pc tr0 w.
  - exists []. cbn. rewrite app_nil_r.
    split; [reflexivity|]. split; [constructor|].
    split; [apply stops_at_limit_none|discriminate].
  - cbn [collectWith_loop]. rewrite bind_run.
    destruct (fetch_exact options qid f tok w) as [_ Ht].
    destruct (fetchPageWithRetry options qid f tok w) as [[page|v|] w1];
      cbn [fst snd] in *; [| |contradiction].
    2: { destruct Ht as [(Hneg & -> & ->)|(errors & error & Hlen & -> & Ht)].
         - exists []. rewrite app_nil_r. split; [reflexivity|].
           split; [now constructor|].
           split; [apply stops_at_limit_none|discriminate].
         - eexists. split; [exact Ht|]. split; [now constructor|].
           rewrite failed_fetched_pages.
           split; [apply stops_at_limit_none|discriminate]. }
    destruct Ht as (errors & Hlen & Ht).
    assert (Hcont :
              (forall m, maxRows options = Some m ->
                         (Z.of_nat (length (PageResult.rows page))
                          < m - Z.of_nat (length rows))%Z) ->
              collecting w rows tok tr0
                ((call_onPage options page (length (rows ++ PageResult.rows page)) ;;
                  if truthy (PageResult.nextToken page)
                  then collectWith_loop options fuel qid f
                         (rows ++ PageResult.rows page)
                         (PageResult.nextToken page) (S pc) tr0
                  else collectWith_return (rows ++ PageResult.rows page) (S pc) tr0)
                   w1)).
    { intros Hbelow.
      assert (Hunreached :
                reached (maxRows options) (length rows + page_size page) = false).
      { unfold reached. destruct (maxRows options) as [m|]; [|reflexivity].
        specialize (Hbelow m eq_refl). unfold page_size.
        destruct (Z.geb_spec (Z.of_nat (length rows + length (PageResult.rows page))) m);
          [lia|reflexivity]. }
      rewrite bind_run.
      destruct (call_onPage_handled page (length (rows ++ PageResult.rows page)) w1)
        as [[E (mid & Hmid & Hh)]|(ev & error & E & Hmid & Hh & Hthrew)];
        destruct (call_onPage options page _ w1) as [[[]|v|] w2]; cbn [fst snd] in *;
        try discriminate.
      - destruct (handling_facts qid Hh) as (_ & _ & Hnone & _).
        destruct (truthy (PageResult.nextToken page)) eqn:Htok.
        + destruct (IH (rows ++ PageResult.rows page) (PageResult.nextToken page)
                      (S pc) tr0 w2) as (rest & Hrest & Hj & Hstops & Hdata).
          exists (retries tok errors
                    ++ EvFetch qid tok (inr page) :: mid ++ rest).
          split; [rewrite Hrest, Hmid, Ht; trace_eq|].
          split; [now constructor|].
          rewrite attempts_fetched_pages, fetched_pages_app, Hnone. cbn [app].
          split.
          { apply stops_at_limit_next; [apply Hunreached|].
            unfold page_size. now rewrite <- length_app. }
          intros m res Hm Hle Hres. specialize (Hbelow m Hm).
          destruct (Hdata m res Hm) as [Hrows Htr]; [rewrite length_app; lia|exact Hres|].
          rewrite Hrows, Htr, total_rows_cons, length_app. unfold page_size.
          split; [|now rewrite Nat.add_assoc].
          cbn [all_rows flat_map]. fold (all_rows (fetched_pages rest)).
          rewrite <- app_assoc. f_equal.
          rewrite firstn_app. f_equal; [symmetry; apply firstn_all2; lia|].
          f_equal. lia.
        + cbn [collectWith_return ret Monad_M fst snd].
          exists (retries tok errors ++ EvFetch qid tok (inr page) :: mid).
          split; [rewrite Hmid, Ht; trace_eq|].
          split; [now constructor|].
          rewrite attempts_fetched_pages, Hnone.
          split; [apply stops_at_limit_last|].
          intros m res Hm Hle [= <-]. specialize (Hbelow m Hm).
          cbn [CollectResult.rows CollectResult.truncated].
          rewrite not_reached_from, orb_false_r by exact Hbelow.
          split; [|reflexivity]. f_equal. cbn. rewrite app_nil_r.
          symmetry. apply firstn_all2. lia.
      - injection E as ->.
        exists (retries tok errors ++ EvFetch qid tok (inr page) :: [ev]).
        split; [rewrite Hmid, Ht; trace_eq|].
        split; [now constructor|].
        rewrite attempts_fetched_pages. erewrite handling_not_fetched by exact Hh.
        split; [apply stops_at_limit_last|discriminate]. }
    destruct (maxRows options) as [m|] eqn:Hm; [|apply Hcont; discriminate].
    destruct (Z.geb_spec (Z.of_nat (length (PageResult.rows page)))
                         (m - Z.of_nat (length rows))) as [Hge|Hlt].
    + cbn [collectWith_return ret Monad_M fst snd].
      exists (retries tok errors ++ EvFetch qid tok (inr page) :: []).
      split; [rewrite Ht; trace_eq|]. split; [now constructor|].
      rewrite attempts_fetched_pages.
      split; [apply stops_at_limit_last|].
      intros m' res [= <-] Hle [= <-].
      cbn [CollectResult.rows CollectResult.truncated].
      rewrite reached_from, orb_true_r by lia.
      split; [|reflexivity]. f_equal. rewrite slice_firstn by lia.
      cbn. now rewrite app_nil_r.
    + apply Hcont. intros m' [= <-]. exact Hlt.
Qed.

Lemma allowance_le maxRows count len : allowance maxRows count len <= len.
Proof. unfold allowance. destruct maxRows; lia. Qed.

Lemma allowance_split maxRows count len n :
  allowance maxRows count len = len ->
  allowance maxRows count (len + n) = len + allowance maxRows (count + len) n.
Proof. unfold allowance. destruct maxRows as [m|]; lia. Qed.

(** The streaming loop that starts with [count] rows yielded: its
    journal, and the rows it yields, which are the rows of the pages
    it fetched as far as the limit allows. *)
Lemma stream_loop_journal fuel : forall tok count w,
  let run := stream_loop options fuel qid f tok count w in
  exists delta,
    trace (snd run) = trace w ++ delta
    /\ journal options qid Streaming tok delta (fst run)
    /\ yielded delta
       = firstn (allowance (maxRows options) count
                   (total_rows (fetched_pages delta)))
                (all_rows (fetched_pages delta)).
Proof.
  induction fuel as [|fuel IH]; intros tok count w run; subst run.
  - exists []. cbn. rewrite app_nil_r, firstn_nil.
    split; [reflexivity|]. split; [constructor|reflexivity].
  - cbn [stream_loop]. rewrite bind_run.
    destruct (fetch_exact options qid f tok w) as [_ Ht].
    destruct (fetchPageWithRetry options qid f tok w) as [[page|v|] w1];
      cbn [fst snd] in *; [| |contradiction].
    2: { destruct Ht as [(Hneg & -> & ->)|(errors & error & Hlen & -> & Ht)].
         - exists []. rewrite app_nil_r. split; [reflexivity|].
           split; [now constructor|]. cbn. now rewrite firstn_nil.
         - eexists. split; [exact Ht|]. split; [now constructor|].
           rewrite failed_fetched_pages, yielded_app, yielded_retries.
           cbn. now rewrite firstn_nil. }
    destruct Ht as (errors & Hlen & Ht).
    rewrite bind_run. destruct w1 as [pg c tr1]. rewrite stream_forOf_run.
    cbv zeta. cbn [trace] in Ht.
    set (k := allowance (maxRows options) count (length (PageResult.rows page))).
    set (mid := map (@EvYield Err T) (firstn k (PageResult.rows page))).
    assert (Hh : Forall (handling options Streaming) mid) by apply handling_yields.
    assert (Hy : forall tail,
               yielded (retries tok errors ++ EvFetch qid tok (inr page) :: mid ++ tail)
               = firstn k (PageResult.rows page) ++ yielded tail).
    { intros tail. rewrite yielded_app, yielded_retries, yielded_fetch, yielded_app.
      unfold mid. now rewrite yielded_map_EvYield. }
    assert (Hlast :
              exists delta,
                tr1 ++ mid = trace w ++ delta
                /\ journal options qid Streaming tok delta (@Returned Err _ tt)
                /\ yielded delta
                   = firstn (allowance (maxRows options) count
                               (total_rows (fetched_pages delta)))
                            (all_rows (fetched_pages delta))).
    { exists (retries tok errors ++ EvFetch qid tok (inr page) :: mid).
      split; [rewrite Ht; trace_eq|]. split; [now constructor|].
      rewrite <- (app_nil_r mid) at 1. rewrite Hy, attempts_fetched_pages.
      destruct (handling_facts qid Hh) as (_ & _ & -> & _).
      rewrite total_rows_cons. unfold page_size. cbn.
      now rewrite !app_nil_r, Nat.add_0_r. }
    destruct (Nat.ltb_spec k (length (PageResult.rows page))) as [Hlt|Hge];
      [exact Hlast|].
    destruct (truthy (PageResult.nextToken page)) eqn:Htok; [|exact Hlast].
    assert (Hk : k = length (PageResult.rows page)).
    { pose proof (allowance_le (maxRows options) count
                    (length (PageResult.rows page))). unfold k in *. lia. }
    match goal with
    | |- context [stream_loop options fuel qid f ?t ?n ?w'] =>
        destruct (IH t n w') as (rest & Hrest & Hj & Hyield)
    end.
    exists (retries tok errors ++ EvFetch qid tok (inr page) :: mid ++ rest).
    split; [rewrite Hrest; cbn [trace]; rewrite Ht; trace_eq|].
    split; [now constructor|].
    rewrite Hy, Hyield, attempts_fetched_pages, fetched_pages_app.
    destruct (handling_facts qid Hh) as (_ & _ & -> & _). cbn [app].
    rewrite total_rows_cons. unfold page_size.
    rewrite allowance_split by (fold k; exact Hk).
    cbn [all_rows flat_map]. fold (all_rows (fetched_pages rest)).
    rewrite firstn_app_2, Hk, firstn_all. reflexivity.
Qed.

(** The batch loop that starts with [total] rows counted: its
    journal, and that with a [batchProcessor] that leaves the length
    of its batches as it was it fetches no page after the one with
    which the limit is reached. *)
Lemma processBatches_loop_journal bp fuel : forall tok pc total w,
  let run := processBatches_loop options fuel qid f bp tok pc total w in
  exists delta,
    trace (snd run) = trace w ++ delta
    /\ journal options qid Batching tok delta (fst run)
    /\ (keeps_length bp -> stops_at_limit options total (fetched_pages delta)).
Proof.
  induction fuel as [|fuel IH]; intros tok pc total w run; subst run.
  - exists []. cbn. rewrite app_nil_r.
    split; [reflexivity|]. split; [constructor|intros _; apply stops_at_limit_none].
  - cbn [processBatches_loop]. rewrite bind_run.
    destruct (fetch_exact options qid f tok w) as [_ Ht].
    destruct (fetchPageWithRetry options qid f tok w) as [[page|v|] w1];
      cbn [fst snd] in *; [| |contradiction].
    2: { destruct Ht as [(Hneg & -> & ->)|(errors & error & Hlen & -> & Ht)].
         - exists []. rewrite app_nil_r. split; [reflexivity|].
           split; [now constructor|intros _; apply stops_at_limit_none].
         - eexists. split; [exact Ht|]. split; [now constructor|].
           intros _. rewrite failed_fetched_pages. apply stops_at_limit_none. }
    destruct Ht as (errors & Hlen & Ht).
    rewrite bind_run.
    assert (Hh : forall r, handling options Batching
                             (EvBatch (PageResult.rows page) pc r))
      by reflexivity.
    destruct (call_batchProcessor_general bp (PageResult.rows page) pc w1)
      as (r & Hmid & [(rows' & E & Hr)|(error & E & Hr)]);
      destruct (call_batchProcessor bp (PageResult.rows page) pc w1)
        as [[left|v|] w2] eqn:Ecall;
      cbn [fst snd] in *; try discriminate.
    + injection E as ->.
      assert (Hlast : forall res : BatchResult.t,
                 exists delta,
                   trace w2 = trace w ++ delta
                   /\ journal options qid Batching tok delta (@Returned Err _ res)
                   /\ (keeps_length bp ->
                       stops_at_limit options total (fetched_pages delta))).
      { intros res.
        exists (retries tok errors ++ EvFetch qid tok (inr page)
                  :: [EvBatch (PageResult.rows page) pc r]).
        split; [rewrite Hmid, Ht; trace_eq|].
        split; [constructor; [exact Hlen|constructor; [apply Hh|constructor]]|].
        intros _. rewrite attempts_fetched_pages. apply stops_at_limit_last. }
      destruct (reached (maxRows options) (total + length rows'))
        eqn:Hreached; [apply Hlast|].
      destruct (truthy (PageResult.nextToken page)) eqn:Htok; [|apply Hlast].
      match goal with
      | |- context [processBatches_loop options fuel qid f bp ?t ?n ?m ?w'] =>
          destruct (IH t n m w') as (rest & Hrest & Hj & Hstops)
      end.
      exists (retries tok errors ++ EvFetch qid tok (inr page)
                :: [EvBatch (PageResult.rows page) pc r] ++ rest).
      split; [rewrite Hrest, Hmid, Ht; trace_eq|].
      split; [constructor;
              [exact Hlen|constructor; [apply Hh|constructor]|exact Hj]|].
      intros Hk. rewrite attempts_fetched_pages. cbn [app].
      change (fetched_pages (EvBatch (PageResult.rows page) pc r :: rest))
        with (fetched_pages rest).
      pose proof (call_batchProcessor_kept _ _ _ Hk Ecall) as Hkept.
      rewrite Hkept in Hreached, Hstops.
      apply stops_at_limit_next; [exact Hreached|exact (Hstops Hk)].
    + injection E as ->.
      exists (retries tok errors ++ EvFetch qid tok (inr page)
                :: [EvBatch (PageResult.rows page) pc r]).
      split; [rewrite Hmid, Ht; trace_eq|].
      split; [constructor; [exact Hlen|apply Hh|subst r; reflexivity]|].
      intros _. rewrite attempts_fetched_pages. apply stops_at_limit_last.
Qed.

End LoopJournals.

(** ** The calls, against any pager *)

Section Calls.
Context {Err Raw T P C : Type}.
Context {pagerOps : Pager Err Raw T P}.
Variable options : CollectorOptions Err T C.
Variable qid : string.
Variable f : Raw -> T.

Implicit Types w : world Err T P C.

Lemma collectWith_journal fuel w :
  let run := collectWith options fuel qid f w in
  exists delta,
    trace (snd run) = trace w ++ EvReset :: delta
    /\ journal options qid Collecting None delta (fst run)
    /\ stops_at_limit options 0 (fetched_pages delta)
    /\ (forall m res,
          maxRows options = Some m ->
          (0 <= m)%Z ->
          fst run = Returned res ->
          CollectResult.rows res = limit (Some m) (all_rows (fetched_pages delta))
          /\ CollectResult.truncated res
             = reached (Some m) (total_rows (fetched_pages delta))).
Proof.
  unfold collectWith. rewrite bind_run. cbn [pager_reset].
  match goal with
  | |- context [collectWith_loop options fuel qid f ?r ?t ?n ?b ?w'] =>
      destruct (collectWith_loop_journal options qid f fuel r t n b w')
        as (delta & Ht & Hj & Hstops & Hdata)
  end.
  exists delta. split; [rewrite Ht; cbn [trace]; trace_eq|].
  split; [exact Hj|]. split; [exact Hstops|].
  intros m res Hm Hpos Hres. destruct (Hdata m res Hm Hpos Hres) as [Hrows Htr].
  cbn in Hrows, Htr. rewrite Z.sub_0_r in Hrows. now split.
Qed.

Lemma stream_journal fuel w :
  let run := stream options fuel qid f w in
  exists delta,
    trace (snd run) = trace w ++ EvReset :: delta
    /\ journal options qid Streaming None delta (fst run)
    /\ yielded delta = limit (maxRows options) (all_rows (fetched_pages delta)).
Proof.
  unfold stream. rewrite bind_run. cbn [pager_reset].
  match goal with
  | |- context [stream_loop options fuel qid f ?t ?n ?w'] =>
      destruct (stream_loop_journal options qid f fuel t n w')
        as (delta & Ht & Hj & Hy)
  end.
  exists delta. split; [rewrite Ht; cbn [trace]; trace_eq|].
  split; [exact Hj|]. rewrite Hy. symmetry. apply limit_allowance.
Qed.

Lemma processBatches_journal bp fuel w :
  let run := processBatches options fuel qid f bp w in
  exists delta,
    trace (snd run) = trace w ++ EvReset :: delta
    /\ journal options qid Batching None delta (fst run)
    /\ (keeps_length bp -> stops_at_limit options 0 (fetched_pages delta)).
Proof.
  unfold processBatches. rewrite bind_run. cbn [pager_reset].
  match goal with
  | |- context [processBatches_loop options fuel qid f bp ?t ?n ?m ?w'] =>
      destruct (processBatches_loop_journal options qid f bp fuel t n m w')
        as (delta & Ht & Hj & Hstops)
  end.
  exists delta. split; [rewrite Ht; cbn [trace]; trace_eq|].
  split; [exact Hj|exact Hstops].
Qed.

(** However the pager answers, [fetchPageWithRetry] makes its
    attempts with the arguments it was given, waits [retryDelayMs]
    after every failed attempt but the last one it is allowed, and
    ends with the first page it gets or with the error of attempt
    [retryCount + 1]; it does not touch the caller's state.  With a
    negative [retryCount] it makes no attempt and throws
    [undefined]. *)
Theorem fetchPageWithRetry_paces_attempts tok w :
  let run := fetchPageWithRetry options qid f tok w in
  ((retryCount options < 0)%Z -> run = (Threw None, w))
  /\ ((0 <= retryCount options)%Z ->
      exists errors last,
        trace (snd run)
        = trace w ++ retry_trace qid tok (retryDelayMs options) errors
                  ++ [EvFetch qid tok last]
        /\ (Z.of_nat (length errors) <= retryCount options)%Z
        /\ user (snd run) = user w
        /\ match last with
           | inr page => fst run = Returned page
           | inl error =>
               fst run = Threw (Some error)
               /\ Z.of_nat (length errors) = retryCount options
           end).
Proof.
  cbv zeta. destruct (fetch_exact options qid f tok w) as [Hu Ht].
  destruct (fetchPageWithRetry options qid f tok w) as [[page|v|] w1];
    cbn [fst snd] in *; [| |contradiction].
  - split; [intros Hneg; destruct Ht as (errors & Hlen & _); lia|].
    intros _. destruct Ht as (errors & Hlen & Ht).
    exists errors, (inr page). repeat split; assumption.
  - destruct Ht as [(Hneg & -> & ->)|(errors & error & Hlen & -> & Ht)].
    + split; [reflexivity|lia].
    + split; [lia|]. intros _. exists errors, (inl error).
      repeat split; try assumption. lia.
Qed.

(** In every mode the first fetch is given no token and every later
    one the token of the page fetched before it; a retried attempt
    repeats the token of the failed one. *)
Theorem fetches_follow_tokens fuel bp w :
  let follows (A : Type) (run : @result Err A * world Err T P C) :=
    exists delta,
      trace (snd run) = trace w ++ EvReset :: delta /\ chained None delta in
  follows _ (collectWith options fuel qid f w)
  /\ follows _ (stream options fuel qid f w)
  /\ follows _ (processBatches options fuel qid f bp w).
Proof.
  cbv zeta. repeat split.
  - destruct (collectWith_journal fuel w) as (delta & Ht & Hj & _).
    exists delta. split; [exact Ht|]. eapply journal_chained; exact Hj.
  - destruct (stream_journal fuel w) as (delta & Ht & Hj & _).
    exists delta. split; [exact Ht|]. eapply journal_chained; exact Hj.
  - destruct (processBatches_journal bp fuel w) as (delta & Ht & Hj & _).
    exists delta. split; [exact Ht|]. eapply journal_chained; exact Hj.
Qed.

(** A call resets the pager once, before anything else.  After that
    it only fetches pages of the query it was given, waits
    [retryDelayMs], and handles pages its own way: [collectWith]
    calls [onPage] (only when one is configured) and nothing else,
    [stream] only yields, [processBatches] only calls
    [batchProcessor]. *)
Theorem calls_keep_to_their_mode fuel bp w :
  let keeps (m : mode) (A : Type) (run : @result Err A * world Err T P C) :=
    exists delta,
      trace (snd run) = trace w ++ EvReset :: delta
      /\ Forall (permitted options qid m) delta in
  keeps Collecting _ (collectWith options fuel qid f w)
  /\ keeps Streaming _ (stream options fuel qid f w)
  /\ keeps Batching _ (processBatches options fuel qid f bp w).
Proof.
  cbv zeta. repeat split.
  - destruct (collectWith_journal fuel w) as (delta & Ht & Hj & _).
    exists delta. split; [exact Ht|]. eapply journal_permitted; exact Hj.
  - destruct (stream_journal fuel w) as (delta & Ht & Hj & _).
    exists delta. split; [exact Ht|]. eapply journal_permitted; exact Hj.
  - destruct (processBatches_journal bp fuel w) as (delta & Ht & Hj & _).
    exists delta. split; [exact Ht|]. eapply journal_permitted; exact Hj.
Qed.

(** A call throws only what a callback or the pager raised: the
    last event of its trace is the callback invocation that raised
    the error, or the last of [retryCount + 1] failed attempts at
    one page, whose error it is.  (With a negative [retryCount] it
    throws [undefined] before any attempt.) *)
Theorem failures_have_a_cause fuel bp w :
  let explained (A : Type) (run : @result Err A * world Err T P C) :=
    forall v,
      fst run = Threw v ->
      exists delta,
        trace (snd run) = trace w ++ EvReset :: delta
        /\ failure_cause options qid v delta in
  explained _ (collectWith options fuel qid f w)
  /\ explained _ (stream options fuel qid f w)
  /\ explained _ (processBatches options fuel qid f bp w).
Proof.
  cbv zeta. repeat split; intros v Hv.
  - destruct (collectWith_journal fuel w) as (delta & Ht & Hj & _).
    exists delta. split; [exact Ht|]. eapply journal_failure; [exact Hj|exact Hv].
  - destruct (stream_journal fuel w) as (delta & Ht & Hj & _).
    exists delta. split; [exact Ht|]. eapply journal_failure; [exact Hj|exact Hv].
  - destruct (processBatches_journal bp fuel w) as (delta & Ht & Hj & _).
    exists delta. split; [exact Ht|]. eapply journal_failure; [exact Hj|exact Hv].
Qed.

(** Attempts, waits and pages of a call: every failed attempt is
    followed by a wait, except the one the call gives up on; no
    page takes more than [retryCount + 1] attempts; and a call that
    returns has waited after each of its failed attempts. *)
Theorem attempts_are_bounded fuel bp w :
  let bounded (A : Type) (run : @result Err A * world Err T P C) :=
    exists delta,
      trace (snd run) = trace w ++ EvReset :: delta
      /\ let attempts := fetch_calls delta in
         let waits := length (sleeps delta) in
         let pages := length (fetched_pages delta) in
         waits + pages <= attempts <= waits + pages + 1
         /\ attempts <= (Z.to_nat (retryCount options) + 1) * S pages
         /\ (forall a, fst run = Returned a -> attempts = waits + pages) in
  bounded _ (collectWith options fuel qid f w)
  /\ bounded _ (stream options fuel qid f w)
  /\ bounded _ (processBatches options fuel qid f bp w).
Proof.
  cbv zeta. repeat split.
  - destruct (collectWith_journal fuel w) as (delta & Ht & Hj & _).
    exists delta. split; [exact Ht|]. eapply journal_counts; exact Hj.
  - destruct (stream_journal fuel w) as (delta & Ht & Hj & _).
    exists delta. split; [exact Ht|]. eapply journal_counts; exact Hj.
  - destruct (processBatches_journal bp fuel w) as (delta & Ht & Hj & _).
    exists delta. split; [exact Ht|]. eapply journal_counts; exact Hj.
Qed.

(** However the pager answers and however the stream ends, the
    rows it has yielded are the rows of the pages it has fetched,
    in order and cut at [maxRows]; it never yields more than
    [maxRows] rows, and none when [maxRows] is zero or negative. *)
Theorem stream_yields_what_it_fetched fuel w :
  let run := stream options fuel qid f w in
  exists delta,
    trace (snd run) = trace w ++ EvReset :: delta
    /\ yielded delta = limit (maxRows options) (all_rows (fetched_pages delta))
    /\ (forall m, maxRows options = Some m ->
          length (yielded delta) <= Z.to_nat m).
Proof.
  cbv zeta. destruct (stream_journal fuel w) as (delta & Ht & _ & Hy).
  exists delta. split; [exact Ht|]. split; [exact Hy|].
  intros m Hm. rewrite Hy, Hm. cbn [limit]. rewrite length_firstn. lia.
Qed.

(** With a limit [maxRows >= 0], whatever the pager answers: the
    rows of a result are the first [maxRows] rows of the pages
    fetched, [truncated] tells whether these pages hold [maxRows]
    rows or more (also when they hold exactly [maxRows], and no row
    was dropped), [pageCount] counts the pages fetched (failed
    attempts are not counted), and a truncated result holds exactly
    [maxRows] rows. *)
Theorem collectWith_rows_under_limit fuel w m res :
  maxRows options = Some m ->
  (0 <= m)%Z ->
  fst (collectWith options fuel qid f w) = Returned res ->
  exists delta,
    trace (snd (collectWith options fuel qid f w)) = trace w ++ EvReset :: delta
    /\ CollectResult.rows res = limit (Some m) (all_rows (fetched_pages delta))
    /\ CollectResult.truncated res
       = reached (Some m) (total_rows (fetched_pages delta))
    /\ CollectResult.pageCount res = length (fetched_pages delta)
    /\ (Z.of_nat (CollectResult.totalRows res) <= m)%Z
    /\ (CollectResult.truncated res = true ->
        Z.of_nat (CollectResult.totalRows res) = m).
Proof.
  intros Hm Hpos Hres.
  destruct (collectWith_journal fuel w) as (delta & Ht & _ & _ & Hdata).
  destruct (Hdata m res Hm Hpos Hres) as [Hrows Htr].
  exists delta. split; [exact Ht|]. split; [exact Hrows|]. split; [exact Htr|].
  split.
  { destruct (collectWith_general options qid f fuel w) as (g & Hg & _ & Hcount & _).
    rewrite Ht in Hg. apply app_inv_head in Hg. injection Hg as <-.
    now destruct (Hcount res Hres) as (_ & Hpc & _). }
  rewrite (collectWith_totalRows _ _ _ _ _ Hres), Hrows. cbn [limit].
  rewrite length_firstn. fold (total_rows (fetched_pages delta)).
  split; [lia|]. rewrite Htr. intros Hreached.
  apply reached_true_ge in Hreached. lia.
Qed.

(** Whatever the pager answers, [collectWith] fetches no page after
    the one with which the row limit is reached.  [processBatches]
    counts what the array it handed to [batchProcessor] holds when
    the call has completed: nothing follows the call with which that
    count reaches the limit, and with a [batchProcessor] that leaves
    the length of its batches as it was no page is fetched after the
    one with which the limit is reached. *)
Theorem limit_ends_fetching fuel bp w :
  (exists delta,
      trace (snd (collectWith options fuel qid f w)) = trace w ++ EvReset :: delta
      /\ stops_at_limit options 0 (fetched_pages delta))
  /\ (exists delta,
        trace (snd (processBatches options fuel qid f bp w))
        = trace w ++ EvReset :: delta
        /\ (forall before rows pageIndex rows' after,
              delta = before ++ EvBatch rows pageIndex (inr rows') :: after ->
              reached (maxRows options) (counted before + length rows') = true ->
              after = [])
        /\ (keeps_length bp -> stops_at_limit options 0 (fetched_pages delta))).
Proof.
  split.
  - destruct (collectWith_journal fuel w) as (delta & Ht & _ & Hstops & _).
    exists delta. split; [exact Ht|exact Hstops].
  - destruct (processBatches_journal bp fuel w) as (delta & Ht & _ & Hstops).
    destruct (processBatches_general options qid f bp fuel w)
      as (delta' & Ht' & _ & _ & _ & _ & Hh).
    rewrite Ht in Ht'. apply app_inv_head in Ht'. injection Ht' as <-.
    exists delta. split; [exact Ht|]. split; [|exact Hstops].
    intros before rows pageIndex rows' after E Hr. subst delta.
    eapply halts_before; [exact Hh|exact Hr].
Qed.

Lemma fetch_without_attempt tok w :
  (retryCount options < 0)%Z ->
  fetchPageWithRetry options qid f tok w = (Threw None, w).
Proof.
  intros Hneg. unfold fetchPageWithRetry.
  now replace (Z.to_nat (retryCount options + 1)) with 0 by lia.
Qed.

(** With a negative [retryCount] the retry loop is not entered: every
    call resets the pager and throws [undefined] without a single
    fetch. *)
Theorem negative_retryCount_makes_no_attempt fuel bp w :
  (retryCount options < 0)%Z ->
  1 <= fuel ->
  let aborted := World (reset (pager w)) (user w) (trace w ++ [EvReset]) in
  collectWith options fuel qid f w = (Threw None, aborted)
  /\ stream options fuel qid f w = (Threw None, aborted)
  /\ processBatches options fuel qid f bp w = (Threw None, aborted).
Proof.
  intros Hneg Hfuel aborted. destruct fuel as [|fuel]; [lia|].
  unfold collectWith, stream, processBatches. rewrite !bind_run.
  cbn [pager_reset collectWith_loop stream_loop processBatches_loop].
  rewrite !bind_run, !fetch_without_attempt by exact Hneg.
  repeat split.
Qed.

Lemma slice_negative {A : Type} (l : list A) (r : Z) :
  (r < 0)%Z -> slice l 0 r = firstn (length l - Z.to_nat (- r)) l.
Proof.
  intros Hr. unfold slice.
  destruct (Z.ltb_spec r 0); [|lia]. cbn [Z.ltb Z.compare].
  rewrite (Z.min_l 0) by lia. cbn [Z.to_nat skipn]. f_equal. lia.
Qed.

(** A negative [maxRows] is met by the first page, whatever it
    holds: [collectWith] returns after one page with that page
    less its last [-maxRows] rows, counted as truncated; [stream]
    yields nothing; [processBatches] processes one page. *)
Theorem negative_maxRows_stops_at_first_page fuel bp w m :
  maxRows options = Some m ->
  (m < 0)%Z ->
  (forall res,
      fst (collectWith options fuel qid f w) = Returned res ->
      exists delta page,
        trace (snd (collectWith options fuel qid f w)) = trace w ++ EvReset :: delta
        /\ fetched_pages delta = [page]
        /\ let kept := firstn (length (PageResult.rows page) - Z.to_nat (- m))
                              (PageResult.rows page) in
           res = CollectResult.mk kept (length kept) 1 true)
  /\ (exists delta,
        trace (snd (stream options fuel qid f w)) = trace w ++ EvReset :: delta
        /\ yielded delta = [])
  /\ (forall res,
        fst (processBatches options fuel qid f bp w) = Returned res ->
        BatchResult.pageCount res = 1).
Proof.
  intros Hm Hneg. split; [|split].
  - intros res. unfold collectWith. rewrite bind_run. cbn [pager_reset].
    destruct fuel as [|fuel]; [discriminate|].
    cbn [collectWith_loop]. rewrite bind_run.
    match goal with
    | |- context [fetchPageWithRetry options qid f None ?w'] =>
        destruct (fetch_exact options qid f None w') as [_ Ht];
        destruct (fetchPageWithRetry options qid f None w') as [[page|v|] w1]
    end; cbn [fst snd trace] in *; try discriminate.
    destruct Ht as (errors & Hlen & Ht). rewrite Hm.
    destruct (Z.geb_spec (Z.of_nat (length (PageResult.rows page)))
                         (m - Z.of_nat (length (@nil T)))) as [_|Hlt];
      [|cbn in Hlt; lia].
    cbn [collectWith_return ret Monad_M fst snd]. intros [= <-].
    exists (retry_trace qid None (retryDelayMs options) errors
              ++ [EvFetch qid None (inr page)]), page.
    split; [rewrite Ht; trace_eq|].
    split; [now rewrite attempts_fetched_pages|].
    cbn [app length Z.of_nat]. rewrite Z.sub_0_r, slice_negative by exact Hneg.
    reflexivity.
  - destruct (stream_journal fuel w) as (delta & Ht & _ & Hy).
    exists delta. split; [exact Ht|]. rewrite Hy, Hm. cbn [limit].
    now replace (Z.to_nat m) with 0 by lia.
  - intros res. unfold processBatches. rewrite bind_run. cbn [pager_reset].
    destruct fuel as [|fuel]; [discriminate|].
    cbn [processBatches_loop]. rewrite bind_run.
    match goal with
    | |- context [fetchPageWithRetry options qid f None ?w'] =>
        destruct (fetchPageWithRetry options qid f None w') as [[page|v|] w1]
    end; cbn [fst snd]; try discriminate.
    rewrite bind_run.
    destruct (call_batchProcessor bp (PageResult.rows page) 0 w1)
      as [[rows'|v|] w2]; cbn [fst snd]; try discriminate.
    rewrite Hm. unfold reached.
    destruct (Z.geb_spec (Z.of_nat (0 + length rows')) m); [|lia].
    now intros [= <-].
Qed.

End Calls.

(** ** The modes side by side, from the same state of the pager *)

Section SideBySide.
Context {Err Raw T P C : Type}.
Context {pagerOps : Pager Err Raw T P}.
Variable options : CollectorOptions Err T C.
Variable qid : string.
Variable f : Raw -> T.

Implicit Types (p : P) (c : C) (tr : list (event Err T)).

(** The retried fetch depends on the pager only: the caller's state
    and the trace so far are carried along. *)
Lemma fetch_for_frame tok n : forall a last p,
  exists r p' d,
    yielded d = []
    /\ forall c tr,
         fetchPageWithRetry_for options n a last qid f tok (World p c tr)
         = (r, World p' c (tr ++ d)).
Proof.
  induction n as [|n IH]; intros a last p.
  - exists (Threw last), p, []. split; [reflexivity|].
    intros c tr. cbn. now rewrite app_nil_r.
  - destruct (fetchPageWith qid f tok p) as [[e|page] p1] eqn:E.
    + destruct (IH (a + 1)%Z (Some e) p1) as (r & p' & d & Hy & Hrun).
      exists r, p',
        (EvFetch qid tok (inl e)
           :: (if (a <? retryCount options)%Z
               then [EvSleep (retryDelayMs options)] else []) ++ d).
      split; [now destruct (a <? retryCount options)%Z|].
      intros c tr. rewrite fetch_for_S. cbn [pager user trace]. rewrite E.
      rewrite Hrun. f_equal. f_equal. trace_eq.
    + exists (Returned page), p1, [EvFetch qid tok (inr page)].
      split; [reflexivity|].
      intros c tr. rewrite fetch_for_S. cbn [pager user trace]. now rewrite E.
Qed.

Lemma fetch_frame tok p :
  exists r p' d,
    yielded d = []
    /\ forall c tr,
         fetchPageWithRetry options qid f tok (World p c tr)
         = (r, World p' c (tr ++ d)).
Proof. apply fetch_for_frame. Qed.

Lemma onPage_returns (Hcb : onPage_never_throws options) (page : PageResult.t T)
    n p c tr :
  exists c',
    call_onPage (P := P) options page n (World p c tr)
    = (Returned tt, World p c' (tr ++ onPage_events options page n)).
Proof.
  unfold onPage_events, call_onPage. unfold onPage_never_throws in Hcb.
  destruct (onPage options) as [g|] eqn:E.
  - specialize (Hcb g eq_refl page n c). unfold call. cbn.
    destruct (g page n c) as [r c']. cbn in Hcb. subst r. eexists; reflexivity.
  - exists c. cbn. now rewrite app_nil_r.
Qed.

Lemma batchProcessor_returns (bp : processor Err T C) (Hbp : completes bp)
    (Hkeeps : keeps_length bp) (rows : list T) i p c tr :
  exists c' rows',
    length rows' = length rows
    /\ call_batchProcessor bp rows i (World p c tr)
       = (Returned rows', World p c' (tr ++ [EvBatch rows i (inr rows')])).
Proof.
  unfold call_batchProcessor. cbn [user trace pager].
  destruct (Hbp rows i c) as [rows' Hr]. pose proof (Hkeeps rows i c rows' Hr) as Hl.
  destruct (bp rows i c) as [r c']. cbn [fst] in Hr. subst r.
  exists c', rows'. split; [exact Hl|reflexivity].
Qed.

Lemma onPage_events_not_fetches (page : PageResult.t T) n :
  filter is_fetch (onPage_events options page n) = [].
Proof. unfold onPage_events. now destruct (onPage options). Qed.

Lemma yields_not_fetches (rows : list T) :
  filter is_fetch (map (@EvYield Err T) rows) = [].
Proof. induction rows as [|r rows IH]; [reflexivity|exact IH]. Qed.

Lemma fetched_pages_of_fetches tr :
  fetched_pages (filter is_fetch tr) = fetched_pages tr.
Proof.
  induction tr as [|e tr IH]; [reflexivity|].
  destruct e; cbn; try exact IH. unfold fetched_pages in *. cbn. now rewrite IH.
Qed.

(** Bulk collection and batch processing, turn by turn: the same
    fetches with the same answers, and the same end. *)
Lemma collect_batches_alike (Hcb : onPage_never_throws options)
    (bp : processor Err T C) (Hbp : completes bp) (Hkeeps : keeps_length bp) fuel :
  forall rows tok pc (tr0 : bool) total p c1 tr1 c2 tr2,
    length rows = total ->
    let rc := collectWith_loop options fuel qid f rows tok pc tr0 (World p c1 tr1) in
    let rb := processBatches_loop options fuel qid f bp tok pc total
                (World p c2 tr2) in
    pager (snd rc) = pager (snd rb)
    /\ (exists d1 d2,
          trace (snd rc) = tr1 ++ d1
          /\ trace (snd rb) = tr2 ++ d2
          /\ filter is_fetch d1 = filter is_fetch d2)
    /\ match fst rc, fst rb with
       | Returned res, Returned b =>
           CollectResult.pageCount res = BatchResult.pageCount b
       | Threw v, Threw v' => v = v'
       | OutOfFuel, OutOfFuel => True
       | _, _ => False
       end.
Proof.
  induction fuel as [|fuel IH]; intros rows tok pc tr0 total p c1 tr1 c2 tr2 Hlen.
  - cbn. split; [reflexivity|]. split; [|exact I].
    exists [], []. now rewrite !app_nil_r.
  - cbv zeta. cbn [collectWith_loop processBatches_loop]. rewrite !bind_run.
    destruct (fetch_frame tok p) as (r & p' & d & _ & Hfetch). rewrite !Hfetch.
    destruct r as [page|v|].
    2: { cbn. split; [reflexivity|]. split; [|reflexivity].
         exists d, d. repeat split. }
    2: { cbn. split; [reflexivity|]. split; [|exact I].
         exists d, d. repeat split. }
    rewrite bind_run.
    destruct (batchProcessor_returns Hbp Hkeeps (PageResult.rows page) pc p' c2
                (tr2 ++ d)) as (c2' & left & Hleft & ->).
    cbv zeta. rewrite Hleft.
    assert (Htest :
              reached (maxRows options) (total + length (PageResult.rows page))
              = match maxRows options with
                | Some m => (Z.of_nat (length (PageResult.rows page))
                             >=? m - Z.of_nat (length rows))%Z
                | None => false
                end).
    { unfold reached. destruct (maxRows options) as [m|]; [|reflexivity].
      subst total.
      destruct (Z.geb_spec (Z.of_nat (length rows + length (PageResult.rows page))) m),
               (Z.geb_spec (Z.of_nat (length (PageResult.rows page)))
                           (m - Z.of_nat (length rows))); try reflexivity; lia. }
    rewrite Htest.
    assert (Hstop : forall rows' t,
               pager (snd (collectWith_return (C := C) rows' (S pc) t
                             (World p' c1 (tr1 ++ d))))
               = p'
               /\ (exists d1 d2,
                     tr1 ++ d = tr1 ++ d1
                     /\ (tr2 ++ d) ++ [EvBatch (PageResult.rows page) pc (inr left)]
                        = tr2 ++ d2
                     /\ filter is_fetch d1 = filter is_fetch d2)
               /\ S pc = S pc).
    { intros rows' t. split; [reflexivity|]. split; [|reflexivity].
      exists d, (d ++ [EvBatch (PageResult.rows page) pc (inr left)]).
      split; [reflexivity|]. split; [now rewrite app_assoc|].
      rewrite filter_app. cbn. now rewrite app_nil_r. }
    assert (Hcont :
              let rc := (call_onPage options page
                           (length (rows ++ PageResult.rows page)) ;;
                         if truthy (PageResult.nextToken page)
                         then collectWith_loop options fuel qid f
                                (rows ++ PageResult.rows page)
                                (PageResult.nextToken page) (S pc) tr0
                         else collectWith_return (rows ++ PageResult.rows page)
                                (S pc) tr0)
                          (World p' c1 (tr1 ++ d)) in
              let rb := (if truthy (PageResult.nextToken page)
                         then processBatches_loop options fuel qid f bp
                                (PageResult.nextToken page) (S pc)
                                (total + length (PageResult.rows page))
                         else ret (BatchResult.mk
                                     (total + length (PageResult.rows page)) (S pc)))
                          (World p' c2'
                             ((tr2 ++ d)
                                ++ [EvBatch (PageResult.rows page) pc (inr left)])) in
              pager (snd rc) = pager (snd rb)
              /\ (exists d1 d2,
                    trace (snd rc) = tr1 ++ d1
                    /\ trace (snd rb) = tr2 ++ d2
                    /\ filter is_fetch d1 = filter is_fetch d2)
              /\ match fst rc, fst rb with
                 | Returned res, Returned b =>
                     CollectResult.pageCount res = BatchResult.pageCount b
                 | Threw v, Threw v' => v = v'
                 | OutOfFuel, OutOfFuel => True
                 | _, _ => False
                 end).
    { cbv zeta. rewrite bind_run.
      destruct (onPage_returns Hcb page (length (rows ++ PageResult.rows page))
                  p' c1 (tr1 ++ d)) as [c1' ->].
      destruct (truthy (PageResult.nextToken page)).
      - match goal with
        | |- context [collectWith_loop options fuel qid f ?r ?t ?n ?b
                        (World ?q ?u1 ?t1)] =>
            match goal with
            | |- context [processBatches_loop options fuel qid f bp t n ?m
                            (World q ?u2 ?t2)] =>
                destruct (IH r t n b m q u1 t1 u2 t2) as (Hp & (d1 & d2 & H1 & H2 & Hd) & Hr)
            end
        end.
        { rewrite length_app. now subst total. }
        split; [exact Hp|]. split; [|exact Hr].
        exists (d ++ onPage_events options page
                       (length (rows ++ PageResult.rows page)) ++ d1),
               (d ++ [EvBatch (PageResult.rows page) pc (inr left)] ++ d2).
        split; [rewrite H1; trace_eq|]. split; [rewrite H2; trace_eq|].
        rewrite !filter_app, onPage_events_not_fetches, Hd. reflexivity.
      - cbn. split; [reflexivity|]. split; [|reflexivity].
        exists (d ++ onPage_events options page
                       (length (rows ++ PageResult.rows page))),
               (d ++ [EvBatch (PageResult.rows page) pc (inr left)]).
        split; [now rewrite app_assoc|]. split; [now rewrite app_assoc|].
        rewrite !filter_app, onPage_events_not_fetches. reflexivity. }
    destruct (maxRows options) as [m|]; [|exact Hcont].
    destruct (_ >=? _)%Z; [apply Hstop|exact Hcont].
Qed.

(** Bulk collection and streaming, turn by turn: the stream makes
    the fetches of the collection, and possibly more once the limit
    is reached; what it yields is what the collection appends. *)
Lemma collect_stream_alike (Hcb : onPage_never_throws options) fuel :
  forall rows tok pc (tr0 : bool) count p c1 tr1 c2 tr2,
    length rows = count ->
    (forall m, maxRows options = Some m -> (Z.of_nat count <= m)%Z) ->
    let rc := collectWith_loop options fuel qid f rows tok pc tr0 (World p c1 tr1) in
    let rs := stream_loop options fuel qid f tok count (World p c2 tr2) in
    exists d1 d2 more,
      trace (snd rc) = tr1 ++ d1
      /\ trace (snd rs) = tr2 ++ d2
      /\ filter is_fetch d2 = filter is_fetch d1 ++ more
      /\ match fst rc with
         | Returned res =>
             CollectResult.rows res = rows ++ yielded d2
             /\ (more <> [] -> CollectResult.truncated res = true)
         | Threw v =>
             fst rs = Threw v /\ more = [] /\ pager (snd rc) = pager (snd rs)
         | OutOfFuel => fst rs = OutOfFuel /\ more = []
         end.
Proof.
  induction fuel as [|fuel IH];
    intros rows tok pc tr0 count p c1 tr1 c2 tr2 Hlen Hwithin.
  - exists [], [], []. cbn. rewrite !app_nil_r. repeat split.
  - cbv zeta. cbn [collectWith_loop stream_loop]. rewrite !bind_run.
    destruct (fetch_frame tok p) as (r & p' & d & Hyd & Hfetch). rewrite !Hfetch.
    destruct r as [page|v|].
    2: { exists d, d, []. cbn. rewrite !app_nil_r. repeat split. }
    2: { exists d, d, []. cbn. rewrite !app_nil_r. repeat split. }
    rewrite bind_run, stream_forOf_run. cbv zeta.
    set (len := length (PageResult.rows page)).
    set (k := allowance (maxRows options) count len).
    set (mid := map (@EvYield Err T) (firstn k (PageResult.rows page))).
    assert (Hmid : forall tail,
               yielded (d ++ mid ++ tail)
               = firstn k (PageResult.rows page) ++ yielded tail
               /\ filter is_fetch (d ++ mid ++ tail)
                  = filter is_fetch d ++ filter is_fetch tail).
    { intros tail. rewrite !yielded_app, Hyd, !filter_app. unfold mid.
      now rewrite yielded_map_EvYield, yields_not_fetches. }
    assert (Hend : forall res : CollectResult.t T,
               CollectResult.rows res = rows ++ firstn k (PageResult.rows page) ->
               exists d1 d2 more,
                 tr1 ++ d = tr1 ++ d1
                 /\ (tr2 ++ d) ++ mid = tr2 ++ d2
                 /\ filter is_fetch d2 = filter is_fetch d1 ++ more
                 /\ CollectResult.rows res = rows ++ yielded d2
                 /\ (more <> [] -> CollectResult.truncated res = true)).
    { intros res Hres. exists d, (d ++ mid), [].
      split; [reflexivity|]. split; [now rewrite app_assoc|].
      destruct (Hmid []) as [Hy Hf]. rewrite app_nil_r in Hy, Hf.
      rewrite Hy, Hf. cbn. rewrite !app_nil_r. repeat split; [exact Hres|].
      intros Hmore. contradiction. }
    assert (Hcont :
              k = len ->
              (forall m, maxRows options = Some m ->
                         (Z.of_nat (count + len) <= m)%Z) ->
              let rc := (call_onPage options page
                           (length (rows ++ PageResult.rows page)) ;;
                         if truthy (PageResult.nextToken page)
                         then collectWith_loop options fuel qid f
                                (rows ++ PageResult.rows page)
                                (PageResult.nextToken page) (S pc) tr0
                         else collectWith_return (rows ++ PageResult.rows page)
                                (S pc) tr0)
                          (World p' c1 (tr1 ++ d)) in
              let rs := (if truthy (PageResult.nextToken page)
                         then stream_loop options fuel qid f
                                (PageResult.nextToken page) (count + k)
                         else ret tt)
                          (World p' c2 ((tr2 ++ d) ++ mid)) in
              exists d1 d2 more,
                trace (snd rc) = tr1 ++ d1
                /\ trace (snd rs) = tr2 ++ d2
                /\ filter is_fetch d2 = filter is_fetch d1 ++ more
                /\ match fst rc with
                   | Returned res =>
                       CollectResult.rows res = rows ++ yielded d2
                       /\ (more <> [] -> CollectResult.truncated res = true)
                   | Threw v =>
                       fst rs = Threw v /\ more = []
                       /\ pager (snd rc) = pager (snd rs)
                   | OutOfFuel => fst rs = OutOfFuel /\ more = []
                   end).
    { intros Hk Hnext. cbv zeta. rewrite bind_run.
      destruct (onPage_returns Hcb page (length (rows ++ PageResult.rows page))
                  p' c1 (tr1 ++ d)) as [c1' ->].
      set (seen := onPage_events options page
                     (length (rows ++ PageResult.rows page))).
      assert (Hall : firstn k (PageResult.rows page) = PageResult.rows page)
        by (rewrite Hk; apply firstn_all).
      destruct (truthy (PageResult.nextToken page)).
      - match goal with
        | |- context [collectWith_loop options fuel qid f ?r ?t ?n ?b
                        (World ?q ?u1 ?t1)] =>
            match goal with
            | |- context [stream_loop options fuel qid f t ?m (World q ?u2 ?t2)] =>
                destruct (IH r t n b m q u1 t1 u2 t2)
                  as (d1 & d2 & more & H1 & H2 & Hd & Hr)
            end
        end.
        { rewrite length_app. fold len. lia. }
        { intros m Hm. rewrite Hk. now apply Hnext. }
        exists (d ++ seen ++ d1), (d ++ mid ++ d2), more.
        split; [rewrite H1; trace_eq|]. split; [rewrite H2; trace_eq|].
        destruct (Hmid d2) as [Hy Hf]. rewrite Hy, Hf, Hd, Hall.
        split; [unfold seen; rewrite !filter_app, onPage_events_not_fetches;
                now rewrite <- app_assoc|].
        destruct (fst (collectWith_loop _ _ _ _ _ _ _ _ _)) as [res|v|];
          [|exact Hr|exact Hr].
        destruct Hr as [Hrows Htr]. split; [|exact Htr].
        now rewrite Hrows, <- app_assoc.
      - cbn [collectWith_return ret Monad_M fst snd trace].
        exists (d ++ seen), (d ++ mid), [].
        split; [now rewrite app_assoc|]. split; [now rewrite app_assoc|].
        destruct (Hmid []) as [Hy Hf]. rewrite app_nil_r in Hy, Hf.
        rewrite Hy, Hf, Hall. unfold seen.
        rewrite filter_app, onPage_events_not_fetches. cbn. rewrite !app_nil_r.
        repeat split. intros Hmore. contradiction. }
    pose proof (allowance_le (maxRows options) count len) as Hkle. fold k in Hkle.
    destruct (maxRows options) as [m|] eqn:Hm.
    + specialize (Hwithin m eq_refl).
      assert (Hkm : k = Nat.min len (Z.to_nat (m - Z.of_nat count)))
        by (unfold k, allowance; rewrite ?Hm; reflexivity).
      subst count.
      destruct (Z.geb_spec (Z.of_nat len) (m - Z.of_nat (length rows)))
        as [Hge|Hlt].
      * assert (Hrows : rows ++ slice (PageResult.rows page) 0
                                  (m - Z.of_nat (length rows))
                        = rows ++ firstn k (PageResult.rows page)).
        { rewrite slice_firstn by lia. f_equal. f_equal. lia. }
        cbn [collectWith_return ret Monad_M fst snd trace].
        destruct (Nat.ltb_spec k len) as [Hklt|Hkge];
          [apply Hend; exact Hrows|].
        destruct (truthy (PageResult.nextToken page)); [|apply Hend; exact Hrows].
        match goal with
        | |- context [stream_loop options fuel qid f ?t ?n ?w'] =>
            destruct (stream_loop_journal options qid f fuel t n w')
              as (rest & Hrest & _ & Hyield)
        end.
        exists d, (d ++ mid ++ rest), (filter is_fetch rest).
        split; [reflexivity|].
        split; [rewrite Hrest; cbn [trace]; trace_eq|].
        destruct (Hmid rest) as [Hy Hf]. rewrite Hy, Hf.
        split; [reflexivity|]. split; [|reflexivity].
        cbn [CollectResult.rows]. rewrite Hrows, Hyield.
        replace (allowance (maxRows options) (length rows + k) _) with 0
          by (unfold allowance; rewrite ?Hm; lia).
        cbn. now rewrite app_nil_r.
      * assert (Hk : k = len) by lia.
        destruct (Nat.ltb_spec k len) as [Hklt|_]; [lia|].
        apply Hcont; [exact Hk|]. intros m' [= <-]. lia.
    + assert (Hk : k = len) by (unfold k, allowance; rewrite ?Hm; reflexivity).
      destruct (Nat.ltb_spec k len) as [Hklt|_]; [lia|].
      apply Hcont; [exact Hk|]. intros m' [=].
Qed.

(** Started from the same state of the pager, with an [onPage] that
    does not throw and a [batchProcessor] that completes and leaves
    the length of its batches as it was, [collectWith] and
    [processBatches] make the same fetches with the same answers,
    leave the pager in the same state and end the same way; their
    results count the same pages, and [collectWith] reports the rows
    [processBatches] counted, cut at [maxRows]. *)
Theorem collectWith_and_processBatches_fetch_alike fuel bp
    (w1 w2 : world Err T P C) :
  onPage_never_throws options ->
  completes bp ->
  keeps_length bp ->
  pager w1 = pager w2 ->
  let rc := collectWith options fuel qid f w1 in
  let rb := processBatches options fuel qid f bp w2 in
  pager (snd rc) = pager (snd rb)
  /\ (exists d1 d2,
        trace (snd rc) = trace w1 ++ EvReset :: d1
        /\ trace (snd rb) = trace w2 ++ EvReset :: d2
        /\ filter is_fetch d1 = filter is_fetch d2)
  /\ match fst rc, fst rb with
     | Returned res, Returned b =>
         CollectResult.pageCount res = BatchResult.pageCount b
         /\ (maxRows options = None ->
             CollectResult.totalRows res = BatchResult.totalRows b)
         /\ (forall m, maxRows options = Some m -> (0 <= m)%Z ->
               Z.of_nat (CollectResult.totalRows res)
               = Z.min m (Z.of_nat (BatchResult.totalRows b)))
     | Threw v, Threw v' => v = v'
     | OutOfFuel, OutOfFuel => True
     | _, _ => False
     end.
Proof.
  intros Hcb Hbp Hkeeps Hpager rc rb.
  assert (Hsim :
            pager (snd rc) = pager (snd rb)
            /\ (exists d1 d2,
                  trace (snd rc) = trace w1 ++ EvReset :: d1
                  /\ trace (snd rb) = trace w2 ++ EvReset :: d2
                  /\ filter is_fetch d1 = filter is_fetch d2)
            /\ match fst rc, fst rb with
               | Returned res, Returned b =>
                   CollectResult.pageCount res = BatchResult.pageCount b
               | Threw v, Threw v' => v = v'
               | OutOfFuel, OutOfFuel => True
               | _, _ => False
               end).
  { subst rc rb. destruct w1 as [p c1 tr1], w2 as [p2 c2 tr2].
    cbn [pager] in Hpager. subst p2.
    unfold collectWith, processBatches. rewrite !bind_run. cbn [pager_reset].
    cbn [pager user trace].
    destruct (collect_batches_alike Hcb Hbp Hkeeps fuel [] None 0 false
                (reset p) c1 (tr1 ++ [EvReset]) c2 (tr2 ++ [EvReset]) eq_refl)
      as (Hp & (d1 & d2 & H1 & H2 & Hd) & Hr).
    cbn [length] in Hp, H2, Hr.
    split; [exact Hp|]. split; [|exact Hr].
    exists d1, d2. split; [rewrite H1; trace_eq|]. split; [rewrite H2; trace_eq|].
    exact Hd. }
  destruct Hsim as (Hp & (d1 & d2 & H1 & H2 & Hd) & Hr).
  split; [exact Hp|]. split; [exists d1, d2; repeat split; assumption|].
  destruct (collectWith_general options qid f fuel w1) as (g1 & Hg1 & _ & Hnone & _).
  destruct (collectWith_journal options qid f fuel w1) as (j1 & Hj1 & _ & _ & Hsome).
  destruct (processBatches_general options qid f bp fuel w2)
    as (g2 & Hg2 & _ & _ & Htotal & _).
  fold rc in Hg1, Hnone, Hj1, Hsome. fold rb in Hg2, Htotal.
  rewrite H1 in Hg1, Hj1. rewrite H2 in Hg2.
  apply app_inv_head in Hg1, Hj1, Hg2.
  injection Hg1 as <-. injection Hj1 as <-. injection Hg2 as <-.
  pose proof (collectWith_totalRows options qid f fuel w1) as Hlen. fold rc in Hlen.
  assert (Hpages : fetched_pages d1 = fetched_pages d2)
    by (rewrite <- (fetched_pages_of_fetches d1), Hd; apply fetched_pages_of_fetches).
  destruct (fst rc) as [res|v|], (fst rb) as [b|v'|]; try exact Hr.
  split; [exact Hr|].
  destruct (Htotal b eq_refl) as (_ & _ & -> & Hkept & _).
  rewrite (Hkept Hkeeps), (Hlen res eq_refl). split.
  - intros Hm. destruct (Hnone res eq_refl) as (_ & _ & Hrows).
    destruct (Hrows Hm) as [-> _]. now rewrite Hpages.
  - intros m Hm Hpos. destruct (Hsome m res Hm Hpos eq_refl) as [-> _].
    cbn [limit]. rewrite length_firstn, Hpages.
    fold (total_rows (fetched_pages d2)). lia.
Qed.

(** Started from the same state of the pager, with an [onPage] that
    does not throw and a limit that is not negative: the stream
    makes the fetches [collectWith] makes, and goes on fetching
    only when [collectWith] stopped at the limit.  When
    [collectWith] returns, the rows the stream yields are exactly
    the rows of the result, whatever becomes of its further
    fetches; when [collectWith] fails on a fetch, the stream fails
    with the same error after the same fetches. *)
Theorem stream_yields_what_collectWith_returns fuel (w1 w2 : world Err T P C) :
  onPage_never_throws options ->
  (forall m, maxRows options = Some m -> (0 <= m)%Z) ->
  pager w1 = pager w2 ->
  let rc := collectWith options fuel qid f w1 in
  let rs := stream options fuel qid f w2 in
  exists d1 d2 more,
    trace (snd rc) = trace w1 ++ EvReset :: d1
    /\ trace (snd rs) = trace w2 ++ EvReset :: d2
    /\ filter is_fetch d2 = filter is_fetch d1 ++ more
    /\ match fst rc with
       | Returned res =>
           CollectResult.rows res = yielded d2
           /\ (more <> [] -> CollectResult.truncated res = true)
       | Threw v =>
           fst rs = Threw v /\ more = [] /\ pager (snd rc) = pager (snd rs)
       | OutOfFuel => fst rs = OutOfFuel /\ more = []
       end.
Proof.
  intros Hcb Hpos Hpager rc rs. subst rc rs.
  destruct w1 as [p c1 tr1], w2 as [p2 c2 tr2].
  cbn [pager] in Hpager. subst p2.
  unfold collectWith, stream. rewrite !bind_run. cbn [pager_reset].
  cbn [pager user trace].
  destruct (collect_stream_alike Hcb fuel [] None 0 false
              (reset p) c1 (tr1 ++ [EvReset]) c2 (tr2 ++ [EvReset]) eq_refl)
    as (d1 & d2 & more & H1 & H2 & Hd & Hr).
  { intros m Hm. cbn. now apply Hpos. }
  cbn [length app] in H2, Hr.
  exists d1, d2, more.
  split; [rewrite H1; trace_eq|]. split; [rewrite H2; trace_eq|].
  split; [exact Hd|exact Hr].
Qed.

End SideBySide.

(** ** The constructor and the options the methods see *)

Section Construction.
Context {Err Raw T P C : Type}.
Context {pagerOps : Pager Err Raw T P}.
Variable qid : string.
Variable f : Raw -> T.

(** What the constructor stores: every property the argument owns,
    as given, even when its value is [undefined]; [retryCount] 0
    and [retryDelayMs] 1000 only where the key is missing.  Built
    without argument, the collector has the default options. *)
Theorem constructor_fills_defaults (supplied : Supplied.t Err T C) :
  let stored := constructor (Some supplied) in
  Stored.maxRows stored = Property.read (Supplied.maxRows supplied)
  /\ Stored.onPage stored = Property.read (Supplied.onPage supplied)
  /\ Stored.retryCount stored
     = match Supplied.retryCount supplied with
       | Property.Missing => Some 0%Z
       | Property.Own value => value
       end
  /\ Stored.retryDelayMs stored
     = match Supplied.retryDelayMs supplied with
       | Property.Missing => Some 1000%Z
       | Property.Own value => value
       end
  /\ resolved (constructor (@None (Supplied.t Err T C))) = Some defaultOptions
  /\ constructor (Some Supplied.empty) = constructor (@None (Supplied.t Err T C)).
Proof.
  destruct supplied as [[|m] [|g] [|r] [|d]]; repeat split.
Qed.

Lemma single_attempt_fails (options : CollectorOptions Err T C) tok
    (w : world Err T P C) error p' :
  retryCount options = 0%Z ->
  fetchPageWith qid f tok (pager w) = (inl error, p') ->
  fetchPageWithRetry options qid f tok w
  = (Threw (Some error),
     World p' (user w) (trace w ++ [EvFetch qid tok (inl error)])).
Proof.
  intros Hr Hfetch. unfold fetchPageWithRetry. rewrite Hr.
  change (Z.to_nat (0 + 1)) with 1. rewrite fetch_for_S, Hfetch, Hr.
  cbn. now rewrite app_nil_r.
Qed.

(** A collector built without [retryCount] (or without options at
    all) does not retry: when the first fetch fails, every call
    ends with that error after this one attempt, without a wait. *)
Theorem collector_without_retryCount_does_not_retry
    (argument : option (Supplied.t Err T C)) (options : CollectorOptions Err T C)
    fuel bp (w : world Err T P C) error p' :
  Supplied.retryCount (default_parameter argument Supplied.empty) = Property.Missing ->
  resolved (constructor argument) = Some options ->
  fetchPageWith qid f None (reset (pager w)) = (inl error, p') ->
  1 <= fuel ->
  let failed :=
    World p' (user w) (trace w ++ [EvReset; EvFetch qid None (inl error)]) in
  collectWith options fuel qid f w = (Threw (Some error), failed)
  /\ stream options fuel qid f w = (Threw (Some error), failed)
  /\ processBatches options fuel qid f bp w = (Threw (Some error), failed).
Proof.
  intros Hmissing Hresolved Hfetch Hfuel failed.
  assert (Hr : retryCount options = 0%Z).
  { unfold resolved, constructor in Hresolved. rewrite Hmissing in Hresolved.
    cbn in Hresolved.
    destruct (spread _ _) as [d|]; [|discriminate].
    now injection Hresolved as <-. }
  destruct fuel as [|fuel]; [lia|].
  unfold collectWith, stream, processBatches. rewrite !bind_run.
  cbn [pager_reset collectWith_loop stream_loop processBatches_loop].
  rewrite !bind_run.
  rewrite (single_attempt_fails options None
             (World (reset (pager w)) (user w) (trace w ++ [EvReset])) Hr Hfetch).
  cbn [pager user trace]. subst failed.
  replace ((trace w ++ [EvReset]) ++ [EvFetch qid None (inl error)])
    with (trace w ++ [EvReset; EvFetch qid None (inl error)])
    by (now rewrite <- app_assoc).
  repeat split.
Qed.

End Construction.

(** ** The generator of stream, call by call *)

Section GeneratorFacts.
Context {Err Raw T P C : Type}.
Context {pagerOps : Pager Err Raw T P}.
Variable options : CollectorOptions Err T C.
Variable qid : string.
Variable f : Raw -> T.

Implicit Types (w : world Err T P C) (g : generator T).

Abbreviation resume := (stream_resume options qid f).
Abbreviation rest := (stream_rest options qid f).
Abbreviation consume calls fuel :=
  (fun r : option T * generator T =>
     match r with
     | (Some _, g') => for_await options qid f calls fuel g'
     | (None, _) => ret tt
     end).

Lemma stream_resume_eq fuel rows page count :
  resume fuel rows page count
  = match rows with
    | row :: rows' =>
        if reached (maxRows options) count
        then ret (None, Completed)
        else
          emit (EvYield row) ;;
          ret (Some row, SuspendedYield rows' page count)
    | [] =>
        if truthy (PageResult.nextToken page)
        then
          match fuel with
          | O => outOfFuel
          | S fuel' =>
              page' <- fetchPageWithRetry options qid f (PageResult.nextToken page) ;;
              resume fuel' (PageResult.rows page') page' count
          end
        else ret (None, Completed)
    end.
Proof. destruct fuel; reflexivity. Qed.

Lemma stream_rest_nil fuel page count w :
  rest fuel [] page count w
  = (if truthy (PageResult.nextToken page)
     then stream_loop options fuel qid f (PageResult.nextToken page) count
     else ret tt) w.
Proof. reflexivity. Qed.

Lemma stream_rest_cons fuel row rows page count w :
  rest fuel (row :: rows) page count w
  = if reached (maxRows options) count
    then (Returned tt, w)
    else rest fuel rows page (S count)
           (World (pager w) (user w) (trace w ++ [EvYield row])).
Proof.
  unfold stream_rest. cbn [stream_forOf].
  destruct (reached (maxRows options) count); reflexivity.
Qed.

Lemma stream_loop_S fuel tok count w :
  stream_loop options (S fuel) qid f tok count w
  = (page <- fetchPageWithRetry options qid f tok ;;
     rest fuel (PageResult.rows page) page count) w.
Proof. reflexivity. Qed.

(** The trace only grows. *)
Lemma stream_rest_trace fuel rows page count w :
  exists delta, trace (snd (rest fuel rows page count w)) = trace w ++ delta.
Proof.
  unfold stream_rest. rewrite bind_run. destruct w as [p c tr].
  rewrite stream_forOf_run. cbv zeta.
  destruct (_ <? _); [eexists; reflexivity|].
  destruct (truthy (PageResult.nextToken page)); [|eexists; reflexivity].
  match goal with
  | |- context [stream_loop options fuel qid f ?t ?n ?w'] =>
      destruct (stream_loop_journal options qid f fuel t n w') as (d & Hd & _)
  end.
  rewrite Hd. cbn [trace]. eexists. now rewrite <- app_assoc.
Qed.

(** Driven by [for await], the generator goes through the rest of a
    turn as [stream] does. *)
Local Abbreviation refines fuel rows page count w calls fuelR fuelG :=
  (fst (rest fuel rows page count w) <> OutOfFuel ->
   fuel <= fuelR ->
   fuel <= fuelG ->
   length (yielded (trace (snd (rest fuel rows page count w))))
   <= length (yielded (trace w)) + calls ->
   (r <- resume fuelR rows page count ;; consume calls fuelG r) w
   = rest fuel rows page count w).

Lemma refines_cons fuel row rows page
    (IH : forall count w calls fuelR fuelG,
        refines fuel rows page count w calls fuelR fuelG) :
  forall count w calls fuelR fuelG,
    refines fuel (row :: rows) page count w calls fuelR fuelG.
Proof.
  intros count w calls fuelR fuelG.
  rewrite stream_rest_cons, bind_run, stream_resume_eq.
  destruct (reached (maxRows options) count); [reflexivity|].
  intros Hend HfuelR Hfuel Hcalls. rewrite bind_run. cbn [emit ret Monad_M].
  set (w1 := World (pager w) (user w) (trace w ++ [EvYield row])) in *.
  destruct (stream_rest_trace fuel rows page (S count) w1) as [delta Hdelta].
  assert (Hone : length (yielded (trace w1)) = S (length (yielded (trace w)))).
  { unfold w1. cbn [trace]. rewrite yielded_app, length_app. cbn. lia. }
  destruct calls as [|calls].
  { rewrite Hdelta, yielded_app, length_app in Hcalls. lia. }
  cbn [for_await stream_next]. apply IH; [exact Hend|exact Hfuel|exact Hfuel|lia].
Qed.

Lemma refines_all fuel : forall rows page count w calls fuelR fuelG,
  refines fuel rows page count w calls fuelR fuelG.
Proof.
  induction fuel as [|fuel IHf]; intros rows page;
    induction rows as [|row rows IHr]; try (apply refines_cons; exact IHr);
    intros count w calls fuelR fuelG;
    rewrite stream_rest_nil, bind_run, stream_resume_eq;
    destruct (truthy (PageResult.nextToken page)); try reflexivity.
  - intros Hend. now contradiction Hend.
  - intros Hend HfuelR Hfuel Hcalls. destruct fuelR as [|fuelR]; [lia|].
    rewrite stream_loop_S in *. rewrite !bind_run in *.
    destruct w as [p c tr].
    destruct (fetch_frame options qid f (PageResult.nextToken page) p)
      as (r & p' & d & Hyd & Hfetch).
    rewrite Hfetch in *. destruct r as [page'|v|]; try reflexivity.
    rewrite <- bind_run. apply IHf; [exact Hend|lia|lia|].
    cbn [trace] in *. rewrite yielded_app, Hyd, app_nil_r. exact Hcalls.
Qed.

(** A consumer that runs the generator to its end, calling [next()]
    once more than rows are yielded, gets the run of [stream]: the
    same calls of the pager, the same rows in the same order, the
    same end. *)
Theorem generator_runs_as_stream fuel w calls fuelG :
  fst (stream options fuel qid f w) <> OutOfFuel ->
  fuel <= fuelG ->
  length (yielded (trace (snd (stream options fuel qid f w))))
  < length (yielded (trace w)) + calls ->
  for_await options qid f calls fuelG SuspendedStart w
  = stream options fuel qid f w.
Proof.
  unfold stream. rewrite bind_run. cbn [pager_reset].
  destruct fuel as [|fuel]; [intros Hend; now contradiction Hend|].
  intros Hend Hfuel Hcalls.
  destruct calls as [|calls].
  { match type of Hend with
    | fst (stream_loop options ?n qid f ?t ?c ?w') <> _ =>
        destruct (stream_loop_journal options qid f n t c w') as (dl & Hdl & _)
    end.
    rewrite Hdl in Hcalls. cbn [trace] in Hcalls.
    rewrite !yielded_app, !length_app in Hcalls. lia. }
  destruct fuelG as [|fuelG]; [lia|].
  cbn [for_await stream_next]. rewrite !bind_run. cbn [pager_reset].
  rewrite stream_loop_S in *. rewrite !bind_run in *.
  destruct (fetch_frame options qid f None (reset (pager w)))
    as (r & p' & d & Hyd & Hfetch).
  rewrite Hfetch in *. destruct r as [page|v|]; try reflexivity.
  rewrite <- bind_run. apply refines_all; [exact Hend|lia|lia|].
  cbn [trace]. rewrite !yielded_app, Hyd, length_app. cbn [yielded flat_map app length].
  rewrite app_nil_r. lia.
Qed.

(** What a suspended generator has done so far, after the consumer
    has taken the rows [taken]: it has yielded these rows, and the
    last page it fetched is the one that holds the last of them. *)
Local Abbreviation on_demand tr0 taken g w :=
  (exists delta,
      trace w = tr0 ++ delta
      /\ yielded delta = taken%list
      /\ match g with
         | SuspendedStart => delta = []
         | SuspendedYield pending page count =>
             S count = length taken
             /\ exists pre seen,
                  fetched_pages delta = pre ++ [page]
                  /\ PageResult.rows page = seen ++ pending
                  /\ seen <> []
                  /\ all_rows pre ++ seen = taken%list
         | Completed => True
         end).

Lemma resume_on_demand fuel : forall rows page count w tr0 delta pre seen taken,
  trace w = tr0 ++ delta ->
  yielded delta = taken ->
  fetched_pages delta = pre ++ [page] ->
  PageResult.rows page = seen ++ rows ->
  taken = all_rows pre ++ seen ->
  count = length taken ->
  forall r g' w',
    resume fuel rows page count w = (Returned (r, g'), w') ->
    match r with
    | Some row =>
        on_demand tr0 (taken ++ [row]) g' w'
        /\ exists pending page count, g' = SuspendedYield pending page count
    | None => g' = Completed /\ on_demand tr0 taken g' w'
    end.
Proof.
  assert (Hcons : forall fuel row rows page count w tr0 delta pre seen taken,
             trace w = tr0 ++ delta ->
             yielded delta = taken ->
             fetched_pages delta = pre ++ [page] ->
             PageResult.rows page = seen ++ row :: rows ->
             taken = all_rows pre ++ seen ->
             count = length taken ->
             forall r g' w',
               resume fuel (row :: rows) page count w = (Returned (r, g'), w') ->
               match r with
               | Some row =>
                   on_demand tr0 (taken ++ [row]) g' w'
                   /\ exists pending page count, g' = SuspendedYield pending page count
               | None => g' = Completed /\ on_demand tr0 taken g' w'
               end).
  { intros fuel0 row rows page count w tr0 delta pre seen taken
           Ht Hy Hf Hrows Htaken Hcount r g' w'.
    rewrite stream_resume_eq. destruct (reached (maxRows options) count).
    - intros [= <- <- <-]. split; [reflexivity|]. exists delta. now repeat split.
    - rewrite bind_run. cbn [emit ret Monad_M]. intros [= <- <- <-].
      split; [|eexists _, _, _; reflexivity].
      exists (delta ++ [EvYield row]). cbn [trace].
      split; [rewrite Ht; now rewrite app_assoc|].
      split; [rewrite yielded_app, Hy; reflexivity|].
      split; [rewrite length_app; cbn; lia|].
      exists pre, (seen ++ [row]).
      split; [rewrite fetched_pages_app, Hf; cbn; now rewrite app_nil_r|].
      split; [now rewrite <- app_assoc|].
      split; [now destruct seen|]. now rewrite Htaken, app_assoc. }
  induction fuel as [|fuel IH];
    intros rows page count w tr0 delta pre seen taken Ht Hy Hf Hrows Htaken Hcount
           r g' w';
    (destruct rows as [|row rows];
     [|now apply (Hcons _ row rows page count w tr0 delta pre seen taken)]);
    rewrite stream_resume_eq;
    (destruct (truthy (PageResult.nextToken page));
     [|intros [= <- <- <-]; split; [reflexivity|]; exists delta; now repeat split]).
  - discriminate.
  - rewrite bind_run.
    destruct (fetch_exact options qid f (PageResult.nextToken page) w) as [_ Hfetch].
    destruct (fetchPageWithRetry options qid f (PageResult.nextToken page) w)
      as [[page'|v|] w1]; cbn [fst snd] in *; try discriminate.
    destruct Hfetch as (errors & _ & Hw1).
    apply (IH (PageResult.rows page') page' count w1 tr0
             (delta ++ retry_trace qid (PageResult.nextToken page)
                         (retryDelayMs options) errors
                    ++ [EvFetch qid (PageResult.nextToken page) (inr page')])
             (pre ++ [page]) [] taken).
    + rewrite Hw1, Ht. now rewrite <- app_assoc.
    + rewrite !yielded_app, yielded_retries, Hy. cbn. now rewrite app_nil_r.
    + rewrite fetched_pages_app, attempts_fetched_pages, Hf. reflexivity.
    + reflexivity.
    + rewrite Htaken, all_rows_app, app_nil_r. cbn. rewrite app_nil_r.
      rewrite app_nil_r in Hrows. now rewrite Hrows.
    + exact Hcount.
Qed.

Lemma next_on_demand fuel tr0 taken g w :
  on_demand tr0 taken g w ->
  forall r g' w',
    stream_next options qid f fuel g w = (Returned (r, g'), w') ->
    match r with
    | Some row =>
        on_demand tr0 (taken ++ [row]) g' w'
        /\ exists pending page count, g' = SuspendedYield pending page count
    | None => g' = Completed /\ on_demand tr0 taken g' w'
    end.
Proof.
  intros (delta & Ht & Hy & Hg) r g' w'. destruct g as [|pending page count|].
  - subst delta. cbn in Hy. subst taken. rewrite app_nil_r in Ht.
    cbn [stream_next]. rewrite bind_run. cbn [pager_reset].
    destruct fuel as [|fuel]; [discriminate|]. rewrite bind_run.
    match goal with
    | |- context [fetchPageWithRetry options qid f None ?w0] =>
        destruct (fetch_exact options qid f None w0) as [_ Hfetch];
        destruct (fetchPageWithRetry options qid f None w0) as [[page|v|] w1]
    end; cbn [fst snd trace] in *; try discriminate.
    destruct Hfetch as (errors & _ & Hw1).
    apply (@resume_on_demand fuel (PageResult.rows page) page 0 w1 tr0
             ([EvReset] ++ retry_trace qid None (retryDelayMs options) errors
                ++ [EvFetch qid None (inr page)])
             [] [] []); try reflexivity.
    + rewrite Hw1, Ht. now rewrite <- app_assoc.
    + rewrite !yielded_app, yielded_retries. reflexivity.
    + rewrite fetched_pages_app, attempts_fetched_pages. reflexivity.
  - destruct Hg as (Hcount & pre & seen & Hf & Hrows & _ & Htaken).
    cbn [stream_next].
    now apply (@resume_on_demand fuel pending page (S count) w tr0 delta pre seen taken).
  - cbn. intros [= <- <- <-]. split; [reflexivity|]. exists delta. now repeat split.
Qed.

Lemma take_on_demand fuel tr0 k : forall g w taken rows g' w',
  on_demand tr0 taken g w ->
  take options qid f k fuel g w = (Returned (rows, g'), w') ->
  on_demand tr0 (taken ++ rows) g' w'
  /\ length rows <= k
  /\ (length rows < k -> g' = Completed).
Proof.
  induction k as [|k IH]; intros g w taken rows g' w' Hinv.
  - cbn. intros [= <- <- <-]. rewrite app_nil_r.
    split; [exact Hinv|]. split; [cbn; lia|]. intros Hlt. exfalso. cbn in Hlt. lia.
  - cbn [take]. rewrite bind_run.
    pose proof (@next_on_demand fuel tr0 taken g w Hinv) as Hnext.
    destruct (stream_next options qid f fuel g w) as [[[r g1]|v|] w1];
      try discriminate.
    specialize (Hnext r g1 w1 eq_refl). destruct r as [row|].
    + destruct Hnext as [Hinv1 _]. rewrite bind_run.
      pose proof (IH g1 w1 (taken ++ [row])) as Hlater.
      destruct (take options qid f k fuel g1 w1) as [[[later g2]|v|] w2];
        try discriminate.
      cbn [fst snd ret Monad_M]. intros [= <- <- <-].
      destruct (Hlater later g2 w2 Hinv1 eq_refl) as (Hinv2 & Hlen & Hdone).
      rewrite <- app_assoc in Hinv2. cbn [app] in Hinv2.
      split; [exact Hinv2|]. cbn [length]. split; [lia|].
      intros Hlt. apply Hdone. lia.
    + destruct Hnext as [-> Hinv1]. cbn. intros [= <- <- <-].
      rewrite app_nil_r. split; [exact Hinv1|]. split; [cbn; lia|reflexivity].
Qed.

(** The generator fetches on demand.  Creating it does nothing: the
    reset and the first fetch happen in the first [next()].  When
    the consumer has taken [k] rows and stops, the generator has
    yielded exactly these rows, and the last page it has fetched is
    the one that holds the k-th row: no page is fetched before every
    row of the pages before it has been handed out.  A consumer that
    gets fewer rows than it asked for has seen the generator
    complete. *)
Theorem stream_fetches_on_demand k fuel w rows g' w' :
  take options qid f k fuel SuspendedStart w = (Returned (rows, g'), w') ->
  exists delta,
    trace w' = trace w ++ delta
    /\ yielded delta = rows
    /\ length rows <= k
    /\ (length rows < k -> g' = Completed)
    /\ match g' with
       | SuspendedStart => k = 0 /\ delta = []
       | SuspendedYield pending page count =>
           length rows = k
           /\ exists pre seen,
                fetched_pages delta = pre ++ [page]
                /\ PageResult.rows page = seen ++ pending
                /\ seen <> []
                /\ all_rows pre ++ seen = rows
       | Completed => True
       end.
Proof.
  intros Hrun.
  destruct (@take_on_demand fuel (trace w) k SuspendedStart w [] rows g' w')
    as ((delta & Ht & Hy & Hg) & Hlen & Hdone); [|exact Hrun|].
  { exists []. now rewrite app_nil_r. }
  cbn [app] in *. exists delta.
  split; [exact Ht|]. split; [exact Hy|]. split; [exact Hlen|].
  split; [exact Hdone|]. destruct g' as [|pending page count|]; [| |exact I].
  - split; [|exact Hg]. destruct k as [|k]; [reflexivity|].
    assert (@SuspendedStart T = Completed) by (apply Hdone; subst delta;
      cbn in Hy; subst rows; cbn; lia). discriminate.
  - destruct Hg as (_ & Hpages). split; [|exact Hpages].
    destruct (Nat.eq_dec (length rows) k) as [E|E]; [exact E|].
    assert (SuspendedYield pending page count = Completed) by (apply Hdone; lia).
    discriminate.
Qed.

End GeneratorFacts.

(** ** The further properties on runs of the mocked pager *)

(** A throttled attempt, retried; five rows under a limit of five:
    all five rows are returned, none is dropped, and the result is
    nevertheless truncated; the failed attempt is not a page. *)
Lemma collectWith_rows_under_limit_witness :
  let res := CollectResult.mk [1; 2; 3; 4; 5]%Z 5 2 true in
  fst Usage.collect_exactly_five = Returned res
  /\ exists delta,
       trace (snd Usage.collect_exactly_five) = [] ++ EvReset :: delta
       /\ CollectResult.rows res = limit (Some 5%Z) (all_rows (fetched_pages delta))
       /\ CollectResult.truncated res
          = reached (Some 5%Z) (total_rows (fetched_pages delta))
       /\ CollectResult.pageCount res = length (fetched_pages delta)
       /\ (Z.of_nat (CollectResult.totalRows res) <= 5)%Z
       /\ (CollectResult.truncated res = true ->
           Z.of_nat (CollectResult.totalRows res) = 5%Z).
Proof.
  split; [reflexivity|].
  exact (@collectWith_rows_under_limit string Z Z (Script.t string Z) (list nat) _
           (Scenario.options (Some 5%Z) 1) Scenario.queryExecutionId
           (fun row => row) 5
           (Scenario.mock [inl "throttled"%string;
                           inr Scenario.first_of_five; inr Scenario.last_of_five])
           5%Z _ eq_refl ltac:(lia) eq_refl).
Defined.

(** retryCount = -1: reset, no fetch, [undefined] thrown. *)
Lemma negative_retryCount_makes_no_attempt_witness :
  let aborted :=
    World (Script.mk (map inr [Scenario.three_rows]) Scenario.exhausted) []
          [@EvReset string Z] in
  Scenario.collect_negative_retries = (Threw None, aborted)
  /\ Usage.stream_negative_retries = (Threw None, aborted)
  /\ Usage.batches_negative_retries = (Threw None, aborted).
Proof.
  exact (@negative_retryCount_makes_no_attempt string Z Z (Script.t string Z)
           (list nat) _ (Scenario.options None (-1)) Scenario.queryExecutionId
           Scenario.identity 5 Scenario.store
           (Scenario.mock (map inr [Scenario.three_rows]))
           ltac:(cbn; lia) ltac:(lia)).
Defined.

(** maxRows = -1 and a page of three rows: two rows collected, one
    page, truncated; nothing streamed; one batch. *)
Lemma negative_maxRows_stops_at_first_page_witness :
  fst Scenario.collect_negative_limit
  = Returned (CollectResult.mk [1; 2]%Z 2 1 true)
  /\ (exists delta page,
        trace (snd Scenario.collect_negative_limit) = [] ++ EvReset :: delta
        /\ fetched_pages delta = [page]
        /\ CollectResult.mk [1; 2]%Z 2 1 true
           = CollectResult.mk
               (firstn (length (PageResult.rows page) - 1) (PageResult.rows page))
               (length (firstn (length (PageResult.rows page) - 1)
                               (PageResult.rows page)))
               1 true)
  /\ (exists delta,
        trace (snd Scenario.stream_negative_limit) = [] ++ EvReset :: delta
        /\ yielded delta = [])
  /\ BatchResult.pageCount (BatchResult.mk 3 1) = 1.
Proof.
  destruct (@negative_maxRows_stops_at_first_page string Z Z (Script.t string Z)
              (list nat) _ (Scenario.options (Some (-1)%Z) 0)
              Scenario.queryExecutionId Scenario.identity 5 Scenario.store
              (Scenario.mock (map inr [Scenario.three_rows])) (-1)%Z
              eq_refl ltac:(lia))
    as (Hc & Hs & Hb).
  split; [reflexivity|]. split; [exact (Hc _ eq_refl)|].
  split; [exact Hs|]. exact (Hb (BatchResult.mk 3 1) eq_refl).
Defined.

(** The pages of the batch test under its limit of three rows, given
    to a batchProcessor that leaves them as they are: of the pages
    fetched only the last one reaches the limit. *)
Lemma limit_ends_fetching_witness :
  keeps_length Scenario.store
  /\ exists delta,
       trace (snd Scenario.batches_limit_three) = [] ++ EvReset :: delta
       /\ fetched_pages delta = [Scenario.first_batch; Scenario.second_batch]
       /\ stops_at_limit (Scenario.options (Some 3%Z) 0) 0 (fetched_pages delta).
Proof.
  split; [exact scenario_store_keeps_length|].
  destruct (@limit_ends_fetching string Z Z (Script.t string Z) (list nat) _
              (Scenario.options (Some 3%Z) 0) Scenario.queryExecutionId
              Scenario.identity 5 Scenario.store
              (Scenario.mock (map inr [Scenario.first_batch; Scenario.second_batch])))
    as [_ (delta & Ht & _ & Hstops)].
  exists delta. split; [exact Ht|].
  split; [|exact (Hstops scenario_store_keeps_length)].
  apply (f_equal fetched_pages) in Ht. cbn in Ht.
  unfold fetched_pages in Ht |- *. cbn in Ht. symmetry. exact Ht.
Defined.

(** The pages of the batch test under its limit of three rows: both
    modes fetch the two pages; three rows collected, four counted. *)
Lemma collectWith_and_processBatches_fetch_alike_witness :
  fst Usage.collect_limit_three = Returned (CollectResult.mk [1; 2; 3]%Z 3 2 true)
  /\ fst Scenario.batches_limit_three = Returned (BatchResult.mk 4 2)
  /\ pager (snd Usage.collect_limit_three) = pager (snd Scenario.batches_limit_three)
  /\ (exists d1 d2,
        trace (snd Usage.collect_limit_three) = [] ++ EvReset :: d1
        /\ trace (snd Scenario.batches_limit_three) = [] ++ EvReset :: d2
        /\ filter is_fetch d1 = filter is_fetch d2)
  /\ (Z.of_nat 3 = Z.min 3 (Z.of_nat 4)).
Proof.
  destruct (@collectWith_and_processBatches_fetch_alike string Z Z (Script.t string Z)
              (list nat) _ (Scenario.options (Some 3%Z) 0)
              Scenario.queryExecutionId Scenario.identity 5 Scenario.store
              (Scenario.mock (map inr [Scenario.first_batch; Scenario.second_batch]))
              (Scenario.mock (map inr [Scenario.first_batch; Scenario.second_batch]))
              (@scenario_onPage_never_throws (Some 3%Z) 0%Z)
              scenario_store_completes scenario_store_keeps_length eq_refl)
    as (Hp & Hd & _ & _ & Hr).
  split; [reflexivity|]. split; [reflexivity|]. split; [exact Hp|].
  split; [exact Hd|]. exact (Hr 3%Z eq_refl ltac:(lia)).
Defined.

(** A limit of one row met by a page with a token, then an empty page
    and a last page: the stream yields the row [collectWith] returns
    and makes two fetches more. *)
Lemma stream_yields_what_collectWith_returns_witness :
  fst Scenario.collect_past_limit = Returned (CollectResult.mk [10%Z] 1 1 true)
  /\ exists d1 d2 more,
       trace (snd Scenario.collect_past_limit) = [] ++ EvReset :: d1
       /\ trace (snd Scenario.stream_past_limit) = [] ++ EvReset :: d2
       /\ filter is_fetch d2 = filter is_fetch d1 ++ more
       /\ [10%Z] = yielded d2
       /\ (more <> [] -> true = true).
Proof.
  split; [reflexivity|].
  exact (@stream_yields_what_collectWith_returns string Z Z (Script.t string Z)
           (list nat) _ (Scenario.options (Some 1%Z) 0) Scenario.queryExecutionId
           Scenario.identity 5
           (Scenario.mock
              (map inr [Scenario.full_page; Scenario.hollow_page; Scenario.final_page]))
           (Scenario.mock
              (map inr [Scenario.full_page; Scenario.hollow_page; Scenario.final_page]))
           (@scenario_onPage_never_throws (Some 1%Z) 0%Z)
           ltac:(intros m [= <-]; lia) eq_refl).
Defined.

(** Built without options, the collector gives up on the first
    failure, although the next answer of the pager would be a page. *)
Lemma collector_without_retryCount_does_not_retry_witness :
  let failed :=
    World (Script.mk [inr Scenario.ok_page] Scenario.exhausted) []
          [EvReset;
           EvFetch Scenario.queryExecutionId None (inl "network error"%string)] in
  Usage.collect_by_default = (Threw (Some "network error"%string), failed)
  /\ stream defaultOptions 1 Scenario.queryExecutionId Scenario.identity
       Usage.failing_first
     = (Threw (Some "network error"%string), failed)
  /\ processBatches defaultOptions 1 Scenario.queryExecutionId Scenario.identity
       Scenario.store Usage.failing_first
     = (Threw (Some "network error"%string), failed).
Proof.
  exact (@collector_without_retryCount_does_not_retry string Z Z (Script.t string Z)
           (list nat) _ Scenario.queryExecutionId Scenario.identity
           None defaultOptions 1 Scenario.store Usage.failing_first
           "network error"%string (Script.mk [inr Scenario.ok_page] Scenario.exhausted)
           eq_refl eq_refl eq_refl ltac:(lia)).
Defined.

(** The consumer of the stream tests gets the run of [stream], with
    its three fetches and its one row. *)
Lemma generator_runs_as_stream_witness :
  Usage.drain_past_limit = Scenario.stream_past_limit
  /\ fetch_calls (trace (snd Usage.drain_past_limit)) = 3
  /\ yielded (trace (snd Usage.drain_past_limit)) = [10%Z].
Proof.
  split; [|split; reflexivity].
  exact (@generator_runs_as_stream string Z Z (Script.t string Z) (list nat)
           scriptPager (Scenario.options (Some 1%Z) 0) Scenario.queryExecutionId
           Scenario.identity 5
           (Scenario.mock
              (map inr [Scenario.full_page; Scenario.hollow_page; Scenario.final_page]))
           2 5
           ltac:(cbv; intros H; discriminate H) ltac:(lia) ltac:(cbv; lia)).
Defined.

(** One row taken of five on two pages: one fetch, the first page,
    whose other two rows are pending. *)
Lemma stream_fetches_on_demand_witness :
  let w' :=
    World (Script.mk [inr Scenario.last_of_five] Scenario.exhausted) []
          [EvReset;
           EvFetch Scenario.queryExecutionId None (inr Scenario.first_of_five);
           EvYield 1%Z] in
  Usage.take_one
  = (Returned ([1%Z], SuspendedYield [2; 3]%Z Scenario.first_of_five 0), w')
  /\ exists delta,
       trace w' = [] ++ delta
       /\ yielded delta = [1%Z]
       /\ 1 <= 1
       /\ (1 < 1 -> SuspendedYield [2; 3]%Z Scenario.first_of_five 0 = Completed)
       /\ (1 = 1
           /\ exists pre seen,
                fetched_pages delta = pre ++ [Scenario.first_of_five]
                /\ PageResult.rows Scenario.first_of_five = seen ++ [2; 3]%Z
                /\ seen <> []
                /\ all_rows pre ++ seen = [1%Z]).
Proof.
  split; [reflexivity|].
  exact (@stream_fetches_on_demand string Z Z (Script.t string Z) (list nat) _
           (Scenario.options None 0) Scenario.queryExecutionId Scenario.identity
           1 5
           (Scenario.mock (map inr [Scenario.first_of_five; Scenario.last_of_five]))
           [1%Z] (SuspendedYield [2; 3]%Z Scenario.first_of_five 0) _ eq_refl).
Defined.
